(** * morse.builder.urdf: URDF robot description to armature conversion

    A shallow embedding of [src/morse/builder/urdf.py] and the properties
    of its kinematic-tree construction, its two placement passes and its
    material handling.

    Conventions of the embedding.
    - Python floats are idealised as real numbers ([R]).
    - Python exceptions are the constructors of [exn]; a computation that can
      raise is in the monad [M], which threads the host state ([World]) and
      keeps the state reached when the exception is raised.
    - Host objects that the code mutates through references (scene objects,
      pose bones, materials) live in [World] and are referred to by handles.
    - Console output ([print]) is the [w_log] field of [World]; the messages
      of the two constructors are not recorded.
    - An attribute the parser leaves unset is [None]. *)

From Stdlib Require Import Reals Lra String List.
From stdpp Require Import base option list strings gmap.

Local Open Scope string_scope.
Local Open Scope list_scope.
Set Warnings "-register-all".

(** ** Exceptions *)

Inductive exn :=
| KeyError (key : string)
| TypeError
| AttributeError
| RecursionError
(* what the host raises of its own: a file that cannot be read or parsed *)
| HostError (what : string).

Inductive result (A : Type) :=
| Ok (a : A)
| Raise (e : exn).
Arguments Ok {A} a.
Arguments Raise {A} e.

Definition rbind {A B} (r : result A) (k : A -> result B) : result B :=
  match r with
  | Ok a => k a
  | Raise e => Raise e
  end.

#[global] Instance result_bind : MBind result := fun A B k r => rbind r k.
#[global] Instance result_ret : MRet result := @Ok.

(** ** Vectors, quaternions and Euler angles (morse.core.mathutils) *)

Module Mathutils.

Record Vector := mkVector { vx : R; vy : R; vz : R }.

Record Quaternion := mkQuat { qw : R; qx : R; qy : R; qz : R }.

Definition vzero : Vector := mkVector 0 0 0.

Definition qidentity : Quaternion := mkQuat 1 0 0 0.

(** [Vector + Vector] *)
Definition vadd (a b : Vector) : Vector :=
  mkVector (vx a + vx b) (vy a + vy b) (vz a + vz b).




(** Hamilton product and conjugate. *)
Definition qmul (a b : Quaternion) : Quaternion :=
  mkQuat (qw a * qw b - qx a * qx b - qy a * qy b - qz a * qz b)
         (qw a * qx b + qx a * qw b + qy a * qz b - qz a * qy b)
         (qw a * qy b - qx a * qz b + qy a * qw b + qz a * qx b)
         (qw a * qz b + qx a * qy b - qy a * qx b + qz a * qw b).

Definition qconj (a : Quaternion) : Quaternion :=
  mkQuat (qw a) (- qx a) (- qy a) (- qz a).


(** Modelled from the spec: [Quaternion * Vector] of morse.core.mathutils
    (not under src/), the orientation applied to a vector as a rotation:
    the vector part of [q (0,v) q*]. *)
Definition rotate (q : Quaternion) (v : Vector) : Vector :=
  let p := qmul (qmul q (mkQuat 0 (vx v) (vy v) (vz v))) (qconj q) in
  mkVector (qx p) (qy p) (qz p).

(** Modelled from the spec: [Euler(rpy, 'XYZ').to_quaternion()] of
    morse.core.mathutils (not under src/): roll about x, then pitch about y,
    then yaw about z, as a quaternion. *)
Definition to_quaternion (rpy : Vector) : Quaternion :=
  let ci := cos (vx rpy * / 2) in let si := sin (vx rpy * / 2) in
  let cj := cos (vy rpy * / 2) in let sj := sin (vy rpy * / 2) in
  let ch := cos (vz rpy * / 2) in let sh := sin (vz rpy * / 2) in
  mkQuat (cj * (ci * ch) + sj * (si * sh))
         (cj * (si * ch) - sj * (ci * sh))
         (cj * (si * sh) + sj * (ci * ch))
         (cj * (ci * sh) - sj * (si * ch)).

(** Modelled from the spec: the constructors [Vector(seq)] and
    [Euler(seq, 'XYZ')] of morse.core.mathutils (not under src/) make a
    "position vector" and a "roll-pitch-yaw orientation" of a sequence of
    three numbers; of [None], which is no sequence, they raise [TypeError]. *)
Definition to_Vector (seq : option Vector) : result Vector :=
  match seq with
  | Some v => Ok v
  | None => Raise TypeError
  end.

Definition Euler (seq : option Vector) : result Vector :=
  match seq with
  | Some v => Ok v
  | None => Raise TypeError
  end.

End Mathutils.

Import Mathutils.

(** ** The parser's document model (urdf_parser_py.urdf) *)

(** [<origin xyz= rpy=>]: either attribute can be left out of the document,
    and is [None] then. *)
Record Pose := mkPose { p_xyz : option Vector; p_rpy : option Vector }.

Inductive Geometry :=
| Mesh (filename : string) (scale : option Vector)
| Box (size : Vector)
| Cylinder (radius length : R)
| Sphere (radius : R).

Definition RGBA : Type := (R * R * R * R)%type.

Record UMaterial := mkUMaterial {
  m_name : string;
  m_color : option RGBA;
  m_texture : option string
}.

Record Inertial := mkInertial { i_origin : option Pose }.

Record Collision := mkCollision {
  c_origin : option Pose;
  c_geometry : option Geometry
}.

Record Visual := mkVisual {
  v_origin : option Pose;
  v_geometry : option Geometry;
  v_material : option UMaterial
}.

Record ULink := mkULink {
  ul_name : string;
  ul_inertial : option Inertial;
  ul_visual : option Visual;
  ul_collision : option Collision
}.

(** ** URDFLink *)

Record URDFLink := mkURDFLink {
  l_name : string;
  l_inertial : option Inertial;
  l_visual : option Visual;
  l_collision : option Collision;
  l_xyz : Vector;
  l_rot : Quaternion
}.

(** [URDFLink._get_origin]: the position and the orientation the method
    leaves in [self.xyz] and [self.rot].  [Vector(xyz)] and [Euler(rpy, 'XYZ')]
    raise [TypeError] for an attribute the chosen origin does not have. *)
Definition _get_origin (inertial : option Inertial) (collision : option Collision)
    (visual : option Visual) : result (Vector * Quaternion) :=
  let xyz := Some vzero in
  let rpy := Some vzero in
  let '(xyz, rpy) :=
    match inertial ≫= i_origin with
    | Some o => (p_xyz o, p_rpy o)
    | None =>
      match collision ≫= c_origin with
      | Some o => (p_xyz o, p_rpy o)
      | None =>
        match visual ≫= v_origin with
        | Some o => (p_xyz o, p_rpy o)
        | None => (xyz, rpy)
        end
      end
    end in
  xyz ← to_Vector xyz;
  rpy ← Euler rpy;
  Ok (xyz, to_quaternion rpy).

(** [URDFLink.__init__] *)
Definition URDFLink_init (urdf_link : ULink) : result URDFLink :=
  '(xyz, rot) ← _get_origin (ul_inertial urdf_link) (ul_collision urdf_link)
                            (ul_visual urdf_link);
  Ok (mkURDFLink (ul_name urdf_link) (ul_inertial urdf_link) (ul_visual urdf_link)
                 (ul_collision urdf_link) xyz rot).

(** ** Joints of the parsed document *)

Record Limit := mkLimit { lower : R; upper : R }.

Record UJoint := mkUJoint {
  uj_name : string;
  uj_type : string;
  uj_parent : string;
  uj_child : string;
  uj_origin : option Pose;
  uj_axis : option Vector;
  uj_limit : option Limit
}.

(** The parsed document: [urdf.link_map], [urdf.joints], [urdf.materials]
    and the link [urdf.get_root()] answers. *)
Record Robot := mkRobot {
  link_map : gmap string ULink;
  joints : list UJoint;
  materials : list UMaterial;
  get_root : string
}.

(** ** Bones of the host armature *)

#[local] Unset Elimination Schemes.

(** An edit bone.  The three fields besides the name are assigned once, right
    after the bone is created, and never again: the record is the bone as it
    is from then on, and [eb_parent] is the parent's bone itself. *)
Inductive EditBone := mkEditBone {
  eb_name : string;
  eb_parent : option EditBone;
  head : Vector;
  tail : Vector
}.

(** ** URDFJoint *)

Definition FIXED : string := "fixed".
Definition PRISMATIC : string := "prismatic".
Definition REVOLUTE : string := "revolute".

Definition TYPES : list string := [FIXED; PRISMATIC; REVOLUTE].

Inductive URDFJoint := mkURDFJoint {
  j_name : string;
  j_type : string;
  j_xyz : Vector;
  j_rot : Quaternion;
  j_link : URDFLink;
  j_axis : option Vector;
  j_limit : option Limit;
  children : list URDFJoint;
  editbone : option EditBone;
  (* the pose bone is referred to by its key in [armature.pose.bones] *)
  posebone : option string
}.

#[local] Set Elimination Schemes.

Definition set_children (cs : list URDFJoint) (j : URDFJoint) : URDFJoint :=
  mkURDFJoint (j_name j) (j_type j) (j_xyz j) (j_rot j) (j_link j) (j_axis j)
              (j_limit j) cs (editbone j) (posebone j).

Definition set_editbone (b : option EditBone) (j : URDFJoint) : URDFJoint :=
  mkURDFJoint (j_name j) (j_type j) (j_xyz j) (j_rot j) (j_link j) (j_axis j)
              (j_limit j) (children j) b (posebone j).

Definition set_posebone (p : option string) (j : URDFJoint) : URDFJoint :=
  mkURDFJoint (j_name j) (j_type j) (j_xyz j) (j_rot j) (j_link j) (j_axis j)
              (j_limit j) (children j) (editbone j) p.

(** Truth value of a parsed 3-vector attribute: [None] is false, a sequence
    of three numbers is true. *)
Definition vector3_truth (v : option Vector) : bool :=
  match v with
  | Some _ => true
  | None => false
  end.

(** [URDFJoint.__init__].  A missing [rpy] is defaulted; a missing [xyz] is
    not, and [Vector(xyz)] raises [TypeError] for it. *)
Definition URDFJoint_init (urdf_joint : UJoint) (urdf_link : ULink) : result URDFJoint :=
  let xyz := Some vzero in
  let rpy := Some vzero in
  let '(xyz, rpy) :=
    match uj_origin urdf_joint with
    | Some o => (p_xyz o, if vector3_truth (p_rpy o) then p_rpy o else rpy)
    | None => (xyz, rpy)
    end in
  xyz ← to_Vector xyz;
  rpy ← Euler rpy;
  link ← URDFLink_init urdf_link;
  Ok (mkURDFJoint (uj_name urdf_joint) (uj_type urdf_joint) xyz (to_quaternion rpy)
                  link (uj_axis urdf_joint) (uj_limit urdf_joint) [] None None).

(** ** Building the tree: [URDF._walk_urdf] *)

(** [URDF._get_urdf_connections]: the joints whose parent is [link], in
    document order, each with its child link; [link_map[joint.child]] raises
    [KeyError] for a child that is not declared. *)
Fixpoint lookup_children (urdf : Robot) (js : list UJoint)
    : result (list (UJoint * ULink)) :=
  match js with
  | [] => Ok []
  | joint :: rest =>
    match link_map urdf !! uj_child joint with
    | None => Raise (KeyError (uj_child joint))
    | Some child_link =>
      conns ← lookup_children urdf rest; Ok ((joint, child_link) :: conns)
    end
  end.

Definition _get_urdf_connections (urdf : Robot) (link : ULink)
    : result (list (UJoint * ULink)) :=
  lookup_children urdf
    (filter (fun joint => uj_parent joint = ul_name link) (joints urdf)).

(** [URDF._walk_urdf].  [depth] bounds the nesting of the recursive calls, as
    the interpreter's recursion limit does.  [parent_bone.add_child] and the
    constructor build the same node, or raise alike, before the recursive
    call; [add_child] also appends the node to
    [parent_bone.children], which starts empty, so that the children of a
    bone are the bones the recursive call on its child link goes through:
    the list that call returns. *)
Fixpoint _walk_urdf (depth : nat) (urdf : Robot) (link : ULink)
    : result (list URDFJoint) :=
  match depth with
  | O => Raise RecursionError
  | S depth' =>
    conns ← _get_urdf_connections urdf link;
     (fix loop (conns : list (UJoint * ULink)) : result (list URDFJoint) :=
        match conns with
        | [] => Ok []
        | (joint, child_link) :: rest =>
          bone ← URDFJoint_init joint child_link;
          kids ← _walk_urdf depth' urdf child_link;
          let bone := set_children kids bone in
          bones ← loop rest;
          Ok (bone :: bones)
        end) conns
  end.

(** ** The host scene *)

(** A local transform, by its parts. *)
Record Matrix := mkMatrix {
  mat_loc : Vector;
  mat_rot : Quaternion;
  mat_scale : Vector
}.

(** [armature.data.bones[name]] *)
Record Bone := mkBone {
  matrix_local : Matrix;
  use_relative_parent : bool
}.

(** [armature.pose.bones[name]] *)
Record PoseBone := mkPoseBone {
  lock_location : bool * bool * bool;
  lock_rotation : bool * bool * bool;
  lock_scale : bool * bool * bool;
  lock_ik_x : bool;
  lock_ik_y : bool;
  lock_ik_z : bool;
  use_ik_limit_x : bool;
  use_ik_limit_y : bool;
  use_ik_limit_z : bool;
  ik_min_x : R;
  ik_max_x : R;
  ik_min_y : R;
  ik_max_y : R;
  ik_min_z : R;
  ik_max_z : R
}.

Record Armature := mkArmature {
  a_name : string;
  edit_bones : list EditBone;
  bones : gmap string Bone;
  pose_bones : gmap string PoseBone
}.

(** A material of the host store, [bpymorse.get_materials()]. *)
Record Material := mkMaterial {
  mat_name : string;
  (* [None]: left as the host created it *)
  diffuse_color : option (R * R * R)
}.

(** A scene object.  [o_materials] is [obj.data.materials], [None] for an
    object whose data carries no materials (an empty, a camera, a light). *)
Record Obj := mkObj {
  o_name : string;
  location : Vector;
  rotation_mode : string;
  rotation_quaternion : Quaternion;
  o_scale : Vector;
  dimensions : Vector;
  o_materials : option (list nat);
  o_parent : option string;
  parent_type : string;
  parent_bone : string
}.

(** An entry of the module's [MATERIALS] dictionary. *)
Record MatEntry := mkMatEntry {
  e_color : option RGBA;
  e_texture : option string
}.

(** Everything the module reads and writes outside its own objects.
    Scene objects and materials are referred to by their index in
    [w_objects] and [w_materials]; [w_armature] is the armature [build]
    creates, the [armature] argument of the methods.  [w_files] is what
    importing the mesh file at a path adds to the scene, [w_bone_matrix] the
    local transform the host gives the bone of an edit bone, [w_origin_point]
    the point the host moves the origin of an object to when it recentres it,
    and [w_urdf_files] what reading and parsing the robot description at a
    path gives. *)
Record World := mkWorld {
  w_armature : Armature;
  w_objects : list Obj;
  w_active : option nat;
  w_materials : list Material;
  MATERIALS : gmap string MatEntry;
  ROS_SHARE_ROOT : string;
  w_files : string -> list Obj;
  w_bone_matrix : EditBone -> Matrix;
  w_origin_point : Obj -> Vector;
  w_urdf_files : string -> result Robot;
  w_log : list string
}.

Definition M (A : Type) : Type := World -> result A * World.

Definition ret {A} (a : A) : M A := fun w => (Ok a, w).

Definition bind {A B} (c : M A) (k : A -> M B) : M B :=
  fun w => match c w with
           | (Ok a, w') => k a w'
           | (Raise e, w') => (Raise e, w')
           end.

Definition raise {A} (e : exn) : M A := fun w => (Raise e, w).

Definition get : M World := fun w => (Ok w, w).

Definition modify (f : World -> World) : M unit := fun w => (Ok tt, f w).

#[global] Instance M_bind : MBind M := fun A B k c => bind c k.
#[global] Instance M_ret : MRet M := @ret.

Definition set_armature (f : Armature -> Armature) (w : World) : World :=
  mkWorld (f (w_armature w)) (w_objects w) (w_active w) (w_materials w)
          (MATERIALS w) (ROS_SHARE_ROOT w) (w_files w) (w_bone_matrix w)
          (w_origin_point w) (w_urdf_files w) (w_log w).

Definition set_objects (f : list Obj -> list Obj) (w : World) : World :=
  mkWorld (w_armature w) (f (w_objects w)) (w_active w) (w_materials w)
          (MATERIALS w) (ROS_SHARE_ROOT w) (w_files w) (w_bone_matrix w)
          (w_origin_point w) (w_urdf_files w) (w_log w).

Definition set_active (a : option nat) (w : World) : World :=
  mkWorld (w_armature w) (w_objects w) a (w_materials w)
          (MATERIALS w) (ROS_SHARE_ROOT w) (w_files w) (w_bone_matrix w)
          (w_origin_point w) (w_urdf_files w) (w_log w).

Definition set_materials (f : list Material -> list Material) (w : World) : World :=
  mkWorld (w_armature w) (w_objects w) (w_active w) (f (w_materials w))
          (MATERIALS w) (ROS_SHARE_ROOT w) (w_files w) (w_bone_matrix w)
          (w_origin_point w) (w_urdf_files w) (w_log w).

Definition set_MATERIALS (f : gmap string MatEntry -> gmap string MatEntry)
    (w : World) : World :=
  mkWorld (w_armature w) (w_objects w) (w_active w) (w_materials w)
          (f (MATERIALS w)) (ROS_SHARE_ROOT w) (w_files w) (w_bone_matrix w)
          (w_origin_point w) (w_urdf_files w) (w_log w).

(** [print] *)
Definition print (msg : string) : M unit :=
  fun w => (Ok tt,
            mkWorld (w_armature w) (w_objects w) (w_active w) (w_materials w)
                    (MATERIALS w) (ROS_SHARE_ROOT w) (w_files w) (w_bone_matrix w)
          (w_origin_point w) (w_urdf_files w) (w_log w ++ [msg])).

(** [for x in xs: body x] *)
Fixpoint for_each {A} (xs : list A) (body : A -> M unit) : M unit :=
  match xs with
  | [] => ret tt
  | x :: rest => _ ← body x; for_each rest body
  end.

(** Assignments to the attributes of the object behind a handle. *)
Definition update_obj (v : nat) (f : Obj -> Obj) : M unit :=
  modify (set_objects (alter f v)).

Definition set_o_name (n : string) (o : Obj) : Obj :=
  mkObj n (location o) (rotation_mode o) (rotation_quaternion o) (o_scale o)
        (dimensions o) (o_materials o) (o_parent o) (parent_type o) (parent_bone o).

Definition set_location (l : Vector) (o : Obj) : Obj :=
  mkObj (o_name o) l (rotation_mode o) (rotation_quaternion o) (o_scale o)
        (dimensions o) (o_materials o) (o_parent o) (parent_type o) (parent_bone o).

Definition set_rotation_mode (m : string) (o : Obj) : Obj :=
  mkObj (o_name o) (location o) m (rotation_quaternion o) (o_scale o)
        (dimensions o) (o_materials o) (o_parent o) (parent_type o) (parent_bone o).

Definition set_rotation_quaternion (q : Quaternion) (o : Obj) : Obj :=
  mkObj (o_name o) (location o) (rotation_mode o) q (o_scale o)
        (dimensions o) (o_materials o) (o_parent o) (parent_type o) (parent_bone o).

Definition set_scale (s : Vector) (o : Obj) : Obj :=
  mkObj (o_name o) (location o) (rotation_mode o) (rotation_quaternion o) s
        (dimensions o) (o_materials o) (o_parent o) (parent_type o) (parent_bone o).

Definition set_dimensions (d : Vector) (o : Obj) : Obj :=
  mkObj (o_name o) (location o) (rotation_mode o) (rotation_quaternion o) (o_scale o)
        d (o_materials o) (o_parent o) (parent_type o) (parent_bone o).

Definition set_o_materials (ms : option (list nat)) (o : Obj) : Obj :=
  mkObj (o_name o) (location o) (rotation_mode o) (rotation_quaternion o) (o_scale o)
        (dimensions o) ms (o_parent o) (parent_type o) (parent_bone o).

Definition set_parent (p : option string) (o : Obj) : Obj :=
  mkObj (o_name o) (location o) (rotation_mode o) (rotation_quaternion o) (o_scale o)
        (dimensions o) (o_materials o) p (parent_type o) (parent_bone o).

Definition set_parent_type (t : string) (o : Obj) : Obj :=
  mkObj (o_name o) (location o) (rotation_mode o) (rotation_quaternion o) (o_scale o)
        (dimensions o) (o_materials o) (o_parent o) t (parent_bone o).

Definition set_parent_bone (b : string) (o : Obj) : Obj :=
  mkObj (o_name o) (location o) (rotation_mode o) (rotation_quaternion o) (o_scale o)
        (dimensions o) (o_materials o) (o_parent o) (parent_type o) b.

(** [v.matrix_local = m]: the object takes the transform's parts. *)
Definition set_matrix_local (m : Matrix) (o : Obj) : Obj :=
  set_scale (mat_scale m) (set_rotation_quaternion (mat_rot m) (set_location (mat_loc m) o)).

(** Assignments to the attributes of a pose bone. *)
Definition set_lock_location (x : bool * bool * bool) (p : PoseBone) : PoseBone :=
  mkPoseBone x (lock_rotation p) (lock_scale p) (lock_ik_x p) (lock_ik_y p) (lock_ik_z p) (use_ik_limit_x p) (use_ik_limit_y p) (use_ik_limit_z p) (ik_min_x p) (ik_max_x p) (ik_min_y p) (ik_max_y p) (ik_min_z p) (ik_max_z p).

Definition set_lock_rotation (x : bool * bool * bool) (p : PoseBone) : PoseBone :=
  mkPoseBone (lock_location p) x (lock_scale p) (lock_ik_x p) (lock_ik_y p) (lock_ik_z p) (use_ik_limit_x p) (use_ik_limit_y p) (use_ik_limit_z p) (ik_min_x p) (ik_max_x p) (ik_min_y p) (ik_max_y p) (ik_min_z p) (ik_max_z p).

Definition set_lock_scale (x : bool * bool * bool) (p : PoseBone) : PoseBone :=
  mkPoseBone (lock_location p) (lock_rotation p) x (lock_ik_x p) (lock_ik_y p) (lock_ik_z p) (use_ik_limit_x p) (use_ik_limit_y p) (use_ik_limit_z p) (ik_min_x p) (ik_max_x p) (ik_min_y p) (ik_max_y p) (ik_min_z p) (ik_max_z p).

Definition set_lock_ik_x (x : bool) (p : PoseBone) : PoseBone :=
  mkPoseBone (lock_location p) (lock_rotation p) (lock_scale p) x (lock_ik_y p) (lock_ik_z p) (use_ik_limit_x p) (use_ik_limit_y p) (use_ik_limit_z p) (ik_min_x p) (ik_max_x p) (ik_min_y p) (ik_max_y p) (ik_min_z p) (ik_max_z p).

Definition set_lock_ik_y (x : bool) (p : PoseBone) : PoseBone :=
  mkPoseBone (lock_location p) (lock_rotation p) (lock_scale p) (lock_ik_x p) x (lock_ik_z p) (use_ik_limit_x p) (use_ik_limit_y p) (use_ik_limit_z p) (ik_min_x p) (ik_max_x p) (ik_min_y p) (ik_max_y p) (ik_min_z p) (ik_max_z p).

Definition set_lock_ik_z (x : bool) (p : PoseBone) : PoseBone :=
  mkPoseBone (lock_location p) (lock_rotation p) (lock_scale p) (lock_ik_x p) (lock_ik_y p) x (use_ik_limit_x p) (use_ik_limit_y p) (use_ik_limit_z p) (ik_min_x p) (ik_max_x p) (ik_min_y p) (ik_max_y p) (ik_min_z p) (ik_max_z p).

Definition set_use_ik_limit_x (x : bool) (p : PoseBone) : PoseBone :=
  mkPoseBone (lock_location p) (lock_rotation p) (lock_scale p) (lock_ik_x p) (lock_ik_y p) (lock_ik_z p) x (use_ik_limit_y p) (use_ik_limit_z p) (ik_min_x p) (ik_max_x p) (ik_min_y p) (ik_max_y p) (ik_min_z p) (ik_max_z p).

Definition set_use_ik_limit_y (x : bool) (p : PoseBone) : PoseBone :=
  mkPoseBone (lock_location p) (lock_rotation p) (lock_scale p) (lock_ik_x p) (lock_ik_y p) (lock_ik_z p) (use_ik_limit_x p) x (use_ik_limit_z p) (ik_min_x p) (ik_max_x p) (ik_min_y p) (ik_max_y p) (ik_min_z p) (ik_max_z p).

Definition set_use_ik_limit_z (x : bool) (p : PoseBone) : PoseBone :=
  mkPoseBone (lock_location p) (lock_rotation p) (lock_scale p) (lock_ik_x p) (lock_ik_y p) (lock_ik_z p) (use_ik_limit_x p) (use_ik_limit_y p) x (ik_min_x p) (ik_max_x p) (ik_min_y p) (ik_max_y p) (ik_min_z p) (ik_max_z p).

Definition set_ik_min_x (x : R) (p : PoseBone) : PoseBone :=
  mkPoseBone (lock_location p) (lock_rotation p) (lock_scale p) (lock_ik_x p) (lock_ik_y p) (lock_ik_z p) (use_ik_limit_x p) (use_ik_limit_y p) (use_ik_limit_z p) x (ik_max_x p) (ik_min_y p) (ik_max_y p) (ik_min_z p) (ik_max_z p).

Definition set_ik_max_x (x : R) (p : PoseBone) : PoseBone :=
  mkPoseBone (lock_location p) (lock_rotation p) (lock_scale p) (lock_ik_x p) (lock_ik_y p) (lock_ik_z p) (use_ik_limit_x p) (use_ik_limit_y p) (use_ik_limit_z p) (ik_min_x p) x (ik_min_y p) (ik_max_y p) (ik_min_z p) (ik_max_z p).

Definition set_ik_min_y (x : R) (p : PoseBone) : PoseBone :=
  mkPoseBone (lock_location p) (lock_rotation p) (lock_scale p) (lock_ik_x p) (lock_ik_y p) (lock_ik_z p) (use_ik_limit_x p) (use_ik_limit_y p) (use_ik_limit_z p) (ik_min_x p) (ik_max_x p) x (ik_max_y p) (ik_min_z p) (ik_max_z p).

Definition set_ik_max_y (x : R) (p : PoseBone) : PoseBone :=
  mkPoseBone (lock_location p) (lock_rotation p) (lock_scale p) (lock_ik_x p) (lock_ik_y p) (lock_ik_z p) (use_ik_limit_x p) (use_ik_limit_y p) (use_ik_limit_z p) (ik_min_x p) (ik_max_x p) (ik_min_y p) x (ik_min_z p) (ik_max_z p).

Definition set_ik_min_z (x : R) (p : PoseBone) : PoseBone :=
  mkPoseBone (lock_location p) (lock_rotation p) (lock_scale p) (lock_ik_x p) (lock_ik_y p) (lock_ik_z p) (use_ik_limit_x p) (use_ik_limit_y p) (use_ik_limit_z p) (ik_min_x p) (ik_max_x p) (ik_min_y p) (ik_max_y p) x (ik_max_z p).

Definition set_ik_max_z (x : R) (p : PoseBone) : PoseBone :=
  mkPoseBone (lock_location p) (lock_rotation p) (lock_scale p) (lock_ik_x p) (lock_ik_y p) (lock_ik_z p) (use_ik_limit_x p) (use_ik_limit_y p) (use_ik_limit_z p) (ik_min_x p) (ik_max_x p) (ik_min_y p) (ik_max_y p) (ik_min_z p) x.
Definition modify_armature (f : Armature -> Armature) : M unit :=
  modify (set_armature f).

Definition set_edit_bones (f : list EditBone -> list EditBone) (a : Armature) : Armature :=
  mkArmature (a_name a) (f (edit_bones a)) (bones a) (pose_bones a).

Definition set_bones (f : gmap string Bone -> gmap string Bone) (a : Armature) : Armature :=
  mkArmature (a_name a) (edit_bones a) (f (bones a)) (pose_bones a).

Definition set_pose_bones (f : gmap string PoseBone -> gmap string PoseBone)
    (a : Armature) : Armature :=
  mkArmature (a_name a) (edit_bones a) (bones a) (f (pose_bones a)).

Definition update_posebone (key : string) (f : PoseBone -> PoseBone) : M unit :=
  modify_armature (set_pose_bones (alter f key)).

(** ** Host primitives (morse.builder.bpymorse) *)

(** Modelled from the spec: [armature.data.edit_bones.new(name)] of the host
    (not under src/), "create a named bone": a bone with no parent yet, at
    the origin, is added to the armature; the result is its place in
    [edit_bones]. *)
Definition edit_bones_new (name : string) : M nat :=
  fun w =>
    (Ok (length (edit_bones (w_armature w))),
     set_armature (set_edit_bones (fun bs => bs ++ [mkEditBone name None vzero vzero])) w).

(** The bone behind a handle after the assignments to its attributes. *)
Definition edit_bones_store (i : nat) (b : EditBone) : M unit :=
  modify_armature (set_edit_bones (fun bs => <[i := b]> bs)).

Definition unit_scale : Vector := mkVector 1 1 1.

Definition new_object (name : string) (dims : Vector) (mats : option (list nat)) : Obj :=
  mkObj name vzero "XYZ" qidentity unit_scale dims mats None "OBJECT" EmptyString.

(** Modelled from the spec: the host's primitive creators (bpymorse, not under
    src/), "create primitive meshes (cube/cylinder/uv-sphere) and empties":
    the new object is added to the scene and becomes the active, selected
    one. *)
Definition add_to_scene (o : Obj) : M unit :=
  fun w => (Ok tt, set_active (Some (length (w_objects w)))
                     (set_objects (fun os => os ++ [o]) w)).

Definition add_mesh_cube : M unit :=
  add_to_scene (new_object "Cube" (mkVector 2 2 2) (Some [])).

Definition add_mesh_cylinder (radius depth : R) : M unit :=
  add_to_scene (new_object "Cylinder" (mkVector (radius * 2) (radius * 2) depth) (Some [])).

Definition add_mesh_uv_sphere (size : R) : M unit :=
  add_to_scene (new_object "Sphere" (mkVector (size * 2) (size * 2) (size * 2)) (Some [])).

Definition add_empty : M unit :=
  add_to_scene (new_object "Empty" vzero None).

(** Modelled from the spec: [bpymorse.active_object()] and
    [bpymorse.get_first_selected_object()] (not under src/); with no such
    object the answer is [None], and the assignment to its name that follows
    in the callers raises [AttributeError]. *)
Definition active_object : M nat :=
  fun w => match w_active w with
           | Some v => (Ok v, w)
           | None => (Raise AttributeError, w)
           end.

Definition get_first_selected_object : M nat := active_object.

(** Modelled from the spec: [bpymorse.collada_import] and
    [bpymorse.stl_import] (not under src/), "import mesh files by format":
    the objects of the file are added to the scene. *)
Definition import_file (filepath : string) : M unit :=
  fun w => (Ok tt, set_objects (fun os => os ++ w_files w filepath) w).

Definition collada_import := import_file.
Definition stl_import := import_file.

(** Modelled from the spec: [bpymorse.origin_set(type='ORIGIN_CURSOR')] (not
    under src/), "every produced object then has its origin recentered to its
    own geometric reference point (host-level operation)": the call made for
    the object [v] of the loop moves the origin of [v], which is its
    [location], to the point the host has for it, [w_origin_point]; the other
    attributes kept in [Obj] stay. *)
Definition origin_set (v : nat) : M unit :=
  fun w =>
    (Ok tt, set_objects (alter (fun o => set_location (w_origin_point w o) o) v) w).

(** Modelled from the spec: [bpymorse.get_material(name)] (not under src/),
    "create/fetch a named material": the handle of the material of that name
    in the host store, [None] when there is none. *)
Fixpoint find_material (name : string) (i : nat) (ms : list Material) : option nat :=
  match ms with
  | [] => None
  | m :: rest => if String.eqb (mat_name m) name then Some i
                 else find_material name (S i) rest
  end.

Definition get_material (name : string) : M (option nat) :=
  fun w => (Ok (find_material name 0 (w_materials w)), w).

(** Modelled from the spec: [bpymorse.get_materials().new(name=...)] (not
    under src/): a new material is added to the host store. *)
Definition materials_new (name : string) : M nat :=
  fun w => (Ok (length (w_materials w)),
            set_materials (fun ms => ms ++ [mkMaterial name None]) w).

Definition set_diffuse_color (c : R * R * R) (m : Material) : Material :=
  mkMaterial (mat_name m) (Some c).

(** Modelled from the spec: [bpymorse.mode_set(mode='OBJECT')] (not under
    src/): leaving the edit mode, the armature has a bone and a pose bone,
    with nothing locked, for each edit bone.  A name met twice stands for the
    first bone of that name. *)
Definition default_posebone : PoseBone :=
  mkPoseBone (false, false, false) (false, false, false) (false, false, false)
             false false false false false false 0 0 0 0 0 0.

Definition mode_set_OBJECT : M unit :=
  fun w =>
    (Ok tt,
     set_armature (fun a =>
       mkArmature (a_name a) (edit_bones a)
         (list_to_map (map (fun b => (eb_name b, mkBone (w_bone_matrix w b) false))
                           (edit_bones a)))
         (list_to_map (map (fun b => (eb_name b, default_posebone)) (edit_bones a)))) w).

(** [bpymorse.mode_set(mode='EDIT')]: nothing of the model changes. *)
Definition mode_set_EDIT : M unit := ret tt.

(** ** Strings *)

(** [old in s] *)
Definition contains (old s : string) : bool :=
  match String.index 0 old s with Some _ => true | None => false end.

(** [s.replace(old, new)], for a non-empty [old]: [skip] counts the
    characters of a replaced occurrence still to pass over. *)
Fixpoint replace_from (old new : string) (skip : nat) (s : string) : string :=
  match s with
  | EmptyString => EmptyString
  | String c s' =>
    match skip with
    | S k => replace_from old new k s'
    | O => if String.prefix old s
           then String.append new (replace_from old new (String.length old - 1) s')
           else String c (replace_from old new 0 s')
    end
  end.

Definition replace (old new s : string) : string := replace_from old new 0 s.

(** ** Pass 1: [URDFJoint.build_editmode] *)

Definition EPSILON : R := 0.00001.

Definition set_tail (t : Vector) (b : EditBone) : EditBone :=
  mkEditBone (eb_name b) (eb_parent b) (head b) t.

(** [URDFJoint.build_editmode].  With a [parent] whose [editbone] is still
    [None], reading [parent.editbone.head] raises [AttributeError]. *)
Fixpoint build_editmode (self : URDFJoint) (parent : option URDFJoint) : M URDFJoint :=
  i ← edit_bones_new (j_name self);
  b ← match parent with
      | Some p =>
        match editbone p with
        | Some pb =>
          mret (mkEditBone (j_name self) (Some pb)
                           (vadd (rotate (j_rot self) (j_xyz self)) (head pb)) vzero)
        | None => raise AttributeError
        end
      | None =>
        mret (mkEditBone (j_name self) None (rotate (j_rot self) (j_xyz self)) vzero)
      end;
  let b := set_tail (vadd (rotate (j_rot self) (mkVector 0 0 EPSILON)) (head b)) b in
  _ ← edit_bones_store i b;
  let self := set_editbone (Some b) self in
  kids ← (fix loop (cs : list URDFJoint) : M (list URDFJoint) :=
            match cs with
            | [] => mret []
            | child :: rest =>
              child' ← build_editmode child (Some self);
              rest' ← loop rest;
              mret (child' :: rest')
            end) (children self);
  mret (set_children kids self).

(** ** Pass 2 *)

(** Truth value of a float: it is not zero. *)
Definition float_truth (x : R) : bool :=
  if Req_dec_T x 0 then false else true.

(** [URDFJoint.configure_joint]; the message leaves the axis out. *)
Definition configure_joint (self : URDFJoint) (posebone : string) : M unit :=
  match j_axis self with
  | None => mret tt
  | Some axis =>
    _ ← print (String.append "Joint axis for <"
                (String.append (j_name self)
                  (String.append "> (" (String.append (j_type self) ")"))));
    if float_truth (vx axis) then
      _ ← update_posebone posebone (set_lock_ik_x false);
      _ ← update_posebone posebone (set_use_ik_limit_x true);
      match j_limit self with
      | Some limit =>
        _ ← update_posebone posebone (set_ik_max_x (upper limit));
        update_posebone posebone (set_ik_min_x (lower limit))
      | None => mret tt
      end
    else if float_truth (vy axis) then
      _ ← update_posebone posebone (set_lock_ik_y false);
      _ ← update_posebone posebone (set_use_ik_limit_y true);
      match j_limit self with
      | Some limit =>
        _ ← update_posebone posebone (set_ik_max_y (upper limit));
        update_posebone posebone (set_ik_min_y (lower limit))
      | None => mret tt
      end
    else if float_truth (vz axis) then
      _ ← update_posebone posebone (set_lock_ik_z false);
      _ ← update_posebone posebone (set_use_ik_limit_z true);
      match j_limit self with
      | Some limit =>
        _ ← update_posebone posebone (set_ik_max_z (upper limit));
        update_posebone posebone (set_ik_min_z (lower limit))
      | None => mret tt
      end
    else mret tt
  end.

(** [URDFJoint.rescale_object] *)
Definition rescale_object (geometry : option Geometry) (obj : nat) : M unit :=
  match geometry with
  | Some (Mesh _ (Some scale)) =>
    update_obj obj (fun o =>
      set_scale (mkVector (vx (o_scale o) * vx scale) (vy (o_scale o) * vy scale)
                          (vz (o_scale o) * vz scale)) o)
  | Some (Mesh _ None) => mret tt
  | Some (Box size) => update_obj obj (set_dimensions size)
  | Some (Cylinder radius length) =>
    let diameter := (radius * 2)%R in
    update_obj obj (set_dimensions (mkVector diameter diameter length))
  | Some (Sphere radius) =>
    let diameter := (radius * 2)%R in
    update_obj obj (set_dimensions (mkVector diameter diameter diameter))
  | None => mret tt
  end.

(** What [URDFJoint.add_material] settles on before it touches the host
    store: the colour and texture to use, or [None] when it has returned. *)
Definition resolve_material (material : UMaterial)
    : M (option (option RGBA * option string)) :=
  match m_color material, m_texture material with
  | None, None =>
    (* global material *)
    w ← get;
    match MATERIALS w !! m_name material with
    | None =>
      _ ← print (String.append "Global material not found: " (m_name material));
      mret None
    | Some e => mret (Some (e_color e, e_texture e))
    end
  | color, texture =>
    (* local material *)
    mret (Some (color, texture))
  end.

(** [URDFJoint.add_material].  The message for a material without a name
    reads [self.link.material], an attribute [URDFLink] does not have:
    [AttributeError].  In the [try] block, [obj.data.materials] of an object
    that carries no materials raises the [AttributeError] the block catches;
    [rgba[0]] with [rgba] still [None] raises [TypeError], which it does
    not. *)
Definition URDFJoint_add_material (self : URDFJoint) (obj : nat) : M unit :=
  match l_visual (j_link self) ≫= v_material with
  | None => mret tt
  | Some material =>
    if String.eqb (m_name material) EmptyString then raise AttributeError
    else
      r ← resolve_material material;
      match r with
      | None => mret tt
      | Some (rgba, texture) =>
        found ← get_material (m_name material);
        mat ← match found with
              | Some mat => mret mat
              | None => materials_new (m_name material)
              end;
        w ← get;
        match w_objects w !! obj ≫= o_materials with
        | None => mret tt
        | Some ms =>
          _ ← update_obj obj (set_o_materials (Some (ms ++ [mat])));
          match rgba with
          | None => raise TypeError
          | Some (r, g, b, _) =>
            modify (set_materials (alter (set_diffuse_color (r, g, b)) mat))
          end
        end
      end
  end.

(** [[obj for obj in bpymorse.get_objects() if obj.name not in names]], as
    handles; [i] is the handle of the first object of [os]. *)
Fixpoint objects_not_named (names : list string) (i : nat) (os : list Obj) : list nat :=
  match os with
  | [] => []
  | obj :: rest =>
    if bool_decide (o_name obj ∈ names) then objects_not_named names (S i) rest
    else i :: objects_not_named names (S i) rest
  end.

(** [create_objects_by_link] *)
Definition create_objects_by_link (link : URDFLink) : M (list nat) :=
  visuals ←
    match l_visual link ≫= v_geometry with
    | Some geometry =>
      match geometry with
      | Mesh filename scale =>
        w ← get;
        let path := replace "package:/" (ROS_SHARE_ROOT w) filename in
        let objects_names := map o_name (w_objects w) in
        visuals ←
          (if contains ".dae" filename then
             _ ← collada_import path;
             w' ← get;
             mret (objects_not_named objects_names 0 (w_objects w'))
           else if contains ".stl" filename then
             _ ← stl_import path;
             w' ← get;
             mret (objects_not_named objects_names 0 (w_objects w'))
           else mret []);
        _ ← match scale with
            | Some scale =>
              for_each visuals (fun v =>
                update_obj v (fun o =>
                  set_scale (mkVector (vx (o_scale o) * vx scale)
                                      (vy (o_scale o) * vy scale)
                                      (vz (o_scale o) * vz scale)) o))
            | None => mret tt
            end;
        mret visuals
      | Box size =>
        _ ← add_mesh_cube;
        ob ← active_object;
        _ ← update_obj ob (set_o_name (l_name link));
        _ ← update_obj ob (set_dimensions size);
        mret [ob]
      | Cylinder radius length =>
        _ ← add_mesh_cylinder radius length;
        ob ← active_object;
        _ ← update_obj ob (set_o_name (l_name link));
        mret [ob]
      | Sphere radius =>
        _ ← add_mesh_uv_sphere radius;
        ob ← active_object;
        _ ← update_obj ob (set_o_name (l_name link));
        mret [ob]
      end
    | None =>
      _ ← add_empty;
      empty ← get_first_selected_object;
      _ ← update_obj empty (set_o_name (l_name link));
      _ ← update_obj empty (set_scale (mkVector 0.01 0.01 0.01));
      mret [empty]
    end;
  _ ← for_each visuals (fun v =>
        (* set link origin and rotation *)
        _ ← update_obj v (set_location (l_xyz link));
        _ ← update_obj v (set_rotation_mode "QUATERNION");
        _ ← update_obj v (set_rotation_quaternion (l_rot link));
        origin_set v);
  mret visuals.

(** [armature.data.bones[name]] *)
Definition get_bone (name : string) : M Bone :=
  fun w => match bones (w_armature w) !! name with
           | Some b => (Ok b, w)
           | None => (Raise (KeyError name), w)
           end.

Definition set_use_relative_parent (x : bool) (b : Bone) : Bone :=
  mkBone (matrix_local b) x.

(** [URDFJoint.add_link_frame].  A [Vector] and a [Quaternion] are sequences
    of three and four numbers: [xyz] and [rot] are true when they are given. *)
Definition add_link_frame (self : URDFJoint) (joint : option URDFJoint)
    (xyz : option Vector) (rot : option Quaternion) : M unit :=
  match l_visual (j_link self) with
  | None => mret tt
  | Some visual =>
    let joint := match joint with Some j => j | None => self end in
    visuals ← create_objects_by_link (j_link self);
    for_each visuals (fun v =>
      bone ← get_bone (j_name joint);
      _ ← update_obj v (set_matrix_local (matrix_local bone));
      _ ← match xyz, rot with
          | Some xyz, Some rot =>
            update_obj v (fun o => set_location (vadd (location o) (rotate rot xyz)) o)
          | Some xyz, None =>
            update_obj v (fun o => set_location (vadd (location o) xyz) o)
          | None, _ => mret tt
          end;
      (* reset rotation *)
      _ ← update_obj v (set_rotation_quaternion (l_rot (j_link self)));
      _ ← rescale_object (v_geometry visual) v;
      _ ← URDFJoint_add_material self v;
      (* parent the visuals to the armature *)
      _ ← get_bone (j_name joint);
      _ ← modify_armature (set_bones (alter (set_use_relative_parent true) (j_name joint)));
      w ← get;
      _ ← update_obj v (set_parent (Some (a_name (w_armature w))));
      _ ← update_obj v (set_parent_bone (j_name joint));
      update_obj v (set_parent_type "BONE"))
  end.

Definition is_empty {A} (l : list A) : bool :=
  match l with [] => true | _ => false end.

(** [URDFJoint.build_objectmode] *)
Fixpoint build_objectmode (self : URDFJoint) (parent : option URDFJoint) : M URDFJoint :=
  if is_empty (children self) && String.eqb (j_type self) FIXED then
    match parent with
    | None => mret self
    | Some parent =>
      _ ← add_link_frame self (Some parent) (Some (j_xyz self)) (Some (j_rot self));
      mret self
    end
  else
    w ← get;
    match pose_bones (w_armature w) !! j_name self with
    | None =>
      _ ← print (String.append "Error: bone "
                  (String.append (j_name self) " not yet added to the armature"));
      mret self
    | Some _ =>
      let posebone := j_name self in
      let self := set_posebone (Some posebone) self in
      (* Prevent moving or rotating bones that are not end-effectors *)
      _ ← (if is_empty (children self) then mret tt
           else
             _ ← update_posebone posebone (set_lock_location (true, true, true));
             _ ← update_posebone posebone (set_lock_rotation (true, true, true));
             update_posebone posebone (set_lock_scale (true, true, true)));
      (* initially, lock the IK *)
      _ ← update_posebone posebone (set_lock_ik_x true);
      _ ← update_posebone posebone (set_lock_ik_y true);
      _ ← update_posebone posebone (set_lock_ik_z true);
      _ ← configure_joint self posebone;
      _ ← add_link_frame self None None None;
      kids ← (fix loop (cs : list URDFJoint) : M (list URDFJoint) :=
                match cs with
                | [] => mret []
                | child :: rest =>
                  child' ← build_objectmode child (Some self);
                  rest' ← loop rest;
                  mret (child' :: rest')
                end) (children self);
      mret (set_children kids self)
    end.

(** ** The material registry: module-level [add_material] *)

Definition set_e_color (c : option RGBA) (e : MatEntry) : MatEntry :=
  mkMatEntry c (e_texture e).

Definition set_e_texture (t : option string) (e : MatEntry) : MatEntry :=
  mkMatEntry (e_color e) t.

(** [add_material], on the dictionary [MATERIALS] it updates. *)
Definition add_material (urdf_material : UMaterial)
    (MATERIALS : gmap string MatEntry) : gmap string MatEntry :=
  match MATERIALS !! m_name urdf_material with
  | Some _ => MATERIALS
  | None =>
    let MATERIALS := <[m_name urdf_material := mkMatEntry None None]> MATERIALS in
    let MATERIALS :=
      match m_color urdf_material with
      | Some rgba => alter (set_e_color (Some rgba)) (m_name urdf_material) MATERIALS
      | None => MATERIALS
      end in
    match m_texture urdf_material with
    | Some filename =>
      if String.eqb filename EmptyString then MATERIALS
      else alter (set_e_texture (Some filename)) (m_name urdf_material) MATERIALS
    | None => MATERIALS
    end
  end.

(** ** URDF *)

Record URDF := mkURDF {
  u_name : string;
  urdf_file : string;
  urdf : Robot;
  base_link : URDFLink;
  roots : list URDFJoint
}.

(** [for root in self.roots: root.build_...(ob)] *)
Fixpoint for_roots (pass : URDFJoint -> option URDFJoint -> M URDFJoint)
    (rs : list URDFJoint) : M (list URDFJoint) :=
  match rs with
  | [] => mret []
  | root :: rest =>
    root' ← pass root None;
    rest' ← for_roots pass rest;
    mret (root' :: rest')
  end.

(** Modelled from the spec: [bpymorse.add_object(type='ARMATURE', ...)] (not
    under src/), "create a skeleton container": a new armature without
    bones, which [build] then names.  The display flags [build] sets on it
    ([show_x_ray], [show_axes]) and the name of its data are not kept. *)
Definition add_armature (name : string) : M unit :=
  modify_armature (fun _ => mkArmature name [] ∅ ∅).

(** The step of [URDF.build] between the two passes: creating base-link
    visual, if exist. *)
Definition build_base_link (self : URDF) : M unit :=
  match l_visual (base_link self) with
  | Some _ =>
    visuals ← create_objects_by_link (base_link self);
    for_each visuals (fun v =>
      w ← get;
      _ ← update_obj v (set_parent (Some (a_name (w_armature w))));
      update_obj v (set_parent_type "ARMATURE"))
  | None => mret tt
  end.

(** [URDF.build] *)
Definition build (self : URDF) : M URDF :=
  (* Create armature and object *)
  _ ← add_armature (u_name self);
  _ ← mode_set_EDIT;
  roots1 ← for_roots build_editmode (roots self);
  _ ← build_base_link self;
  _ ← mode_set_OBJECT;
  roots2 ← for_roots build_objectmode roots1;
  mret (mkURDF (u_name self) (urdf_file self) (urdf self) (base_link self) roots2).

(** [link_map[name]] *)
Definition get_link (urdf : Robot) (name : string) : M ULink :=
  match link_map urdf !! name with
  | Some l => mret l
  | None => raise (KeyError name)
  end.

Definition lift {A} (r : result A) : M A := fun w => (r, w).

(** Modelled from the spec: [open(urdf, 'r').read()] and
    [URDFparser.from_xml_string] (the file system and the "third-party URDF
    parser", not under src/): the document parsed from the file at a path, or
    the exception raised on the way. *)
Definition from_xml_file (path : string) : M Robot :=
  fun w => (w_urdf_files w path, w).

Section RobotImport.

(** [ComponentCreator.__init__(self, name, category)] of
    morse.builder.creator is not under src/ and the specification does not
    describe it: it is a step of the host's, whatever it does. *)
Variable ComponentCreator_init : string -> string -> M unit.

(** [URDF.__init__]; [depth] is the recursion limit. *)
Definition URDF_init (depth : nat) (name : string) (urdf : string) : M URDF :=
  _ ← ComponentCreator_init name "robots";
  let urdf_file := urdf in
  urdf ← from_xml_file urdf;
  _ ← modify (set_MATERIALS (fun ms => foldl (fun ms mat => add_material mat ms) ms
                                         (materials urdf)));
  root ← get_link urdf (get_root urdf);
  base_link ← lift (URDFLink_init root);
  root ← get_link urdf (get_root urdf);
  roots ← lift (_walk_urdf depth urdf root);
  build (mkURDF name urdf_file urdf base_link roots).

End RobotImport.

(** * Notions of the specification *)

(** The record [URDFLink.__init__] makes of a link for the position [xyz] and
    the angles [rpy], and the node [URDFJoint.__init__] makes of a joint for
    them and the record of its child link. *)
Definition link_record (urdf_link : ULink) (xyz rpy : Vector) : URDFLink :=
  mkURDFLink (ul_name urdf_link) (ul_inertial urdf_link) (ul_visual urdf_link)
             (ul_collision urdf_link) xyz (to_quaternion rpy).

Definition joint_node (urdf_joint : UJoint) (xyz rpy : Vector) (link : URDFLink)
    : URDFJoint :=
  mkURDFJoint (uj_name urdf_joint) (uj_type urdf_joint) xyz (to_quaternion rpy) link
              (uj_axis urdf_joint) (uj_limit urdf_joint) [] None None.

(** A link whose only origin, that of its visual, gives a position and no
    angles ([<origin xyz="0 0 1"/>]), and a joint with the same origin. *)
Definition link_without_rpy : ULink :=
  mkULink "arm" None
          (Some (mkVisual (Some (mkPose (Some (mkVector 0 0 1)) None)) None None)) None.

Definition joint_without_rpy : UJoint :=
  mkUJoint "shoulder" REVOLUTE "base" "arm"
           (Some (mkPose (Some (mkVector 0 0 1)) None)) None None.

(** The first origin there is among those of the inertial, collision and
    visual elements, in that order. *)
Definition origin_by_precedence (inertial : option Inertial)
    (collision : option Collision) (visual : option Visual) : option Pose :=
  match inertial ≫= i_origin, collision ≫= c_origin, visual ≫= v_origin with
  | Some o, _, _ => Some o
  | None, Some o, _ => Some o
  | None, None, Some o => Some o
  | None, None, None => None
  end.


(** [annotated P parent n n']: [n'] is the tree [n] after pass 1, every node
    with its bone, and [P parent_bone node bone] holds of every node, its
    bone and the bone of its parent ([None] for a root). *)
Inductive annotated (P : option EditBone -> URDFJoint -> EditBone -> Prop)
    : option EditBone -> URDFJoint -> URDFJoint -> Prop :=
| annotated_node parent n n' b :
    editbone n' = Some b ->
    j_name n' = j_name n ->
    j_xyz n' = j_xyz n ->
    j_rot n' = j_rot n ->
    P parent n b ->
    Forall2 (annotated P (Some b)) (children n) (children n') ->
    annotated P parent n n'.

(** The bones of an annotated tree, a node before its children. *)
Fixpoint bones_of (n : URDFJoint) : list EditBone :=
  match editbone n with Some b => [b] | None => [] end ++
  (fix go (cs : list URDFJoint) : list EditBone :=
     match cs with
     | [] => []
     | c :: rest => bones_of c ++ go rest
     end) (children n).

Definition bones_of_list : list URDFJoint -> list EditBone :=
  fix go (cs : list URDFJoint) : list EditBone :=
    match cs with
    | [] => []
    | c :: rest => bones_of c ++ go rest
    end.

(** The bone pass 1 makes for a node, given the bone of its parent. *)
Definition bone_of_node (parent : option EditBone) (n : URDFJoint) (b : EditBone) : Prop :=
  b = mkEditBone (j_name n) parent
        (match parent with
         | Some pb => vadd (rotate (j_rot n) (j_xyz n)) (head pb)
         | None => rotate (j_rot n) (j_xyz n)
         end)
        (vadd (rotate (j_rot n) (mkVector 0 0 EPSILON))
              (match parent with
               | Some pb => vadd (rotate (j_rot n) (j_xyz n)) (head pb)
               | None => rotate (j_rot n) (j_xyz n)
               end)).

(** The loop of [build_editmode] over the children of a node. *)
Definition build_editmode_children (self : URDFJoint)
    : list URDFJoint -> M (list URDFJoint) :=
  fix loop (cs : list URDFJoint) : M (list URDFJoint) :=
    match cs with
    | [] => mret []
    | child :: rest =>
      child' ← build_editmode child (Some self);
      rest' ← loop rest;
      mret (child' :: rest')
    end.

(** The head of a bone as pass 1 places it: the node's own orientation
    applied to its position, from the head of the parent's bone. *)
Definition head_placed (parent : option EditBone) (n : URDFJoint) (b : EditBone) : Prop :=
  eb_parent b = parent /\
  head b = match parent with
           | Some pb => vadd (rotate (j_rot n) (j_xyz n)) (head pb)
           | None => rotate (j_rot n) (j_xyz n)
           end.

(** The orientation accumulated along a chain of joints, from the root down:
    the product of their orientations. *)
Definition chain_orientation (chain : list URDFJoint) : Quaternion :=
  foldl (fun q j => qmul q (j_rot j)) qidentity chain.



(** The loop of [_walk_urdf] over the connections of a link. *)
Definition walk_loop (depth' : nat) (urdf : Robot)
    : list (UJoint * ULink) -> result (list URDFJoint) :=
  fix loop (conns : list (UJoint * ULink)) : result (list URDFJoint) :=
    match conns with
    | [] => Ok []
    | (joint, child_link) :: rest =>
      bone ← URDFJoint_init joint child_link;
      kids ← _walk_urdf depth' urdf child_link;
      let bone := set_children kids bone in
      bones ← loop rest;
      Ok (bone :: bones)
    end.

(** The node [n] is the one the constructor makes of the joint and of its
    child link as [link_map] has it, with some children. *)
Definition made_of (urdf : Robot) (joint : UJoint) (n : URDFJoint) : Prop :=
  exists child_link b0,
    link_map urdf !! uj_child joint = Some child_link /\
    URDFJoint_init joint child_link = Ok b0 /\
    n = set_children (children n) b0.

(** [path urdf l js l']: the joints [js], one or more, lead from the link [l]
    to the link [l']: the parent of the first is [l], each leads to the link
    that is the parent of the next, and the last leads to [l']. *)
Inductive path (urdf : Robot) : ULink -> list UJoint -> ULink -> Prop :=
| path_last l j l' :
    j ∈ joints urdf -> uj_parent j = ul_name l ->
    link_map urdf !! uj_child j = Some l' ->
    path urdf l [j] l'
| path_step l j l' js l'' :
    j ∈ joints urdf -> uj_parent j = ul_name l ->
    link_map urdf !! uj_child j = Some l' ->
    path urdf l' js l'' ->
    path urdf l (j :: js) l''.

(** [branch urdf forest js n]: going down the trees of [forest] by nodes made
    of the joints [js], one after the other, ends at the node [n]. *)
Inductive branch (urdf : Robot) : list URDFJoint -> list UJoint -> URDFJoint -> Prop :=
| branch_last forest j n :
    n ∈ forest -> made_of urdf j n -> branch urdf forest [j] n
| branch_step forest j n js n' :
    n ∈ forest -> made_of urdf j n ->
    branch urdf (children n) js n' ->
    branch urdf forest (j :: js) n'.

(** [n] is a node of one of the trees of [forest], at any depth. *)
Inductive node_in : list URDFJoint -> URDFJoint -> Prop :=
| node_here forest n : n ∈ forest -> node_in forest n
| node_under forest n n' : n ∈ forest -> node_in (children n) n' -> node_in forest n'.

(** A document for pass 1: a joint turned by half a turn about x, and under
    it a joint one unit along y. *)
Definition turned_joint : UJoint :=
  mkUJoint "shoulder" REVOLUTE "base" "arm"
           (Some (mkPose (Some vzero) (Some (mkVector PI 0 0)))) None None.

Definition offset_joint : UJoint :=
  mkUJoint "elbow" REVOLUTE "arm" "hand"
           (Some (mkPose (Some (mkVector 0 1 0)) (Some vzero))) None None.

Definition bare_link (name : string) : ULink := mkULink name None None None.

Definition two_joints : Robot :=
  mkRobot (list_to_map [("base", bare_link "base"); ("arm", bare_link "arm");
                        ("hand", bare_link "hand")])
          [turned_joint; offset_joint] [] "base".

Definition elbow_node : URDFJoint :=
  joint_node offset_joint (mkVector 0 1 0) vzero (link_record (bare_link "hand") vzero vzero).

Definition shoulder_node : URDFJoint :=
  set_children [elbow_node]
    (joint_node turned_joint vzero (mkVector PI 0 0)
                (link_record (bare_link "arm") vzero vzero)).

(** A host with nothing in it. *)
Definition empty_world : World :=
  mkWorld (mkArmature EmptyString [] ∅ ∅) [] None [] ∅ "/opt/ros/share/"
          (fun _ => []) (fun b => mkMatrix (head b) qidentity unit_scale)
          (fun _ => vzero) (fun path => Raise (HostError "FileNotFoundError")) [].

(** A document whose joints lead from the link "a" to the link "b" and back:
    "base" is the only link no joint leads to, and no joint leaves it. *)
Definition disconnected : Robot :=
  mkRobot (list_to_map [("base", bare_link "base"); ("a", bare_link "a");
                        ("b", bare_link "b")])
          [mkUJoint "j1" FIXED "a" "b" None None None;
           mkUJoint "j2" FIXED "b" "a" None None None] [] "base".

(** A document in which two joints lead to the link "c". *)
Definition diamond : Robot :=
  mkRobot (list_to_map [("base", bare_link "base"); ("a", bare_link "a");
                        ("b", bare_link "b"); ("c", bare_link "c")])
          [mkUJoint "j1" FIXED "base" "a" None None None;
           mkUJoint "j2" FIXED "base" "b" None None None;
           mkUJoint "j3" FIXED "a" "c" None None None;
           mkUJoint "j4" FIXED "b" "c" None None None] [] "base".

(** The names of the joints of a forest with, for each, the name of its link,
    a node before its children. *)
Fixpoint joint_names (n : URDFJoint) : list (string * string) :=
  (j_name n, l_name (j_link n)) ::
  (fix go (cs : list URDFJoint) : list (string * string) :=
     match cs with
     | [] => []
     | c :: rest => joint_names c ++ go rest
     end) (children n).

(** The three axes, in the order [configure_joint] looks at them. *)
Inductive Axis := X | Y | Z.

Definition lock_ik (ax : Axis) (p : PoseBone) : bool :=
  match ax with X => lock_ik_x p | Y => lock_ik_y p | Z => lock_ik_z p end.

Definition use_ik_limit (ax : Axis) (p : PoseBone) : bool :=
  match ax with X => use_ik_limit_x p | Y => use_ik_limit_y p | Z => use_ik_limit_z p end.

Definition ik_min (ax : Axis) (p : PoseBone) : R :=
  match ax with X => ik_min_x p | Y => ik_min_y p | Z => ik_min_z p end.

Definition ik_max (ax : Axis) (p : PoseBone) : R :=
  match ax with X => ik_max_x p | Y => ik_max_y p | Z => ik_max_z p end.

Definition same_axis (a b : Axis) : bool :=
  match a, b with X, X | Y, Y | Z, Z => true | _, _ => false end.

(** [ax] is the only axis of [p'] that is unlocked; its limit is enforced and,
    where the joint has a limit, its bounds are those of the limit. *)
Definition only_unlocked (ax : Axis) (limit : option Limit) (p' : PoseBone) : Prop :=
  (forall other, lock_ik other p' = negb (same_axis other ax)) /\
  use_ik_limit ax p' = true /\
  (forall l, limit = Some l -> ik_min ax p' = lower l /\ ik_max ax p' = upper l).

(** A revolute joint about x with the limit (-1, 1), and a host whose
    armature has its pose bone, with the three axes locked. *)
Definition hinge : URDFJoint :=
  mkURDFJoint "hinge" REVOLUTE vzero qidentity (link_record (bare_link "arm") vzero vzero)
              (Some (mkVector 1 0 0)) (Some (mkLimit (-1) 1)) [] None None.

Definition locked_posebone : PoseBone :=
  set_lock_ik_z true (set_lock_ik_y true (set_lock_ik_x true default_posebone)).

Definition hinge_world : World :=
  set_armature (fun _ => mkArmature "robot" [] ∅ {[ "hinge" := locked_posebone ]})
               empty_world.

(** The names of the materials of the host store, in the order of creation. *)
Definition material_names (w : World) : list string := map mat_name (w_materials w).

(** The world with another registry. *)
Definition with_registry (registry : gmap string MatEntry) (w : World) : World :=
  set_MATERIALS (fun _ => registry) w.

(** A joint whose link has, for visual, a box of the given material. *)
Definition boxed_joint (material : option UMaterial) : URDFJoint :=
  joint_node
    (mkUJoint "wrist" FIXED "arm" "hand" None None None) vzero vzero
    (link_record
       (mkULink "hand" None
                (Some (mkVisual None (Some (Box (mkVector 2 1 1))) material)) None)
       vzero vzero).

Definition red : UMaterial := mkUMaterial "red" (Some (1, 0, 0, 1)%R) None.

Definition textured : UMaterial := mkUMaterial "wood" None (Some "wood.png").

(** A host with one mesh object, the cube the host makes. *)
Definition cube_world : World :=
  set_objects (fun _ => [new_object "Cube" (mkVector 2 2 2) (Some [])]) empty_world.

(** The calls of [URDFJoint.add_material] of an import, one after the other. *)
Definition add_materials (calls : list (URDFJoint * nat)) : M unit :=
  for_each calls (fun call => URDFJoint_add_material call.1 call.2).

(** The loop of [build_objectmode] over the children of a node. *)
Definition build_objectmode_children (self : URDFJoint)
    : list URDFJoint -> M (list URDFJoint) :=
  fix loop (cs : list URDFJoint) : M (list URDFJoint) :=
    match cs with
    | [] => mret []
    | child :: rest =>
      child' ← build_objectmode child (Some self);
      rest' ← loop rest;
      mret (child' :: rest')
    end.

(** [w'] differs from [w] in its scene objects at most. *)
Definition same_host (w w' : World) : Prop :=
  w_armature w' = w_armature w /\
  w_materials w' = w_materials w /\
  MATERIALS w' = MATERIALS w /\
  w_log w' = w_log w.

(** The message of pass 2 for a bone it does not find. *)
Definition bone_not_added (name : string) : string :=
  String.append "Error: bone " (String.append name " not yet added to the armature").

(** What pass 1 does on a subtree: it cannot fail under a parent that has its
    bone, it only adds bones to the armature, and every node gets the bone
    [bone_of_node] describes. *)
Definition pass1_ok (self : URDFJoint) : Prop :=
  forall parent w,
    (forall p, parent = Some p -> is_Some (editbone p)) ->
    exists self',
      build_editmode self parent w =
        (Ok self', set_armature (set_edit_bones (fun bs => bs ++ bones_of self')) w) /\
      annotated bone_of_node (parent ≫= editbone) self self'.

(** What a step leaves alone when it only assigns to scene objects that are
    there: the host apart from the objects, and their number. *)
Definition objects_only (w0 : World) (n : nat) (w : World) : Prop :=
  same_host w0 w /\ length (w_objects w) = n.


(** The geometry of the link's visual is a mesh file. *)
Definition is_mesh (g : option Geometry) : bool :=
  match g with Some (Mesh _ _) => true | _ => false end.

(** What the scale loop of [create_objects_by_link] makes of an imported
    object: its scale times the scale of the mesh, component by component. *)
Definition scaled (scale : option Vector) (o : Obj) : Obj :=
  match scale with
  | Some scale => set_scale (mkVector (vx (o_scale o) * vx scale)
                                      (vy (o_scale o) * vy scale)
                                      (vz (o_scale o) * vz scale)) o
  | None => o
  end.

(** What the last loop of [create_objects_by_link] makes of an object: set at
    the link's position, in quaternion mode, with the link's orientation, and
    then its origin moved to where the host [w] recentres it. *)
Definition oriented (link : URDFLink) (o : Obj) : Obj :=
  set_rotation_quaternion (l_rot link)
    (set_rotation_mode "QUATERNION" (set_location (l_xyz link) o)).

Definition place (w : World) (link : URDFLink) (o : Obj) : Obj :=
  set_location (w_origin_point w (oriented link o)) (oriented link o).

(** An object as [create_objects_by_link] leaves it. *)
Definition placed (w : World) (link : URDFLink) (o : Obj) : Prop :=
  exists o0, o = place w link o0.

(** The objects the host adds to the scene for a link, as it makes them. *)
Definition added (w : World) (link : URDFLink) : list Obj :=
  match l_visual link ≫= v_geometry with
  | Some (Mesh filename _) =>
    if contains ".dae" filename || contains ".stl" filename
    then w_files w (replace "package:/" (ROS_SHARE_ROOT w) filename)
    else []
  | Some (Box _) => [new_object "Cube" (mkVector 2 2 2) (Some [])]
  | Some (Cylinder radius length) =>
    [new_object "Cylinder" (mkVector (radius * 2) (radius * 2) length) (Some [])]
  | Some (Sphere radius) =>
    [new_object "Sphere" (mkVector (radius * 2) (radius * 2) (radius * 2)) (Some [])]
  | None => [new_object "Empty" vzero None]
  end.

(** Whether an added object is one of those [create_objects_by_link]
    returns: it is, but for an object of a mesh file whose name an object of
    the scene had before the import. *)
Definition produced (w : World) (link : URDFLink) (o : Obj) : bool :=
  match l_visual link ≫= v_geometry with
  | Some (Mesh _ _) => negb (bool_decide (o_name o ∈ map o_name (w_objects w)))
  | _ => true
  end.

(** What [create_objects_by_link] makes of a produced object before it places
    it: scaled for a mesh file, named after the link otherwise, with the size
    of the box for dimensions, or the scale 0.01 of the empty that stands for
    a visual without geometry. *)
Definition shaped (link : URDFLink) (o : Obj) : Obj :=
  match l_visual link ≫= v_geometry with
  | Some (Mesh _ scale) => scaled scale o
  | Some (Box size) => set_dimensions size (set_o_name (l_name link) o)
  | Some (Cylinder _ _) => set_o_name (l_name link) o
  | Some (Sphere _) => set_o_name (l_name link) o
  | None => set_scale (mkVector 0.01 0.01 0.01) (set_o_name (l_name link) o)
  end.

(** The handles, from [i] on, of the objects flagged. *)
Fixpoint handles (i : nat) (flags : list bool) : list nat :=
  match flags with
  | [] => []
  | flag :: rest => if flag then i :: handles (S i) rest else handles (S i) rest
  end.

Definition produced_handles (w : World) (link : URDFLink) : list nat :=
  handles (length (w_objects w)) (map (produced w link) (added w link)).

(** The host after the objects of a link were added to the scene, behind
    those it had, each produced one being [f] of what the host made; a
    primitive or an empty is the active object then. *)
Definition scene_with (w : World) (link : URDFLink) (f : Obj -> Obj) : World :=
  set_objects
    (fun os => os ++ map (fun o => if produced w link o then f o else o) (added w link))
    (if is_mesh (l_visual link ≫= v_geometry) then w
     else set_active (Some (length (w_objects w))) w).

(** An object given the armature for parent, as the base link's are. *)
Definition to_armature (armature : string) (o : Obj) : Obj :=
  set_parent_type "ARMATURE" (set_parent (Some armature) o).

(** A robot whose base link has a box for visual, and a host with the
    armature "robot" and a cube in the scene. *)
Definition boxed_base : URDF :=
  mkURDF "robot" "robot.urdf" two_joints
         (link_record
            (mkULink "base" None
                     (Some (mkVisual None (Some (Box (mkVector 2 1 1))) None)) None)
            vzero vzero)
         [].

Definition robot_world : World :=
  set_armature (fun _ => mkArmature "robot" [] ∅ ∅) cube_world.

(** The body of the loop of [add_link_frame], for the object [v]. *)
Definition add_link_frame_body (self joint : URDFJoint) (xyz : option Vector)
    (rot : option Quaternion) (visual : Visual) (v : nat) : M unit :=
  bone ← get_bone (j_name joint);
  _ ← update_obj v (set_matrix_local (matrix_local bone));
  _ ← match xyz, rot with
      | Some xyz, Some rot =>
        update_obj v (fun o => set_location (vadd (location o) (rotate rot xyz)) o)
      | Some xyz, None =>
        update_obj v (fun o => set_location (vadd (location o) xyz) o)
      | None, _ => mret tt
      end;
  _ ← update_obj v (set_rotation_quaternion (l_rot (j_link self)));
  _ ← rescale_object (v_geometry visual) v;
  _ ← URDFJoint_add_material self v;
  _ ← get_bone (j_name joint);
  _ ← modify_armature (set_bones (alter (set_use_relative_parent true) (j_name joint)));
  w ← get;
  _ ← update_obj v (set_parent (Some (a_name (w_armature w))));
  _ ← update_obj v (set_parent_bone (j_name joint));
  update_obj v (set_parent_type "BONE").

(** An object attached to the bone [name] of the armature [armature], at
    [offset] from the bone's local transform [m], with the orientation [q]. *)
Definition attached (armature name : string) (m : Matrix) (offset : Vector)
    (q : Quaternion) (o : Obj) : Prop :=
  o_parent o = Some armature /\
  parent_type o = "BONE" /\
  parent_bone o = name /\
  location o = vadd (mat_loc m) offset /\
  rotation_quaternion o = q.

(** A step that changes, of the scene objects, the object [v] at most, and of
    it neither the location nor the orientation. *)
Definition keeps_placement (v : nat) (w w' : World) : Prop :=
  w_armature w' = w_armature w /\
  exists g : Obj -> Obj,
    w_objects w' = alter g v (w_objects w) /\
    forall o, location (g o) = location o /\
              rotation_quaternion (g o) = rotation_quaternion o.

(** What the loop of [add_link_frame] keeps of the host, for the bone [name]. *)
Definition frame_kept (w0 : World) (name : string) (n : nat) (w : World) : Prop :=
  a_name (w_armature w) = a_name (w_armature w0) /\
  pose_bones (w_armature w) = pose_bones (w_armature w0) /\
  matrix_local <$> bones (w_armature w) !! name =
    matrix_local <$> bones (w_armature w0) !! name /\
  length (w_objects w) = n.

(** A fixed leaf joint under the hinge, its link a box without material, and a
    host whose armature has the hinge's bone. *)
Definition fixed_leaf : URDFJoint := boxed_joint None.

Definition hinge_bone_world : World :=
  set_armature
    (fun _ => mkArmature "robot" []
                {[ "hinge" := mkBone (mkMatrix (mkVector 0 0 1) qidentity unit_scale) false ]}
                {[ "hinge" := locked_posebone ]})
    cube_world.

(** * Tactics *)

(** Running the monad: unfold its operations and reduce. *)
Ltac run :=
  repeat (unfold mbind, mret, M_bind, M_ret, bind, ret, raise, get, modify,
          modify_armature, update_obj, update_posebone, print, lift; simpl).

Ltac run_result := unfold mbind, mret, result_bind, result_ret, rbind in *.

(** Running the monad without touching the terms it computes on. *)
Ltac step :=
  repeat (progress
    (try change (@mbind M _ ?A ?B ?k ?c) with (@bind A B c k);
     try change (@mret M _ ?A ?a) with (@ret A a);
     unfold bind, ret, raise, get, modify, modify_armature, update_obj,
            update_posebone, print, lift;
     cbv beta iota zeta)).

Ltac fields :=
  cbn [w_armature w_objects w_active w_materials MATERIALS ROS_SHARE_ROOT w_files
       w_bone_matrix w_origin_point w_urdf_files w_log a_name edit_bones bones pose_bones
       set_armature set_objects set_active set_materials set_MATERIALS
       set_edit_bones set_bones set_pose_bones e_color e_texture fst snd].

(** * Further notions *)

(** A joint of the document leads from the link [l] to the link [l']. *)
Definition joins (urdf : Robot) (l l' : ULink) : Prop :=
  exists joint, joint ∈ joints urdf /\ uj_parent joint = ul_name l /\
                link_map urdf !! uj_child joint = Some l'.

(** A document whose only joint leads from the link "a" back to it. *)
Definition looped : Robot :=
  mkRobot (list_to_map [("a", bare_link "a")])
          [mkUJoint "turn" REVOLUTE "a" "a" None None None] [] "a".

(** A document with a joint to a link that is not declared. *)
Definition dangling : Robot :=
  mkRobot (list_to_map [("base", bare_link "base")])
          [mkUJoint "j1" FIXED "base" "ghost" None None None] [] "base".

(** The names of the joints of a tree, a node before its children, and of a
    list of trees. *)
Fixpoint tree_names (n : URDFJoint) : list string :=
  j_name n ::
  (fix go (cs : list URDFJoint) : list string :=
     match cs with
     | [] => []
     | c :: rest => tree_names c ++ go rest
     end) (children n).

Definition forest_names : list URDFJoint -> list string :=
  fix go (cs : list URDFJoint) : list string :=
    match cs with
    | [] => []
    | c :: rest => tree_names c ++ go rest
    end.

(** A computation relates the host it starts from to the host it leaves,
    whether it returns or raises, by [R]. *)
Definition preserves {A} (R : World -> World -> Prop) (c : M A) : Prop :=
  forall w r w', c w = (r, w') -> R w w'.

(** The pose bones are the same. *)
Definition same_pose (w w' : World) : Prop :=
  pose_bones (w_armature w') = pose_bones (w_armature w).

Definition all_locked : bool * bool * bool := (true, true, true).

(** The channels of [p] that are locked are locked in [p']. *)
Definition locks_kept (p p' : PoseBone) : Prop :=
  (lock_location p = all_locked -> lock_location p' = all_locked) /\
  (lock_rotation p = all_locked -> lock_rotation p' = all_locked) /\
  (lock_scale p = all_locked -> lock_scale p' = all_locked).

(** The armature has pose bones of the same names, none of them with a
    channel unlocked that was locked. *)
Definition pose_grows (w w' : World) : Prop :=
  forall key,
    match pose_bones (w_armature w) !! key with
    | Some p => exists p', pose_bones (w_armature w') !! key = Some p' /\ locks_kept p p'
    | None => pose_bones (w_armature w') !! key = None
    end.

(** A tree after pass 2 in which every node that is not a leaf with a fixed
    joint has its pose bone, that of the joint's name, and so have the nodes
    under it. *)
Inductive resolved : URDFJoint -> Prop :=
| resolved_fixed_leaf n :
    is_empty (children n) && String.eqb (j_type n) FIXED = true ->
    resolved n
| resolved_node n :
    posebone n = Some (j_name n) ->
    Forall resolved (children n) ->
    resolved n.

(** What [build_objectmode] does of a node whose pose bone it has found, once
    it has locked the channels of a node with children. *)
Definition build_objectmode_tail (self : URDFJoint) (posebone : string) : M URDFJoint :=
  _ ← update_posebone posebone (set_lock_ik_x true);
  _ ← update_posebone posebone (set_lock_ik_y true);
  _ ← update_posebone posebone (set_lock_ik_z true);
  _ ← configure_joint self posebone;
  _ ← add_link_frame self None None None;
  kids ← build_objectmode_children self (children self);
  mret (set_children kids self).

(** A joint without axis named as the hinge, with a fixed leaf under it. *)
Definition arm_node : URDFJoint :=
  set_children [fixed_leaf]
    (joint_node (mkUJoint "hinge" REVOLUTE "base" "arm" None None None) vzero vzero
                (link_record (bare_link "arm") vzero vzero)).

(** The robot of the two joints, as [URDF.__init__] has it before [build]. *)
Definition two_joints_robot : URDF :=
  mkURDF "robot" "robot.urdf" two_joints (link_record (bare_link "base") vzero vzero)
         [shoulder_node].

(** The entry [add_material] makes for a material whose name is new: its
    colour, and its texture's file name unless that is empty. *)
Definition entry_of (m : UMaterial) : MatEntry :=
  mkMatEntry (m_color m)
             (match m_texture m with
              | Some filename => if String.eqb filename EmptyString then None
                                 else Some filename
              | None => None
              end).

(** The first material of the name among those a document declares. *)
Fixpoint first_named (name : string) (ms : list UMaterial) : option UMaterial :=
  match ms with
  | [] => None
  | m :: rest => if String.eqb (m_name m) name then Some m else first_named name rest
  end.

Definition blue : UMaterial := mkUMaterial "blue" (Some (0, 0, 1, 1)%R) (Some "sky.png").

(** A material that is a reference by name. *)
Definition by_name (name : string) : UMaterial := mkUMaterial name None None.

(** A host with the material "red" in its registry and nothing in its store;
    a host with, for only object, an empty. *)
Definition red_registry_world : World :=
  set_MATERIALS (fun _ => add_material red ∅) cube_world.

Definition empty_object_world : World :=
  set_objects (fun _ => [new_object "Empty" vzero None]) empty_world.


(** A link with a box for visual. *)
Definition box_link : URDFLink :=
  link_record
    (mkULink "crate" None
             (Some (mkVisual (Some (mkPose (Some (mkVector 0 0 1)) (Some vzero)))
                             (Some (Box (mkVector 2 1 1))) None)) None)
    (mkVector 0 0 1) vzero.


(** A joint whose link has for visual a mesh in a format that is not
    imported. *)
Definition obj_mesh_joint : URDFJoint :=
  joint_node
    (mkUJoint "cover" FIXED "arm" "shell" None None None) vzero vzero
    (link_record
       (mkULink "shell" None
                (Some (mkVisual None (Some (Mesh "package://robot/shell.obj" None)) None))
                None)
       vzero vzero).

(** The bounding dimensions [rescale_object] gives an object for a geometry;
    [dims] are those it has before. *)
Definition shape_dimensions (geometry : option Geometry) (dims : Vector) : Vector :=
  match geometry with
  | Some (Box size) => size
  | Some (Cylinder radius length) => mkVector (radius * 2) (radius * 2) length
  | Some (Sphere radius) => mkVector (radius * 2) (radius * 2) (radius * 2)
  | _ => dims
  end.

(** A joint whose link has for visual a sphere of radius 1/2, under the
    hinge. *)
Definition ball_joint : URDFJoint :=
  joint_node
    (mkUJoint "tip" FIXED "arm" "ball" None None None) vzero vzero
    (link_record
       (mkULink "ball" None (Some (mkVisual None (Some (Sphere (1 / 2))) None)) None)
       vzero vzero).

(** The registry is the same. *)
Definition same_registry (w w' : World) : Prop := MATERIALS w' = MATERIALS w.

(** A link whose visual is a collada file, with a scale. *)
Definition dae_link : URDFLink :=
  link_record
    (mkULink "forearm" None
             (Some (mkVisual (Some (mkPose (Some (mkVector 0 0 1)) (Some vzero)))
                             (Some (Mesh "package://robot/arm.dae" (Some (mkVector 2 2 2))))
                             None))
             None)
    (mkVector 0 0 1) vzero.

(** A host with one object in the scene, in which that file holds two
    objects. *)
Definition dae_world : World :=
  mkWorld (mkArmature EmptyString [] ∅ ∅) [new_object "Cube" vzero None] None [] ∅
          "/opt/ros/share/"
          (fun path => if String.eqb path "/opt/ros/share//robot/arm.dae"
                       then [new_object "Arm" vzero None; new_object "Hand" vzero None]
                       else [])
          (fun b => mkMatrix (head b) qidentity unit_scale)
          (fun o => mkVector 0 0 (vz (location o)))
          (fun path => Raise (HostError "FileNotFoundError")) [].

(** A step of the host's for [ComponentCreator.__init__]: it adds an empty of
    the component's name to the scene. *)
Definition empty_component (name category : string) : M unit :=
  add_to_scene (new_object name vzero None).

(** A host in which the file "robot.urdf" holds the document with a joint to
    a link that is not declared. *)
Definition dangling_world : World :=
  mkWorld (mkArmature EmptyString [] ∅ ∅) [] None [] ∅ "/opt/ros/share/"
          (fun _ => []) (fun b => mkMatrix (head b) qidentity unit_scale)
          (fun _ => vzero)
          (fun path => if String.eqb path "robot.urdf" then Ok dangling
                       else Raise (HostError "FileNotFoundError"))
          [].

(** * Properties *)

(** ** Rotations *)

Section Rotations.

Local Open Scope R_scope.




Lemma to_quaternion_zero : to_quaternion vzero = qidentity.
Proof.
  unfold to_quaternion, vzero, qidentity; simpl.
  rewrite Rmult_0_l, cos_0, sin_0. f_equal; ring.
Qed.

Lemma rotate_identity (v : Vector) : rotate qidentity v = v.
Proof.
  destruct v as [a b c]. unfold rotate, qidentity, qmul, qconj; simpl.
  f_equal; ring.
Qed.




End Rotations.

(** ** Mesh paths *)

Example replace_package_prefix :
  replace "package:/" "/opt/ros/share/" "package://pepper_meshes/meshes/Torso.dae" =
  "/opt/ros/share//pepper_meshes/meshes/Torso.dae".
Proof. reflexivity. Qed.

Example contains_extension :
  contains ".dae" "package://pepper_meshes/meshes/Torso.dae" = true /\
  contains ".stl" "package://pepper_meshes/meshes/Torso.dae" = false.
Proof. split; reflexivity. Qed.

(** ** LinkRecord origin *)

(** C2: the constructor of a link record can fail.  For a link whose chosen
    origin has a position and no angles, [_get_origin] hands the missing
    angles to [Euler] and the constructor raises [TypeError]; the constructor
    of a joint, given the same origin, takes the angles for zero and returns
    its node. *)
Theorem link_origin_missing_rpy_raises :
  URDFLink_init link_without_rpy = Raise TypeError /\
  URDFJoint_init joint_without_rpy (mkULink "arm" None None None) =
    Ok (joint_node joint_without_rpy (mkVector 0 0 1) vzero
                   (link_record (mkULink "arm" None None None) vzero vzero)).
Proof. split; reflexivity. Qed.

(** ** Induction on the joint tree *)

Lemma URDFJoint_tree_ind (P : URDFJoint -> Prop) :
  (forall name type xyz rot link axis limit cs eb pb,
      Forall P cs ->
      P (mkURDFJoint name type xyz rot link axis limit cs eb pb)) ->
  forall j, P j.
Proof.
  intros H. fix IH 1. intros [name type xyz rot link axis limit cs eb pb].
  apply H. induction cs as [|c cs IHcs]; constructor.
  - apply IH.
  - exact IHcs.
Qed.

(** ** Laws of the monad *)

Lemma bind_Ok {A B} (c : M A) (k : A -> M B) (w w1 : World) (a : A) :
  c w = (Ok a, w1) -> (c ≫= k) w = k a w1.
Proof. intros Hc. step. now rewrite Hc. Qed.

Lemma bind_Raise {A B} (c : M A) (k : A -> M B) (w w1 : World) (e : exn) :
  c w = (Raise e, w1) -> (c ≫= k) w = (Raise e, w1).
Proof. intros Hc. step. now rewrite Hc. Qed.

Lemma bind_inv {A B} (c : M A) (k : A -> M B) (w w' : World) (r : result B) :
  (c ≫= k) w = (r, w') ->
  (exists a w1, c w = (Ok a, w1) /\ k a w1 = (r, w')) \/
  (exists e, c w = (Raise e, w') /\ r = Raise e).
Proof.
  step. destruct (c w) as [[a|e] w1].
  - intros Hk. left. now exists a, w1.
  - intros [= <- <-]. right. now exists e.
Qed.

Lemma bind_Ok_inv {A B} (c : M A) (k : A -> M B) (w w' : World) (b : B) :
  (c ≫= k) w = (Ok b, w') ->
  exists a w1, c w = (Ok a, w1) /\ k a w1 = (Ok b, w').
Proof.
  step. destruct (c w) as [[a|e] w1]; [|discriminate]. intros Hk. now exists a, w1.
Qed.

(** ** Pass 1 *)

Lemma build_editmode_unfold (self : URDFJoint) (parent : option URDFJoint) :
  build_editmode self parent =
  (i ← edit_bones_new (j_name self);
   b ← match parent with
       | Some p =>
         match editbone p with
         | Some pb =>
           mret (mkEditBone (j_name self) (Some pb)
                            (vadd (rotate (j_rot self) (j_xyz self)) (head pb)) vzero)
         | None => raise AttributeError
         end
       | None =>
         mret (mkEditBone (j_name self) None (rotate (j_rot self) (j_xyz self)) vzero)
       end;
   let b := set_tail (vadd (rotate (j_rot self) (mkVector 0 0 EPSILON)) (head b)) b in
   _ ← edit_bones_store i b;
   let self := set_editbone (Some b) self in
   kids ← build_editmode_children self (children self);
   mret (set_children kids self)).
Proof.
  destruct self as [name type xyz rot link axis limit cs eb pb]. reflexivity.
Qed.

Lemma bones_of_unfold (n : URDFJoint) :
  bones_of n =
  match editbone n with Some b => [b] | None => [] end ++ bones_of_list (children n).
Proof. destruct n; reflexivity. Qed.

Lemma insert_last {A} (l : list A) (d x : A) :
  <[length l := x]> (l ++ [d]) = l ++ [x].
Proof. induction l as [|a l IH]; simpl; [reflexivity | now rewrite IH]. Qed.

Lemma build_editmode_children_ok (cs : list URDFJoint) :
  Forall pass1_ok cs ->
  forall self w, is_Some (editbone self) ->
    exists kids,
      build_editmode_children self cs w =
        (Ok kids, set_armature (set_edit_bones (fun bs => bs ++ bones_of_list kids)) w) /\
      Forall2 (annotated bone_of_node (editbone self)) cs kids.
Proof.
  induction 1 as [|c cs Hc _ IH]; intros self w Hself.
  - exists []. split; [|constructor].
    simpl. run. unfold set_armature, set_edit_bones; simpl.
    rewrite app_nil_r. now destruct w as [[] ? ? ? ? ? ? ? ?].
  - destruct (Hc (Some self) w) as (c' & Hrun & Hann).
    { intros p [= <-]. exact Hself. }
    destruct (IH self (set_armature (set_edit_bones (fun bs => bs ++ bones_of c')) w) Hself)
      as (kids & Hrun' & Hanns).
    exists (c' :: kids). split; [|constructor; assumption].
    simpl. run. rewrite Hrun. fold (build_editmode_children self).
    rewrite Hrun'. unfold set_armature, set_edit_bones; simpl.
    now rewrite app_assoc.
Qed.

Lemma build_editmode_ok (self : URDFJoint) : pass1_ok self.
Proof.
  induction self as [name type xyz rot link axis limit cs eb pb IH]
    using URDFJoint_tree_ind.
  intros parent w Hparent. rewrite build_editmode_unfold.
  set (self0 := mkURDFJoint name type xyz rot link axis limit cs eb pb).
  set (hd := match parent ≫= editbone with
             | Some pb0 => vadd (rotate rot xyz) (head pb0)
             | None => rotate rot xyz
             end).
  set (b := mkEditBone name (parent ≫= editbone) hd
                       (vadd (rotate rot (mkVector 0 0 EPSILON)) hd)).
  set (self1 := set_editbone (Some b) self0).
  destruct (build_editmode_children_ok cs IH self1
              (set_armature (set_edit_bones (fun bs => bs ++ [b])) w))
    as (kids & Hkids & Hanns).
  { now exists b. }
  exists (set_children kids self1). split.
  - assert (Hw : forall b0,
        set_armature (set_edit_bones (fun bs => <[length (edit_bones (w_armature w)) := b]> bs))
          (set_armature (set_edit_bones (fun bs => bs ++ [b0])) w) =
        set_armature (set_edit_bones (fun bs => bs ++ [b])) w).
    { intros b0. unfold set_armature, set_edit_bones; simpl. now rewrite insert_last. }
    assert (Hend :
        set_armature (set_edit_bones (fun bs => bs ++ bones_of_list kids))
          (set_armature (set_edit_bones (fun bs => bs ++ [b])) w) =
        set_armature (set_edit_bones (fun bs => bs ++ bones_of (set_children kids self1))) w).
    { rewrite bones_of_unfold. unfold set_armature, set_edit_bones; simpl.
      now rewrite <- app_assoc. }
    rewrite Hend in Hkids. clear Hend.
    destruct parent as [p|].
    + destruct (Hparent p eq_refl) as [pb0 Hpb0].
      subst b hd self1 self0. simpl in *. rewrite Hpb0 in *.
      unfold edit_bones_new, edit_bones_store. run. unfold set_tail; simpl.
      rewrite Hw, Hkids. reflexivity.
    + subst b hd self1 self0. simpl in *.
      unfold edit_bones_new, edit_bones_store. run. unfold set_tail; simpl.
      rewrite Hw, Hkids. reflexivity.
  - econstructor; [reflexivity..| reflexivity | exact Hanns].
Qed.

Lemma annotated_impl (P Q : option EditBone -> URDFJoint -> EditBone -> Prop) :
  (forall parent n b, P parent n b -> Q parent n b) ->
  forall parent n n', annotated P parent n n' -> annotated Q parent n n'.
Proof.
  intros HPQ. fix IH 4.
  intros parent n n' [parent0 n0 n0' b Hb Hname Hxyz Hrot HP Hkids].
  econstructor; eauto.
  induction Hkids as [|c c' cs cs' Hc _ IHkids]; constructor.
  - apply IH, Hc.
  - exact IHkids.
Qed.

Lemma _walk_urdf_unfold (depth : nat) (urdf : Robot) (link : ULink) :
  _walk_urdf (S depth) urdf link =
  (conns ← _get_urdf_connections urdf link; walk_loop depth urdf conns).
Proof. reflexivity. Qed.

Lemma to_quaternion_half_turn_x : to_quaternion (mkVector PI 0 0) = mkQuat 0 1 0 0.
Proof.
  unfold to_quaternion; simpl.
  change (PI * / 2)%R with (PI / 2)%R.
  rewrite Rmult_0_l, cos_0, sin_0, cos_PI2, sin_PI2. f_equal; ring.
Qed.

(** C1, as amended: pass 1 gives every node a bone whose parent is the bone of
    the node's parent and whose head is the node's own orientation applied to
    its position, plus the head of the parent's bone when there is one; pass 1
    on a root cannot fail. *)
Theorem bone_head_own_orientation (root : URDFJoint) (w : World) :
  exists root' w',
    build_editmode root None w = (Ok root', w') /\
    edit_bones (w_armature w') = edit_bones (w_armature w) ++ bones_of root' /\
    annotated head_placed None root root'.
Proof.
  destruct (build_editmode_ok root None w) as (root' & Hrun & Hann); [easy|].
  eexists root', _. split; [exact Hrun|]. split; [reflexivity|].
  apply annotated_impl with (P := bone_of_node); [|exact Hann].
  intros parent n b ->. split; reflexivity.
Qed.

(** C1, as stated, fails: under a parent turned by half a turn about x, which
    is the whole of the orientation accumulated down to the child, the head of
    the child's bone is one unit along +y from the parent's head, not the
    accumulated orientation applied to (0,1,0), which is one unit along -y. *)
Lemma bone_head_not_chain_orientation :
  exists root' child' pb b w',
    build_editmode shoulder_node None empty_world = (Ok root', w') /\
    editbone root' = Some pb /\
    children root' = [child'] /\
    editbone child' = Some b /\
    eb_parent b = Some pb /\
    head b <> vadd (rotate (chain_orientation [shoulder_node]) (j_xyz elbow_node)) (head pb).
Proof.
  destruct (build_editmode_ok shoulder_node None empty_world) as (root' & Hrun & Hann);
    [easy|].
  inversion Hann as [parent n n' pb Hpb _ _ _ Hbone Hkids]; subst.
  simpl in Hkids. inversion Hkids as [|c child' cs cs' Hchild Hrest Hc Hcs']; subst.
  inversion Hrest; subst.
  inversion Hchild as [parent n n' b Hb _ _ _ Hbone' _]; subst.
  exists root', child', pb, b. eexists.
  split; [exact Hrun|]. split; [exact Hpb|]. split; [easy|]. split; [exact Hb|].
  unfold bone_of_node in Hbone, Hbone'. rewrite Hbone' at 1 2. rewrite Hbone.
  split; [reflexivity|].
  unfold chain_orientation; simpl. rewrite to_quaternion_half_turn_x, to_quaternion_zero.
  intros Heq. apply (f_equal vy) in Heq.
  unfold vadd, rotate, qmul, qconj, qidentity, vzero in Heq; simpl in Heq. lra.
Qed.

(** ** The trees [_walk_urdf] builds *)

Lemma URDFLink_init_Raise (urdf_link : ULink) (e : exn) :
  URDFLink_init urdf_link = Raise e -> e = TypeError.
Proof.
  unfold URDFLink_init, _get_origin.
  destruct (ul_inertial urdf_link ≫= i_origin) as [[[x|] [r|]]|];
    [| | | |destruct (ul_collision urdf_link ≫= c_origin) as [[[x|] [r|]]|];
            [| | | |destruct (ul_visual urdf_link ≫= v_origin) as [[[x|] [r|]]|]]];
    simpl; congruence.
Qed.

Lemma URDFJoint_init_Raise (joint : UJoint) (link : ULink) (e : exn) :
  URDFJoint_init joint link = Raise e -> e = TypeError.
Proof.
  unfold URDFJoint_init.
  destruct (uj_origin joint) as [[[x|] [r|]]|]; simpl; try congruence;
    (destruct (URDFLink_init link) as [l|e'] eqn:Hlink; simpl; [discriminate|];
     intros [= <-]; eapply URDFLink_init_Raise, Hlink).
Qed.

Lemma URDFJoint_init_Ok (joint : UJoint) (link : ULink) (b : URDFJoint) :
  URDFJoint_init joint link = Ok b ->
  j_name b = uj_name joint /\ children b = [] /\
  exists rpy, j_rot b = to_quaternion rpy.
Proof.
  unfold URDFJoint_init.
  destruct (uj_origin joint) as [[[x|] [r|]]|]; simpl; try discriminate;
    (destruct (URDFLink_init link) as [l|]; simpl; [|discriminate];
     intros [= <-]; simpl; eauto).
Qed.


(** What a walk that returns has gone through, connection by connection. *)
Lemma walk_loop_subtrees (depth : nat) (urdf : Robot) (conns : list (UJoint * ULink)) :
  forall bones,
    walk_loop depth urdf conns = Ok bones ->
    Forall2 (fun conn bone =>
               exists b0,
                 URDFJoint_init conn.1 conn.2 = Ok b0 /\
                 _walk_urdf depth urdf conn.2 = Ok (children bone) /\
                 bone = set_children (children bone) b0)
            conns bones.
Proof.
  induction conns as [|[j l] conns IH]; simpl; intros bones H.
  - injection H as <-. constructor.
  - run_result. destruct (URDFJoint_init j l) as [b0|] eqn:Hb0; [|discriminate].
    destruct (_walk_urdf depth urdf l) as [kids|] eqn:Hkids; [|discriminate].
    destruct (walk_loop depth urdf conns) as [bones'|]; [|discriminate].
    injection H as <-. constructor; [|now apply IH]. simpl. eauto.
Qed.

Lemma lookup_children_links (urdf : Robot) (js : list UJoint) :
  forall conns,
    lookup_children urdf js = Ok conns ->
    Forall (fun conn => link_map urdf !! uj_child conn.1 = Some conn.2) conns.
Proof.
  induction js as [|j js IH]; simpl; intros conns H.
  - injection H as <-. constructor.
  - destruct (link_map urdf !! uj_child j) as [l|] eqn:Hl; [|discriminate].
    run_result. destruct (lookup_children urdf js) as [conns'|]; [|discriminate].
    injection H as <-. constructor; [exact Hl|now apply IH].
Qed.

Lemma lookup_children_Ok (urdf : Robot) (js : list UJoint) :
  forall conns, lookup_children urdf js = Ok conns -> map fst conns = js.
Proof.
  induction js as [|j js IH]; simpl; intros conns H.
  - now injection H as <-.
  - destruct (link_map urdf !! uj_child j); [|discriminate]. run_result.
    destruct (lookup_children urdf js) as [conns'|]; [|discriminate].
    injection H as <-. simpl. f_equal. now apply IH.
Qed.

(** The nodes a walk returns for a link, joint by joint. *)
Lemma walk_urdf_children (depth : nat) (urdf : Robot) (link : ULink)
    (bones : list URDFJoint) :
  _walk_urdf (S depth) urdf link = Ok bones ->
  Forall2 (fun joint bone =>
             exists child_link b0,
               link_map urdf !! uj_child joint = Some child_link /\
               URDFJoint_init joint child_link = Ok b0 /\
               _walk_urdf depth urdf child_link = Ok (children bone) /\
               bone = set_children (children bone) b0)
          (filter (fun joint => uj_parent joint = ul_name link) (joints urdf)) bones.
Proof.
  rewrite _walk_urdf_unfold. run_result.
  destruct (_get_urdf_connections urdf link) as [conns|] eqn:Hconns; [|discriminate].
  intros Hloop. pose proof (lookup_children_Ok _ _ _ Hconns) as Hfst.
  apply lookup_children_links in Hconns. apply walk_loop_subtrees in Hloop.
  rewrite <- Hfst. clear Hfst.
  induction Hloop as [|[j l] bone conns bones (b0 & Hb0 & Hkids & Hbone) _ IH];
    simpl; constructor.
  - exists l, b0. apply Forall_cons in Hconns as [Hl _]. auto.
  - apply IH. now apply Forall_cons in Hconns as [_ Hconns].
Qed.





Lemma lookup_children_Raise (urdf : Robot) (js : list UJoint) :
  forall e, lookup_children urdf js = Raise e ->
            exists key, e = KeyError key /\ link_map urdf !! key = None.
Proof.
  induction js as [|j js IH]; simpl; intros e H; [discriminate|].
  destruct (link_map urdf !! uj_child j) eqn:Hchild.
  - run_result. destruct (lookup_children urdf js); [discriminate|].
    injection H as <-. now apply IH.
  - injection H as <-. eauto.
Qed.

Lemma walk_raises (depth : nat) :
  forall urdf link e,
    _walk_urdf depth urdf link = Raise e ->
    e = RecursionError \/ e = TypeError \/
    exists key, e = KeyError key /\ link_map urdf !! key = None.
Proof.
  induction depth as [|depth IH]; intros urdf link e H.
  - injection H as <-. now left.
  - rewrite _walk_urdf_unfold in H. run_result.
    destruct (_get_urdf_connections urdf link) as [conns|e'] eqn:Hconns.
    + clear Hconns. induction conns as [|[joint child_link] conns IHconns];
        simpl in H; [discriminate|]. run_result.
      destruct (URDFJoint_init joint child_link) as [b0|e'] eqn:Hb0.
      * destruct (_walk_urdf depth urdf child_link) eqn:Hkids.
        -- destruct (walk_loop depth urdf conns); [discriminate|].
           apply IHconns. exact H.
        -- injection H as <-. eapply IH, Hkids.
      * injection H as <-. right. left. eapply URDFJoint_init_Raise, Hb0.
    + injection H as <-. right. right. eapply lookup_children_Raise, Hconns.
Qed.

Lemma filter_none {A} (P : A -> Prop) `{forall x, Decision (P x)} (l : list A) :
  (forall x, x ∈ l -> ~ P x) -> filter P l = [].
Proof.
  induction l as [|a l IH]; intros Hl; [reflexivity|].
  rewrite filter_cons_False.
  - apply IH. intros x Hx. apply Hl. now right.
  - apply Hl. left.
Qed.

Lemma Forall2_elem_l {A B} (P : A -> B -> Prop) (l : list A) (k : list B) (x : A) :
  Forall2 P l k -> x ∈ l -> exists y, y ∈ k /\ P x y.
Proof.
  induction 1 as [|a b l k Hab _ IH]; intros Hx.
  - now apply elem_of_nil in Hx.
  - apply elem_of_cons in Hx as [->|Hx].
    + exists b. split; [left|exact Hab].
    + destruct (IH Hx) as (y & Hy & Hxy). exists y. split; [now right|exact Hxy].
Qed.

Lemma Forall2_elem_r {A B} (P : A -> B -> Prop) (l : list A) (k : list B) (y : B) :
  Forall2 P l k -> y ∈ k -> exists x, x ∈ l /\ P x y.
Proof.
  induction 1 as [|a b l k Hab _ IH]; intros Hy.
  - now apply elem_of_nil in Hy.
  - apply elem_of_cons in Hy as [->|Hy].
    + exists a. split; [left|exact Hab].
    + destruct (IH Hy) as (x & Hx & Hxy). exists x. split; [now right|exact Hxy].
Qed.

(** Every path of joints from the link has its node in the tree. *)
Lemma walk_path_branch (urdf : Robot) (link : ULink) (js : list UJoint) (l' : ULink) :
  path urdf link js l' ->
  forall depth bones,
    _walk_urdf depth urdf link = Ok bones ->
    exists n, branch urdf bones js n /\ l_name (j_link n) = ul_name l'.
Proof.
  assert (Hfirst : forall depth l j child bones,
             j ∈ joints urdf -> uj_parent j = ul_name l ->
             link_map urdf !! uj_child j = Some child ->
             _walk_urdf depth urdf l = Ok bones ->
             exists depth' n b0,
               n ∈ bones /\ made_of urdf j n /\
               URDFJoint_init j child = Ok b0 /\ n = set_children (children n) b0 /\
               _walk_urdf depth' urdf child = Ok (children n)).
  { intros [|depth] l j child bones Hin Hparent Hchild Hwalk; [discriminate|].
    apply walk_urdf_children in Hwalk.
    destruct (Forall2_elem_l _ _ _ j Hwalk) as (n & Hn & l0 & b0 & Hl0 & Hb0 & Hkids & Hbone).
    { apply list_elem_of_filter. now split. }
    rewrite Hchild in Hl0. injection Hl0 as <-.
    exists depth, n, b0. repeat split; try assumption. now exists child, b0. }
  assert (Hlink : forall j child b0 n,
             URDFJoint_init j child = Ok b0 -> n = set_children (children n) b0 ->
             l_name (j_link n) = ul_name child).
  { intros j child b0 n Hb0 ->. simpl. unfold URDFJoint_init in Hb0.
    destruct (uj_origin j) as [[[x|] [r|]]|]; simpl in Hb0; try discriminate;
      (destruct (URDFLink_init child) as [lr|] eqn:Hlr; simpl in Hb0; [|discriminate];
       injection Hb0 as <-; simpl;
       unfold URDFLink_init in Hlr;
       destruct (_get_origin _ _ _) as [[xyz rot]|]; simpl in Hlr; [|discriminate];
       now injection Hlr as <-). }
  induction 1 as [l j l' Hin Hparent Hchild|l j l' js l'' Hin Hparent Hchild _ IH];
    intros depth bones Hwalk;
    destruct (Hfirst depth l j l' bones Hin Hparent Hchild Hwalk)
      as (depth' & n & b0 & Hn & Hmade & Hb0 & Hbone & Hkids).
  - exists n. split; [now constructor|]. eapply Hlink; eassumption.
  - destruct (IH depth' (children n) Hkids) as (n' & Hbranch & Hname).
    exists n'. split; [|exact Hname]. eapply branch_step; eassumption.
Qed.

(** Every node of the tree is on a path of joints from the link. *)
Lemma walk_node_path (urdf : Robot) (bones : list URDFJoint) (n : URDFJoint) :
  node_in bones n ->
  forall depth link,
    _walk_urdf depth urdf link = Ok bones ->
    exists js l', path urdf link js l' /\ branch urdf bones js n.
Proof.
  assert (Hfirst : forall depth l bones n,
             _walk_urdf depth urdf l = Ok bones -> n ∈ bones ->
             exists depth' j child,
               j ∈ joints urdf /\ uj_parent j = ul_name l /\
               link_map urdf !! uj_child j = Some child /\ made_of urdf j n /\
               _walk_urdf depth' urdf child = Ok (children n)).
  { intros [|depth] l bs m Hwalk Hm; [discriminate|].
    apply walk_urdf_children in Hwalk.
    destruct (Forall2_elem_r _ _ _ m Hwalk Hm)
      as (j & Hj & child & b0 & Hchild & Hb0 & Hkids & Hbone).
    apply list_elem_of_filter in Hj as [Hparent Hj].
    exists depth, j, child. repeat split; try assumption. now exists child, b0. }
  induction 1 as [forest n Hn|forest n n' Hn _ IH]; intros depth link Hwalk;
    destruct (Hfirst depth link forest n Hwalk Hn)
      as (depth' & j & child & Hj & Hparent & Hchild & Hmade & Hkids).
  - exists [j], child. split; now constructor.
  - destruct (IH depth' child Hkids) as (js & l' & Hpath & Hbranch).
    exists (j :: js), l'. split; [eapply path_step|eapply branch_step]; eassumption.
Qed.

Lemma walk_urdf_names (depth : nat) (urdf : Robot) (link : ULink) (bones : list URDFJoint) :
  _walk_urdf depth urdf link = Ok bones ->
  map j_name bones =
  map uj_name (filter (fun joint => uj_parent joint = ul_name link) (joints urdf)).
Proof.
  destruct depth as [|depth]; [discriminate|]. intros Hwalk.
  apply walk_urdf_children in Hwalk.
  induction Hwalk as [|joint bone js bs (l & b0 & _ & Hb0 & _ & Hbone) _ IH];
    [reflexivity|].
  simpl. rewrite IH. f_equal. rewrite Hbone. simpl.
  now apply URDFJoint_init_Ok in Hb0 as [-> _].
Qed.

(** C3, as amended: the walk checks neither reachability nor connectivity.
    When it returns, the nodes it returns for a link are the joints whose
    parent is that link, in document order, and the tree is the unfolding of
    the paths of joints from the link: every path has its node, whose link is
    the one the path leads to, so that a link that several paths lead to has a
    node under each; and every node is on a path, so that a joint whose parent
    link no path leads to has none.  Where no joint has the link for parent
    the result is the empty list, whatever joints the document has.  The walk
    fails only for want of recursion depth, with the [TypeError] of a
    constructor, or with the [KeyError] of a child link that [link_map] does
    not have. *)
Theorem walk_urdf_no_connectivity_check (depth : nat) (urdf : Robot) (link : ULink) :
  (forall bones,
      _walk_urdf depth urdf link = Ok bones ->
      map j_name bones =
        map uj_name (filter (fun joint => uj_parent joint = ul_name link) (joints urdf)) /\
      (forall js l', path urdf link js l' ->
                     exists n, branch urdf bones js n /\ l_name (j_link n) = ul_name l') /\
      (forall n, node_in bones n ->
                 exists js l', path urdf link js l' /\ branch urdf bones js n)) /\
  ((forall joint, joint ∈ joints urdf -> uj_parent joint <> ul_name link) ->
   _walk_urdf (S depth) urdf link = Ok []) /\
  (forall e,
      _walk_urdf depth urdf link = Raise e ->
      e = RecursionError \/ e = TypeError \/
      exists key, e = KeyError key /\ link_map urdf !! key = None).
Proof.
  split; [|split].
  - intros bones H. split; [|split].
    + eapply walk_urdf_names, H.
    + intros js l' Hpath. eapply walk_path_branch; eassumption.
    + intros n Hn. eapply walk_node_path; eassumption.
  - intros Hnone. rewrite _walk_urdf_unfold. unfold _get_urdf_connections.
    rewrite filter_none by exact Hnone. reflexivity.
  - apply walk_raises.
Qed.

Lemma walk_urdf_no_connectivity_check_witness :
  _walk_urdf 1 disconnected (bare_link "base") = Ok [] /\
  exists n n',
    branch diamond
      [set_children
         [joint_node (mkUJoint "j3" FIXED "a" "c" None None None) vzero vzero
                     (link_record (bare_link "c") vzero vzero)]
         (joint_node (mkUJoint "j1" FIXED "base" "a" None None None) vzero vzero
                     (link_record (bare_link "a") vzero vzero));
       set_children
         [joint_node (mkUJoint "j4" FIXED "b" "c" None None None) vzero vzero
                     (link_record (bare_link "c") vzero vzero)]
         (joint_node (mkUJoint "j2" FIXED "base" "b" None None None) vzero vzero
                     (link_record (bare_link "b") vzero vzero))]
      [mkUJoint "j1" FIXED "base" "a" None None None;
       mkUJoint "j3" FIXED "a" "c" None None None] n /\
    l_name (j_link n) = "c" /\
    branch diamond
      [set_children
         [joint_node (mkUJoint "j3" FIXED "a" "c" None None None) vzero vzero
                     (link_record (bare_link "c") vzero vzero)]
         (joint_node (mkUJoint "j1" FIXED "base" "a" None None None) vzero vzero
                     (link_record (bare_link "a") vzero vzero));
       set_children
         [joint_node (mkUJoint "j4" FIXED "b" "c" None None None) vzero vzero
                     (link_record (bare_link "c") vzero vzero)]
         (joint_node (mkUJoint "j2" FIXED "base" "b" None None None) vzero vzero
                     (link_record (bare_link "b") vzero vzero))]
      [mkUJoint "j2" FIXED "base" "b" None None None;
       mkUJoint "j4" FIXED "b" "c" None None None] n' /\
    l_name (j_link n') = "c".
Proof.
  split.
  - apply (proj1 (proj2 (walk_urdf_no_connectivity_check 0 disconnected (bare_link "base")))).
    intros joint Hjoint.
    apply elem_of_cons in Hjoint as [->|Hjoint];
      [|apply list_elem_of_singleton in Hjoint; subst joint]; simpl; discriminate.
  - destruct (proj1 (walk_urdf_no_connectivity_check 3 diamond (bare_link "base")) _ eq_refl)
      as (_ & Hpaths & _).
    destruct (Hpaths [mkUJoint "j1" FIXED "base" "a" None None None;
                      mkUJoint "j3" FIXED "a" "c" None None None] (bare_link "c"))
      as (n & Hn & Hname).
    { eapply path_step; [left|reflexivity|reflexivity|].
      eapply path_last; [do 2 right; left|reflexivity|reflexivity]. }
    destruct (Hpaths [mkUJoint "j2" FIXED "base" "b" None None None;
                      mkUJoint "j4" FIXED "b" "c" None None None] (bare_link "c"))
      as (n' & Hn' & Hname').
    { eapply path_step; [right; left|reflexivity|reflexivity|].
      eapply path_last; [do 3 right; left|reflexivity|reflexivity]. }
    exists n, n'. repeat split; assumption.
Defined.

(** C3, as stated, fails: with joints whose parent links are never reached the
    walk returns an empty root list, the document having joints, and no
    error; with a link two joints lead to, it returns a tree with a node for
    that link under each. *)
Lemma walk_urdf_raises_no_malformed_tree_error :
  _walk_urdf 1000 disconnected (bare_link "base") = Ok [] /\
  joints disconnected <> [] /\
  exists roots,
    _walk_urdf 1000 diamond (bare_link "base") = Ok roots /\
    flat_map joint_names roots = [("j1", "a"); ("j3", "c"); ("j2", "b"); ("j4", "c")].
Proof.
  split; [vm_compute; reflexivity|]. split; [discriminate|].
  eexists. split; vm_compute; reflexivity.
Qed.

(** ** Pass 2: joint configuration *)

Lemma float_truth_nonzero (x : R) : x <> 0%R -> float_truth x = true.
Proof. intros Hx. unfold float_truth. now destruct (Req_dec_T x 0). Qed.

Lemma float_truth_zero (x : R) : x = 0%R -> float_truth x = false.
Proof. intros Hx. unfold float_truth. now destruct (Req_dec_T x 0). Qed.

(** C4: on a pose bone whose three rotational-limit axes are locked, as pass 2
    leaves them before the call, [configure_joint] changes nothing without an
    axis; with an axis, the first of its x, y, z components that is not zero
    names the only axis it unlocks, with the limit enforced there and, when
    the joint has a limit, its lower and upper values for bounds. *)
Theorem configure_joint_first_nonzero_axis (self : URDFJoint) (posebone : string)
    (w : World) (p : PoseBone) :
  pose_bones (w_armature w) !! posebone = Some p ->
  lock_ik_x p = true -> lock_ik_y p = true -> lock_ik_z p = true ->
  exists w' p',
    configure_joint self posebone w = (Ok tt, w') /\
    pose_bones (w_armature w') !! posebone = Some p' /\
    match j_axis self with
    | None => w' = w /\ p' = p
    | Some axis =>
      (vx axis <> 0%R -> only_unlocked X (j_limit self) p') /\
      (vx axis = 0%R -> vy axis <> 0%R -> only_unlocked Y (j_limit self) p') /\
      (vx axis = 0%R -> vy axis = 0%R -> vz axis <> 0%R ->
       only_unlocked Z (j_limit self) p') /\
      (vx axis = 0%R -> vy axis = 0%R -> vz axis = 0%R -> p' = p)
    end.
Proof.
  intros Hp Hx Hy Hz. unfold configure_joint.
  destruct (j_axis self) as [axis|]; [|exists w, p; now run].
  destruct (Req_dec_T (vx axis) 0) as [Hvx|Hvx];
    [rewrite (float_truth_zero _ Hvx) | rewrite (float_truth_nonzero _ Hvx)];
    [destruct (Req_dec_T (vy axis) 0) as [Hvy|Hvy];
     [rewrite (float_truth_zero _ Hvy) | rewrite (float_truth_nonzero _ Hvy)];
     [destruct (Req_dec_T (vz axis) 0) as [Hvz|Hvz];
      [rewrite (float_truth_zero _ Hvz) | rewrite (float_truth_nonzero _ Hvz)] |] |];
    destruct (j_limit self) as [limit|]; run;
    eexists; eexists; (split; [reflexivity|]); simpl;
    repeat rewrite lookup_alter_eq; rewrite Hp; simpl;
    (split; [reflexivity|]);
    repeat split; try contradiction; try reflexivity;
    try (intros [| |]; simpl; congruence);
    try (intros ? [= <-]; reflexivity); try discriminate;
    try (match goal with H : Some _ = Some _ |- _ => injection H as <-; reflexivity end).
Qed.

Lemma configure_joint_first_nonzero_axis_witness :
  exists w' p',
    configure_joint hinge "hinge" hinge_world = (Ok tt, w') /\
    pose_bones (w_armature w') !! "hinge" = Some p' /\
    (lock_ik_x p', lock_ik_y p', lock_ik_z p') = (false, true, true) /\
    use_ik_limit_x p' = true /\
    (ik_min_x p', ik_max_x p') = ((-1)%R, 1%R).
Proof.
  destruct (configure_joint_first_nonzero_axis hinge "hinge" hinge_world locked_posebone)
    as (w' & p' & Hrun & Hp' & Haxis); [reflexivity..|].
  exists w', p'. split; [exact Hrun|]. split; [exact Hp'|].
  simpl in Haxis. destruct Haxis as [Hx _].
  destruct Hx as (Hlock & Huse & Hlimit); [lra|].
  destruct (Hlimit _ eq_refl) as [Hmin Hmax].
  pose proof (Hlock X) as HX. pose proof (Hlock Y) as HY. pose proof (Hlock Z) as HZ.
  simpl in *. rewrite HX, HY, HZ, Huse, Hmin, Hmax. easy.
Defined.

(** ** Materials *)

Lemma find_material_Some (name : string) (ms : list Material) :
  forall k i, find_material name k ms = Some i ->
              exists m, ms !! (i - k) = Some m /\ mat_name m = name /\ k <= i.
Proof.
  induction ms as [|m ms IH]; simpl; intros k i H; [discriminate|].
  destruct (String.eqb (mat_name m) name) eqn:Heq.
  - injection H as <-. exists m. rewrite Nat.sub_diag.
    apply String.eqb_eq in Heq. auto.
  - destruct (IH _ _ H) as (m' & Hm' & Hname & Hle). exists m'.
    replace (i - k) with (S (i - S k)) by lia. simpl. repeat split; auto; lia.
Qed.

Lemma find_material_None (name : string) (ms : list Material) :
  forall k, find_material name k ms = None -> name ∉ map mat_name ms.
Proof.
  induction ms as [|m ms IH]; simpl; intros k H.
  - apply not_elem_of_nil.
  - destruct (String.eqb (mat_name m) name) eqn:Heq; [discriminate|].
    apply String.eqb_neq in Heq. apply not_elem_of_cons. split; [congruence|].
    eapply IH, H.
Qed.

Lemma alter_diffuse_names (c : R * R * R) (i : nat) (ms : list Material) :
  map mat_name (alter (set_diffuse_color c) i ms) = map mat_name ms.
Proof.
  revert i. induction ms as [|m ms IH]; intros [|i]; try reflexivity.
  change (mat_name m :: map mat_name (alter (set_diffuse_color c) i ms) =
          mat_name m :: map mat_name ms).
  now rewrite IH.
Qed.

Lemma add_material_local_colour (self : URDFJoint) (obj : nat) (w : World)
    (material : UMaterial) (r g b a : R) (ms : list nat) :
  l_visual (j_link self) ≫= v_material = Some material ->
  m_name material <> EmptyString ->
  m_color material = Some (r, g, b, a) ->
  w_objects w !! obj ≫= o_materials = Some ms ->
  exists mat w',
    URDFJoint_add_material self obj w = (Ok tt, w') /\
    w_materials w' !! mat = Some (mkMaterial (m_name material) (Some (r, g, b))) /\
    w_objects w' !! obj ≫= o_materials = Some (ms ++ [mat]) /\
    MATERIALS w' = MATERIALS w.
Proof.
  intros Hmat Hname Hcolor Hobj. unfold URDFJoint_add_material. rewrite Hmat.
  apply String.eqb_neq in Hname. rewrite Hname.
  unfold resolve_material. rewrite Hcolor.
  unfold get_material, materials_new. step.
  assert (Hobj' : forall mat os,
             os = w_objects w ->
             alter (set_o_materials (Some (ms ++ [mat]))) obj os !! obj ≫= o_materials =
             Some (ms ++ [mat])).
  { intros mat os ->. rewrite list_lookup_alter_eq.
    destruct (w_objects w !! obj) as [o|]; [reflexivity|discriminate]. }
  destruct (find_material (m_name material) 0 (w_materials w)) as [mat|] eqn:Hfind.
  - step. rewrite Hobj. step. exists mat. eexists. split; [reflexivity|]. fields.
    split; [|split; [now apply Hobj'|reflexivity]].
    apply find_material_Some in Hfind as (m & Hm & Hmname & _).
    rewrite Nat.sub_0_r in Hm. rewrite list_lookup_alter_eq, Hm.
    unfold set_diffuse_color. simpl. now rewrite Hmname.
  - step. fields. rewrite Hobj. step. exists (length (w_materials w)). eexists.
    split; [reflexivity|]. fields.
    split; [|split; [now apply Hobj'|reflexivity]].
    rewrite list_lookup_alter_eq, lookup_app_r, Nat.sub_diag by lia. reflexivity.
Qed.

Lemma add_material_registry_unread (self : URDFJoint) (obj : nat) (w : World)
    (material : UMaterial) (registry : gmap string MatEntry) :
  l_visual (j_link self) ≫= v_material = Some material ->
  m_color material <> None \/ m_texture material <> None ->
  URDFJoint_add_material self obj (with_registry registry w) =
  ((URDFJoint_add_material self obj w).1,
   with_registry registry (URDFJoint_add_material self obj w).2).
Proof.
  intros Hmat Hlocal. unfold URDFJoint_add_material. rewrite Hmat.
  destruct (String.eqb (m_name material) EmptyString); [reflexivity|].
  unfold resolve_material.
  assert (Hres : match m_color material, m_texture material with
                 | None, None => False
                 | _, _ => True
                 end).
  { destruct (m_color material), (m_texture material); try exact I.
    destruct Hlocal; congruence. }
  unfold get_material, materials_new, with_registry.
  destruct (m_color material) as [[[[r g] b] a]|], (m_texture material) as [t|];
    try contradiction; step; fields;
    destruct (find_material (m_name material) 0 (w_materials w)); step; fields;
    destruct (w_objects w !! obj ≫= o_materials); step; reflexivity.
Qed.

Lemma add_material_global_absent (self : URDFJoint) (obj : nat) (w : World)
    (material : UMaterial) :
  l_visual (j_link self) ≫= v_material = Some material ->
  m_name material <> EmptyString ->
  m_color material = None -> m_texture material = None ->
  MATERIALS w !! m_name material = None ->
  URDFJoint_add_material self obj w =
  print (String.append "Global material not found: " (m_name material)) w.
Proof.
  intros Hmat Hname Hcolor Htexture Habsent. unfold URDFJoint_add_material.
  rewrite Hmat. apply String.eqb_neq in Hname. rewrite Hname.
  unfold resolve_material. rewrite Hcolor, Htexture. step. rewrite Habsent.
  step. reflexivity.
Qed.

Lemma add_material_local_colour_no_list (self : URDFJoint) (obj : nat) (w : World)
    (material : UMaterial) (rgba : RGBA) :
  l_visual (j_link self) ≫= v_material = Some material ->
  m_name material <> EmptyString ->
  m_color material = Some rgba ->
  w_objects w !! obj ≫= o_materials = None ->
  exists w',
    URDFJoint_add_material self obj w = (Ok tt, w') /\
    w_materials w' =
      match find_material (m_name material) 0 (w_materials w) with
      | Some _ => w_materials w
      | None => w_materials w ++ [mkMaterial (m_name material) None]
      end /\
    w_objects w' = w_objects w /\
    MATERIALS w' = MATERIALS w.
Proof.
  intros Hmat Hname Hcolor Hobj. unfold URDFJoint_add_material. rewrite Hmat.
  apply String.eqb_neq in Hname. rewrite Hname.
  unfold resolve_material. rewrite Hcolor.
  unfold get_material, materials_new. destruct rgba as [[[r g] b] a].
  destruct (m_texture material); step; fields;
    destruct (find_material (m_name material) 0 (w_materials w));
    step; fields; rewrite Hobj; step; eexists; (split; [reflexivity|]);
    now fields.
Qed.

(** C8, as amended: for a material with a name, (1) a local colour is the
    diffuse colour (without the alpha) of the host material of that name,
    which the object gets, where the object carries materials; where it
    carries none, the call returns normally with the host material found or
    made, and neither coloured nor assigned; the registry is left as it is;
    (2) with a local colour or texture the registry is never read: the call
    does the same whatever the registry holds; (3) with neither, and the name
    not in the registry, the call returns normally, having printed a message
    and nothing else: no material is made or assigned. *)
Theorem material_resolution (self : URDFJoint) (obj : nat) (w : World)
    (material : UMaterial) :
  l_visual (j_link self) ≫= v_material = Some material ->
  m_name material <> EmptyString ->
  (forall r g b a,
      m_color material = Some (r, g, b, a) ->
      match w_objects w !! obj ≫= o_materials with
      | Some ms =>
        exists mat w',
          URDFJoint_add_material self obj w = (Ok tt, w') /\
          w_materials w' !! mat = Some (mkMaterial (m_name material) (Some (r, g, b))) /\
          w_objects w' !! obj ≫= o_materials = Some (ms ++ [mat]) /\
          MATERIALS w' = MATERIALS w
      | None =>
        exists w',
          URDFJoint_add_material self obj w = (Ok tt, w') /\
          w_materials w' =
            match find_material (m_name material) 0 (w_materials w) with
            | Some _ => w_materials w
            | None => w_materials w ++ [mkMaterial (m_name material) None]
            end /\
          w_objects w' = w_objects w /\
          MATERIALS w' = MATERIALS w
      end) /\
  (m_color material <> None \/ m_texture material <> None ->
   forall registry,
     URDFJoint_add_material self obj (with_registry registry w) =
     ((URDFJoint_add_material self obj w).1,
      with_registry registry (URDFJoint_add_material self obj w).2)) /\
  (m_color material = None -> m_texture material = None ->
   MATERIALS w !! m_name material = None ->
   exists w',
     URDFJoint_add_material self obj w = (Ok tt, w') /\
     w_log w' = w_log w ++ [String.append "Global material not found: " (m_name material)] /\
     w_materials w' = w_materials w /\
     w_objects w' = w_objects w /\
     MATERIALS w' = MATERIALS w).
Proof.
  intros Hmat Hname. split; [|split].
  - intros r g b a Hcolor.
    destruct (w_objects w !! obj ≫= o_materials) as [ms|] eqn:Hobj.
    + now apply add_material_local_colour with (a := a).
    + now apply add_material_local_colour_no_list with (r, g, b, a).
  - intros Hlocal registry. now apply add_material_registry_unread with material.
  - intros Hcolor Htexture Habsent.
    rewrite (add_material_global_absent self obj w material) by assumption.
    eexists. split; [reflexivity|]. now fields.
Qed.

Lemma material_resolution_witness :
  exists mat w',
    URDFJoint_add_material (boxed_joint (Some red)) 0 cube_world = (Ok tt, w') /\
    w_materials w' !! mat = Some (mkMaterial "red" (Some (1, 0, 0)%R)) /\
    w_objects w' !! 0 ≫= o_materials = Some ([] ++ [mat]) /\
    MATERIALS w' = MATERIALS cube_world.
Proof.
  destruct (material_resolution (boxed_joint (Some red)) 0 cube_world red) as [Hlocal _].
  - reflexivity.
  - discriminate.
  - apply (Hlocal 1%R 0%R 0%R 1%R). reflexivity.
Defined.

(** C8, as stated, fails: a material that declares a texture of its own and no
    colour is a local one; on a mesh object the call raises [TypeError] and
    the texture is not used. *)
Lemma material_local_texture_raises :
  m_texture textured = Some "wood.png" /\
  (URDFJoint_add_material (boxed_joint (Some textured)) 0 cube_world).1 = Raise TypeError.
Proof. split; [reflexivity|]. vm_compute. reflexivity. Qed.

(** *** The registry *)

Lemma add_material_keeps (m : UMaterial) (registry : gmap string MatEntry)
    (name : string) (e : MatEntry) :
  registry !! name = Some e -> add_material m registry !! name = Some e.
Proof.
  intros Hname. unfold add_material.
  destruct (registry !! m_name m) eqn:Hm; [exact Hname|].
  assert (Hne : m_name m <> name) by congruence.
  destruct (m_color m), (m_texture m) as [filename|];
    try destruct (String.eqb filename EmptyString);
    repeat rewrite lookup_alter_ne by exact Hne;
    now rewrite lookup_insert_ne by exact Hne.
Qed.

Lemma add_material_present (m : UMaterial) (registry : gmap string MatEntry) :
  is_Some (add_material m registry !! m_name m).
Proof.
  unfold add_material. destruct (registry !! m_name m) eqn:Hm; [now rewrite Hm|].
  destruct (m_color m), (m_texture m) as [filename|];
    try destruct (String.eqb filename EmptyString);
    repeat rewrite lookup_alter_eq; rewrite lookup_insert_eq; simpl; eauto.
Qed.

Lemma add_materials_keep (later : list UMaterial) :
  forall (registry : gmap string MatEntry) name e,
    registry !! name = Some e ->
    foldl (fun ms mat => add_material mat ms) registry later !! name = Some e.
Proof.
  induction later as [|m later IH]; intros registry name e Hname; [exact Hname|].
  simpl. apply IH. now apply add_material_keeps.
Qed.

(** *** The host store *)

Lemma find_material_names (name : string) (ms : list Material) :
  forall ms' extra k h,
    map mat_name ms' = map mat_name ms ++ extra ->
    find_material name k ms = Some h ->
    find_material name k ms' = Some h.
Proof.
  induction ms as [|m ms IH]; intros ms' extra k h Hnames Hfind; [discriminate|].
  destruct ms' as [|m' ms']; [discriminate|]. simpl in Hnames.
  injection Hnames as Hm Hrest. simpl in *. rewrite Hm.
  destruct (String.eqb (mat_name m) name); [exact Hfind|].
  eapply IH; eassumption.
Qed.

Lemma add_material_store_step (self : URDFJoint) (obj : nat) (w : World) :
  let w' := (URDFJoint_add_material self obj w).2 in
  material_names w' = material_names w \/
  exists n, material_names w' = material_names w ++ [n] /\ n ∉ material_names w.
Proof.
  unfold URDFJoint_add_material, material_names.
  destruct (l_visual (j_link self) ≫= v_material) as [material|]; [|now left].
  destruct (String.eqb (m_name material) EmptyString); [now left|].
  unfold resolve_material, get_material, materials_new.
  destruct (m_color material) as [[[[r g] b] a]|], (m_texture material) as [t|];
    step; fields;
    try (destruct (MATERIALS w !! m_name material) as [[[[[[r g] b] a]|] et]|];
         step; fields; [| |now left]);
    (destruct (find_material (m_name material) 0 (w_materials w)) as [mat|] eqn:Hfind;
     step; fields;
     destruct (w_objects w !! obj ≫= o_materials); step; fields; step; fields;
     first
       [left; now rewrite ?alter_diffuse_names
       |right; exists (m_name material);
        split; [now rewrite ?alter_diffuse_names, map_app
               |eapply find_material_None, Hfind]]).
Qed.

Lemma add_materials_store (calls : list (URDFJoint * nat)) :
  forall w,
    exists created,
      material_names (add_materials calls w).2 = material_names w ++ created /\
      NoDup created /\
      (forall n, n ∈ created -> n ∉ material_names w).
Proof.
  induction calls as [|[self obj] calls IH]; intros w.
  - exists []. simpl. rewrite app_nil_r. split; [reflexivity|].
    split; [constructor|]. intros n Hn. now apply elem_of_nil in Hn.
  - unfold add_materials. simpl. step.
    pose proof (add_material_store_step self obj w) as Hstep. simpl in Hstep.
    destruct (URDFJoint_add_material self obj w) as [[[]|e] w1]; simpl in Hstep.
    + destruct (IH w1) as (created & Hnames & Hnodup & Hfresh).
      fold (add_materials calls w1). rewrite Hnames.
      destruct Hstep as [Hsame|(n & Hnew & Hn)].
      * exists created. rewrite Hsame in *. auto.
      * exists (n :: created). rewrite Hnew, <- app_assoc. split; [reflexivity|].
        split.
        -- constructor; [|exact Hnodup]. intros Hin. apply (Hfresh n Hin).
           rewrite Hnew. apply elem_of_app. right. left.
        -- intros n' Hn'. apply elem_of_cons in Hn' as [->|Hn']; [exact Hn|].
           intros Hin. apply (Hfresh n' Hn'). rewrite Hnew. apply elem_of_app. now left.
    + simpl. destruct Hstep as [Hsame|(n & Hnew & Hn)].
      * exists []. rewrite Hsame, app_nil_r. split; [reflexivity|].
        split; [constructor|]. intros n Hn. now apply elem_of_nil in Hn.
      * exists [n]. split; [exact Hnew|]. split.
        -- apply NoDup_singleton.
        -- intros n' Hn'. apply list_elem_of_singleton in Hn'. now subst.
Qed.

(** C9: an entry of the registry is never overwritten: whatever materials are
    added later, the name keeps the entry it has, and adding a material leaves
    its name with an entry.  In the host store, the calls of an import, as many
    as there are and whether or not one of them fails, create at most one
    material for a name and none for a name the store already has; the handle
    found for a name before the calls is the one found after. *)
Theorem material_dedup :
  (forall (registry : gmap string MatEntry) name e later,
      registry !! name = Some e ->
      foldl (fun ms mat => add_material mat ms) registry later !! name = Some e) /\
  (forall registry m, is_Some (add_material m registry !! m_name m)) /\
  (forall calls w,
      exists created,
        material_names (add_materials calls w).2 = material_names w ++ created /\
        NoDup created /\
        (forall n, n ∈ created -> n ∉ material_names w) /\
        (forall name h,
            find_material name 0 (w_materials w) = Some h ->
            find_material name 0 (w_materials (add_materials calls w).2) = Some h)).
Proof.
  split; [|split].
  - intros registry name e later. apply add_materials_keep.
  - intros registry m. apply add_material_present.
  - intros calls w. destruct (add_materials_store calls w) as (created & Hnames & Hnodup & Hfresh).
    exists created. repeat split; try assumption.
    intros name h. eapply find_material_names. exact Hnames.
Qed.

Lemma material_dedup_witness :
  foldl (fun ms mat => add_material mat ms)
        (add_material red ∅) [mkUMaterial "red" (Some (0, 0, 1, 1)%R) None]
    !! "red" = Some (mkMatEntry (Some (1, 0, 0, 1)%R) None) /\
  material_names
    (add_materials [(boxed_joint (Some red), 0); (boxed_joint (Some red), 0)]
                   cube_world).2 = ["red"].
Proof.
  split.
  - apply (proj1 material_dedup). vm_compute. reflexivity.
  - vm_compute. reflexivity.
Defined.

(** ** Pass 2 *)

Lemma build_objectmode_unfold (self : URDFJoint) (parent : option URDFJoint) :
  build_objectmode self parent =
  if is_empty (children self) && String.eqb (j_type self) FIXED then
    match parent with
    | None => mret self
    | Some parent =>
      _ ← add_link_frame self (Some parent) (Some (j_xyz self)) (Some (j_rot self));
      mret self
    end
  else
    w ← get;
    match pose_bones (w_armature w) !! j_name self with
    | None =>
      _ ← print (bone_not_added (j_name self));
      mret self
    | Some _ =>
      let posebone := j_name self in
      let self := set_posebone (Some posebone) self in
      _ ← (if is_empty (children self) then mret tt
           else
             _ ← update_posebone posebone (set_lock_location (true, true, true));
             _ ← update_posebone posebone (set_lock_rotation (true, true, true));
             update_posebone posebone (set_lock_scale (true, true, true)));
      _ ← update_posebone posebone (set_lock_ik_x true);
      _ ← update_posebone posebone (set_lock_ik_y true);
      _ ← update_posebone posebone (set_lock_ik_z true);
      _ ← configure_joint self posebone;
      _ ← add_link_frame self None None None;
      kids ← build_objectmode_children self (children self);
      mret (set_children kids self)
    end.
Proof. destruct self; reflexivity. Qed.

(** C5, as amended: pass 2 resolves the bone of a node that is not a fixed
    leaf by the joint's name among the pose bones of the armature: a node it
    returns has that pose bone when there is one of the name.  Where there is
    none, it prints an error message and returns from the node normally, the
    node and the host otherwise as they were; no exception is raised, and the
    pass goes on with the nodes that follow. *)
Theorem missing_bone_is_skipped (self : URDFJoint) (parent : option URDFJoint)
    (w : World) :
  is_empty (children self) && String.eqb (j_type self) FIXED = false ->
  (forall self' w',
      is_Some (pose_bones (w_armature w) !! j_name self) ->
      build_objectmode self parent w = (Ok self', w') ->
      posebone self' = Some (j_name self)) /\
  (pose_bones (w_armature w) !! j_name self = None ->
  exists w',
    build_objectmode self parent w = (Ok self, w') /\
    w_log w' = w_log w ++ [bone_not_added (j_name self)] /\
    w_armature w' = w_armature w /\
    w_objects w' = w_objects w /\
    w_materials w' = w_materials w /\
    forall rest,
      for_roots build_objectmode (self :: rest) w =
      ((rest' ← for_roots build_objectmode rest; mret (self :: rest')) : M _) w').
Proof.
  intros Hkind. split.
  { intros self' w' [p Hp]. rewrite build_objectmode_unfold, Hkind.
    intros Hrun. apply bind_Ok_inv in Hrun as (w0 & w0' & [= <- <-] & Hrun).
    rewrite Hp in Hrun. cbv zeta in Hrun.
    do 6 apply bind_Ok_inv in Hrun as (? & ? & _ & Hrun).
    apply bind_Ok_inv in Hrun as (kids & ? & _ & Hrun).
    now injection Hrun as <- _. }
  intros Hbone.
  assert (Hrun : forall parent',
             build_objectmode self parent' w =
             (Ok self, (print (bone_not_added (j_name self)) w).2)).
  { intros parent'. rewrite build_objectmode_unfold, Hkind. step.
    rewrite Hbone. step. reflexivity. }
  eexists. split; [apply Hrun|]. fields.
  repeat (split; [reflexivity|]).
  intros rest. simpl. step. rewrite Hrun. reflexivity.
Qed.

Lemma missing_bone_is_skipped_witness :
  exists w',
    build_objectmode hinge None empty_world = (Ok hinge, w') /\
    w_log w' = [bone_not_added "hinge"].
Proof.
  destruct (missing_bone_is_skipped hinge None empty_world) as [_ Hskip].
  - reflexivity.
  - destruct Hskip as (w' & Hrun & Hlog & _).
    + reflexivity.
    + exists w'. split; [exact Hrun|]. exact Hlog.
Defined.

(** C5, as stated, fails: for a revolute joint of which the armature has no
    pose bone, pass 2 raises nothing; it returns the node. *)
Lemma missing_bone_raises_nothing :
  pose_bones (w_armature cube_world) !! j_name hinge = None /\
  is_empty (children hinge) && String.eqb (j_type hinge) FIXED = false /\
  (build_objectmode hinge None cube_world).1 = Ok hinge.
Proof. split; [reflexivity|]. split; [reflexivity|]. vm_compute. reflexivity. Qed.

(** ** Loops over scene objects *)

Lemma for_each_Ok {A} (I : World -> Prop) (body : A -> M unit) (xs : list A) :
  (forall x w, x ∈ xs -> I w -> exists w', body x w = (Ok tt, w') /\ I w') ->
  forall w, I w -> exists w', for_each xs body w = (Ok tt, w') /\ I w'.
Proof.
  induction xs as [|x xs IH]; intros Hbody w Hw.
  - exists w. now split.
  - destruct (Hbody x w) as (w1 & Hrun & Hw1); [left|exact Hw|].
    destruct (IH (fun y w0 Hy => Hbody y w0 (list_elem_of_further _ _ _ Hy)) w1 Hw1)
      as (w' & Hrest & Hw').
    exists w'. split; [|exact Hw']. simpl. step. rewrite Hrun. exact Hrest.
Qed.

Lemma for_each_objects (I : World -> Prop) (P : nat -> Obj -> Prop)
    (body : nat -> M unit) (vs : list nat) :
  NoDup vs ->
  (forall v w r w',
      v ∈ vs -> I w -> body v w = (r, w') ->
      I w' /\
      (forall u, u <> v -> w_objects w' !! u = w_objects w !! u) /\
      (r = Ok tt -> exists o, w_objects w' !! v = Some o /\ P v o)) ->
  forall w r w',
    I w -> for_each vs body w = (r, w') ->
    I w' /\
    (forall u, u ∉ vs -> w_objects w' !! u = w_objects w !! u) /\
    (r = Ok tt -> forall v, v ∈ vs -> exists o, w_objects w' !! v = Some o /\ P v o).
Proof.
  induction 1 as [|v vs Hv Hnodup IH]; intros Hbody w r w' Hw Hrun.
  - injection Hrun as <- <-. split; [exact Hw|]. split; [reflexivity|].
    intros _ v Hv. now apply elem_of_nil in Hv.
  - simpl in Hrun.
    apply bind_inv in Hrun as [([] & w1 & Hv1 & Hrun)|(e & Hv1 & ->)].
    + destruct (Hbody v w _ _ (list_elem_of_here _ _) Hw Hv1) as (Hw1 & Hothers & Hpost).
      destruct (IH (fun u w0 r w0' Hu => Hbody u w0 r w0' (list_elem_of_further _ _ _ Hu))
                   w1 r w' Hw1 Hrun) as (Hw' & Hrest & Hposts).
      split; [exact Hw'|]. split.
      * intros u Hu. apply not_elem_of_cons in Hu as [Hne Hu].
        rewrite (Hrest u Hu). now apply Hothers.
      * intros Hr u Hu. apply elem_of_cons in Hu as [->|Hu]; [|now apply Hposts].
        destruct (Hpost eq_refl) as (o & Ho & HP). exists o. split; [|exact HP].
        now rewrite (Hrest v Hv).
    + destruct (Hbody v w _ _ (list_elem_of_here _ _) Hw Hv1) as (Hw1 & Hothers & _).
      split; [exact Hw1|]. split; [|discriminate].
      intros u Hu. apply not_elem_of_cons in Hu as [Hne Hu]. now apply Hothers.
Qed.

Lemma objects_not_named_old (os : list Obj) (names : list string) :
  forall i rest,
    (forall o, o ∈ os -> o_name o ∈ names) ->
    objects_not_named names i (os ++ rest) =
    objects_not_named names (i + length os) rest.
Proof.
  induction os as [|o os IH]; intros i rest Hnames; simpl.
  - now rewrite Nat.add_0_r.
  - rewrite bool_decide_true by (apply Hnames; left).
    rewrite IH by (intros o' Ho'; apply Hnames; now right).
    f_equal. lia.
Qed.

Lemma update_loop_run (f : Obj -> Obj) (vs : list nat) :
  forall w,
    for_each vs (fun v => update_obj v f) w =
    (Ok tt, set_objects (fun os => foldl (fun os v => alter f v os) os vs) w).
Proof.
  induction vs as [|v vs IH]; intros w.
  - simpl. now destruct w.
  - simpl. erewrite bind_Ok by reflexivity. rewrite IH. reflexivity.
Qed.

Lemma foldl_alter_other (f : Obj -> Obj) (vs : list nat) (u : nat) :
  u ∉ vs ->
  forall os : list Obj, foldl (fun os v => alter f v os) os vs !! u = os !! u.
Proof.
  induction vs as [|v vs IH]; intros Hu os; simpl; [reflexivity|].
  apply not_elem_of_cons in Hu as [Hne Hu].
  rewrite IH by exact Hu. now apply list_lookup_alter_ne.
Qed.

Lemma handles_objects_not_named (names : list string) (os : list Obj) :
  forall i,
    objects_not_named names i os =
    handles i (map (fun o => negb (bool_decide (o_name o ∈ names))) os).
Proof.
  induction os as [|o os IH]; intros i; simpl; [reflexivity|].
  rewrite IH. now destruct (bool_decide (o_name o ∈ names)).
Qed.

Lemma handles_bounds (flags : list bool) :
  forall i, NoDup (handles i flags) /\
            forall v, v ∈ handles i flags -> i <= v < i + length flags.
Proof.
  induction flags as [|flag flags IH]; intros i; simpl.
  - split; [constructor|]. intros v Hv. now apply elem_of_nil in Hv.
  - destruct (IH (S i)) as [Hnodup Hbounds]. destruct flag.
    + split.
      * constructor; [|exact Hnodup]. intros Hi. apply Hbounds in Hi. lia.
      * intros v Hv. apply elem_of_cons in Hv as [->|Hv]; [lia|].
        apply Hbounds in Hv. lia.
    + split; [exact Hnodup|]. intros v Hv. apply Hbounds in Hv. lia.
Qed.

(** A loop that assigns to the objects flagged among those added last. *)
Lemma foldl_alter_handles (f g : Obj -> Obj) (keep : Obj -> bool) (new : list Obj) :
  forall old : list Obj,
    foldl (fun os v => alter f v os) (old ++ map g new)
          (handles (length old) (map keep new)) =
    old ++ map (fun o => if keep o then f (g o) else g o) new.
Proof.
  induction new as [|x new IH]; intros old; simpl; [reflexivity|].
  destruct (keep x); simpl.
  - rewrite alter_app_r_alt by lia. rewrite Nat.sub_diag. simpl.
    replace (old ++ f (g x) :: map g new) with ((old ++ [f (g x)]) ++ map g new)
      by now rewrite <- app_assoc.
    replace (S (length old)) with (length (old ++ [f (g x)]))
      by (rewrite length_app; simpl; lia).
    rewrite IH. now rewrite <- app_assoc.
  - replace (old ++ g x :: map g new) with ((old ++ [g x]) ++ map g new)
      by now rewrite <- app_assoc.
    replace (S (length old)) with (length (old ++ [g x]))
      by (rewrite length_app; simpl; lia).
    rewrite IH. now rewrite <- app_assoc.
Qed.

Lemma place_body_run (link : URDFLink) (v : nat) (w : World) :
  (_ ← update_obj v (set_location (l_xyz link));
   _ ← update_obj v (set_rotation_mode "QUATERNION");
   _ ← update_obj v (set_rotation_quaternion (l_rot link));
   origin_set v) w =
  (Ok tt, set_objects (alter (place w link) v) w).
Proof.
  unfold origin_set. step. fields. unfold place, oriented.
  destruct w. unfold set_objects. simpl. now rewrite !list_alter_alter_eq.
Qed.

Lemma place_loop_run (link : URDFLink) (vs : list nat) :
  forall w,
    for_each vs (fun v =>
      _ ← update_obj v (set_location (l_xyz link));
      _ ← update_obj v (set_rotation_mode "QUATERNION");
      _ ← update_obj v (set_rotation_quaternion (l_rot link));
      origin_set v) w =
    (Ok tt, set_objects (fun os => foldl (fun os v => alter (place w link) v os) os vs) w).
Proof.
  induction vs as [|v vs IH]; intros w.
  - simpl. now destruct w.
  - simpl. erewrite bind_Ok by apply place_body_run. rewrite IH. reflexivity.
Qed.

(** What [create_objects_by_link] returns and leaves, for every link and
    host: it cannot fail. *)
Lemma create_objects_by_link_exact (link : URDFLink) (w : World) :
  create_objects_by_link link w =
  (Ok (produced_handles w link),
   scene_with w link (fun o => place w link (shaped link o))).
Proof.
  unfold create_objects_by_link, produced_handles, scene_with, added, produced, shaped.
  destruct (l_visual link ≫= v_geometry) as [[filename scale|size|radius len|radius]|];
    cbn [is_mesh].
  - set (names := map o_name (w_objects w)).
    set (path := replace "package:/" (ROS_SHARE_ROOT w) filename).
    set (files := if contains ".dae" filename || contains ".stl" filename
                  then w_files w path else []).
    assert (Himport :
      (if contains ".dae" filename
       then _ ← collada_import path; w' ← get;
            mret (objects_not_named names 0 (w_objects w'))
       else if contains ".stl" filename
            then _ ← stl_import path; w' ← get;
                 mret (objects_not_named names 0 (w_objects w'))
            else mret []) w =
      (Ok (handles (length (w_objects w))
                   (map (fun o => negb (bool_decide (o_name o ∈ names))) files)),
       set_objects (fun os => os ++ files) w)).
    { assert (Hvs : forall fs,
                objects_not_named names 0 (w_objects w ++ fs) =
                handles (length (w_objects w))
                        (map (fun o => negb (bool_decide (o_name o ∈ names))) fs)).
      { intros fs. rewrite objects_not_named_old.
        - apply handles_objects_not_named.
        - intros o Ho. now apply (list_elem_of_fmap_2 o_name). }
      unfold files.
      destruct (contains ".dae" filename); [|destruct (contains ".stl" filename)];
        simpl; unfold collada_import, stl_import, import_file; step; fields;
        rewrite ?Hvs; try reflexivity.
      destruct w. unfold set_objects. simpl. now rewrite app_nil_r. }
    fold names path files.
    destruct scale as [s|]; unfold scaled.
    + erewrite bind_Ok; cycle 1.
      { erewrite bind_Ok by reflexivity. cbv zeta. fold names path.
        erewrite bind_Ok by exact Himport.
        erewrite bind_Ok by apply update_loop_run. reflexivity. }
      erewrite bind_Ok by apply place_loop_run.
      destruct w. unfold set_objects. simpl in *. do 2 f_equal.
      rewrite <- (map_id files) at 1.
      rewrite foldl_alter_handles.
      rewrite (foldl_alter_handles _ (fun o => if negb (bool_decide (o_name o ∈ names))
                                               then _ o else o)
                                   (fun o => negb (bool_decide (o_name o ∈ names)))) at 1.
      f_equal. apply map_ext. intros o.
      now destruct (bool_decide (o_name o ∈ names)).
    + erewrite bind_Ok; cycle 1.
      { erewrite bind_Ok by reflexivity. cbv zeta. fold names path.
        erewrite bind_Ok by exact Himport.
        erewrite bind_Ok by reflexivity. reflexivity. }
      erewrite bind_Ok by apply place_loop_run.
      destruct w. unfold set_objects. simpl in *. do 2 f_equal.
      rewrite <- (map_id files) at 1.
      now rewrite foldl_alter_handles.
  - erewrite bind_Ok; cycle 1.
    { unfold add_mesh_cube, add_to_scene, active_object. step. fields. reflexivity. }
    erewrite bind_Ok by apply place_loop_run.
    destruct w. unfold set_objects, set_active. simpl.
    do 2 f_equal. rewrite ?list_alter_alter_eq, alter_app_r_alt by lia.
    now rewrite Nat.sub_diag.
  - erewrite bind_Ok; cycle 1.
    { unfold add_mesh_cylinder, add_to_scene, active_object. step. fields. reflexivity. }
    erewrite bind_Ok by apply place_loop_run.
    destruct w. unfold set_objects, set_active. simpl.
    do 2 f_equal. rewrite ?list_alter_alter_eq, alter_app_r_alt by lia.
    now rewrite Nat.sub_diag.
  - erewrite bind_Ok; cycle 1.
    { unfold add_mesh_uv_sphere, add_to_scene, active_object. step. fields. reflexivity. }
    erewrite bind_Ok by apply place_loop_run.
    destruct w. unfold set_objects, set_active. simpl.
    do 2 f_equal. rewrite ?list_alter_alter_eq, alter_app_r_alt by lia.
    now rewrite Nat.sub_diag.
  - erewrite bind_Ok; cycle 1.
    { unfold add_empty, get_first_selected_object, add_to_scene, active_object.
      step. fields. reflexivity. }
    erewrite bind_Ok by apply place_loop_run.
    destruct w. unfold set_objects, set_active. simpl.
    do 2 f_equal. rewrite ?list_alter_alter_eq, alter_app_r_alt by lia.
    now rewrite Nat.sub_diag.
Qed.

Lemma scene_with_same_host (w : World) (link : URDFLink) (f : Obj -> Obj) :
  same_host w (scene_with w link f).
Proof.
  unfold scene_with. destruct (is_mesh (l_visual link ≫= v_geometry)); now repeat split.
Qed.

Lemma scene_with_objects (w : World) (link : URDFLink) (f : Obj -> Obj) :
  w_objects (scene_with w link f) =
  w_objects w ++ map (fun o => if produced w link o then f o else o) (added w link).
Proof.
  unfold scene_with. now destruct (is_mesh (l_visual link ≫= v_geometry)).
Qed.

Lemma produced_handles_bounds (w : World) (link : URDFLink) :
  NoDup (produced_handles w link) /\
  forall v, v ∈ produced_handles w link ->
            length (w_objects w) <= v < length (w_objects w) + length (added w link).
Proof.
  unfold produced_handles.
  destruct (handles_bounds (map (produced w link) (added w link)) (length (w_objects w)))
    as [Hnodup Hbounds].
  split; [exact Hnodup|]. intros v Hv. apply Hbounds in Hv. now rewrite length_map in Hv.
Qed.

Lemma produced_handles_one (w : World) (link : URDFLink) :
  is_mesh (l_visual link ≫= v_geometry) = false ->
  produced_handles w link = [length (w_objects w)] /\
  exists o, added w link = [o] /\ produced w link o = true.
Proof.
  unfold produced_handles, added, produced.
  destruct (l_visual link ≫= v_geometry) as [[filename scale|size|radius len|radius]|];
    [discriminate|..]; intros _; (split; [reflexivity|]); eexists; split; reflexivity.
Qed.

Lemma create_objects_by_link_ok (link : URDFLink) (w : World) :
  exists visuals w',
    create_objects_by_link link w = (Ok visuals, w') /\
    same_host w w' /\
    NoDup visuals /\
    (forall v, v ∈ visuals -> v < length (w_objects w')) /\
    (l_visual link ≫= v_geometry = None -> visuals = [length (w_objects w)]).
Proof.
  eexists _, _. split; [apply create_objects_by_link_exact|].
  destruct (produced_handles_bounds w link) as [Hnodup Hbounds].
  split; [apply scene_with_same_host|]. split; [exact Hnodup|]. split.
  - intros v Hv. apply Hbounds in Hv.
    rewrite scene_with_objects, length_app, length_map. lia.
  - intros Hnone. apply produced_handles_one. now rewrite Hnone.
Qed.

(** ** The base link *)

Lemma build_base_link_parents (self : URDF) (w : World) (visual : Visual) :
  l_visual (base_link self) = Some visual ->
  exists visuals w1 w',
    create_objects_by_link (base_link self) w = (Ok visuals, w1) /\
    build_base_link self w = (Ok tt, w') /\
    same_host w w' /\
    length (w_objects w') = length (w_objects w1) /\
    (forall v, v ∈ visuals ->
       exists o, w_objects w' !! v = Some o /\
                 o_parent o = Some (a_name (w_armature w)) /\
                 parent_type o = "ARMATURE") /\
    (forall u, u ∉ visuals -> w_objects w' !! u = w_objects w1 !! u).
Proof.
  intros Hvisual. unfold build_base_link. rewrite Hvisual.
  destruct (create_objects_by_link_ok (base_link self) w)
    as (visuals & w1 & Hcreate & Hhost & Hnodup & Hbound & _).
  set (body := fun v : nat =>
         (w ← get;
          _ ← update_obj v (set_parent (Some (a_name (w_armature w))));
          update_obj v (set_parent_type "ARMATURE")) : M unit).
  assert (Hbody : forall v w2,
             body v w2 =
             (Ok tt, set_objects
                       (fun os => alter (set_parent_type "ARMATURE") v
                                    (alter (set_parent (Some (a_name (w_armature w2)))) v os))
                       w2)) by reflexivity.
  destruct (for_each_Ok (objects_only w (length (w_objects w1))) body visuals)
    with (w := w1) as (w' & Hloop & Hhost' & Hlen).
  { intros v w2 _ [Hh Hl]. rewrite Hbody. eexists. split; [reflexivity|].
    split; [exact Hh|]. fields. now rewrite !length_alter. }
  { now split. }
  exists visuals, w1, w'. split; [exact Hcreate|].
  split; [erewrite bind_Ok by exact Hcreate; exact Hloop|].
  split; [exact Hhost'|]. split; [exact Hlen|].
  destruct (for_each_objects (objects_only w (length (w_objects w1)))
              (fun _ o => o_parent o = Some (a_name (w_armature w)) /\
                          parent_type o = "ARMATURE")
              body visuals Hnodup) with (w := w1) (r := Ok tt) (w' := w')
    as (_ & Hothers & Hposts); auto.
  - intros v w2 r w2' Hv [Hh Hl] Hrun. rewrite Hbody in Hrun.
    injection Hrun as <- <-. split; [|split].
    + split; [exact Hh|]. fields. now rewrite !length_alter.
    + intros u Hu. fields. now rewrite !list_lookup_alter_ne by congruence.
    + intros _. fields. rewrite !list_lookup_alter_eq.
      destruct (lookup_lt_is_Some_2 (w_objects w2) v) as [o Ho].
      { rewrite Hl. now apply Hbound. }
      rewrite Ho. eexists. split; [reflexivity|].
      destruct Hh as [Harm _]. now rewrite Harm.
  - now split.
Qed.

Lemma for_roots_editmode_ok (rs : list URDFJoint) :
  forall w,
    exists rs',
      for_roots build_editmode rs w =
        (Ok rs', set_armature (set_edit_bones (fun bs => bs ++ bones_of_list rs')) w) /\
      Forall2 (annotated bone_of_node None) rs rs'.
Proof.
  induction rs as [|root rs IH]; intros w.
  - exists []. split; [|constructor]. simpl. unfold set_armature, set_edit_bones; simpl.
    rewrite app_nil_r. now destruct w as [[] ? ? ? ? ? ? ? ?].
  - destruct (build_editmode_ok root None w) as (root' & Hroot & Hann); [easy|].
    destruct (IH (set_armature (set_edit_bones (fun bs => bs ++ bones_of root')) w))
      as (rs' & Hrest & Hanns).
    exists (root' :: rs'). split; [|constructor; assumption].
    simpl. erewrite bind_Ok by exact Hroot. erewrite bind_Ok by exact Hrest.
    unfold set_armature, set_edit_bones; simpl. now rewrite <- app_assoc.
Qed.

Lemma parent_loop_run (vs : list nat) :
  forall w,
    for_each vs (fun v =>
      w ← get;
      _ ← update_obj v (set_parent (Some (a_name (w_armature w))));
      update_obj v (set_parent_type "ARMATURE")) w =
    (Ok tt,
     set_objects
       (fun os => foldl (fun os v => alter (to_armature (a_name (w_armature w))) v os) os vs)
       w).
Proof.
  induction vs as [|v vs IH]; intros w.
  - simpl. now destruct w.
  - simpl. erewrite bind_Ok; cycle 1.
    { step. fields. reflexivity. }
    rewrite IH. destruct w. unfold set_objects. simpl.
    now rewrite list_alter_alter_eq.
Qed.

(** The step of [build] for the base link, on a link with a visual. *)
Lemma build_base_link_exact (self : URDF) (w : World) (visual : Visual) :
  l_visual (base_link self) = Some visual ->
  build_base_link self w =
  (Ok tt,
   scene_with w (base_link self)
     (fun o => to_armature (a_name (w_armature w))
                 (place w (base_link self) (shaped (base_link self) o)))).
Proof.
  intros Hvisual. unfold build_base_link. rewrite Hvisual.
  erewrite bind_Ok by apply create_objects_by_link_exact.
  rewrite parent_loop_run. unfold produced_handles, scene_with.
  destruct (is_mesh (l_visual (base_link self) ≫= v_geometry));
    destruct w; unfold set_objects, set_active; simpl; do 2 f_equal;
    rewrite foldl_alter_handles; f_equal; apply map_ext; intros o;
    now destruct (produced _ _ o).
Qed.

(** C10: with a visual descriptor on the base link, the step of [build] for
    that link cannot fail and leaves the host with the objects of the link
    behind those the scene had, which are as they were: the cube, cylinder or
    sphere the host makes for the geometry, named after the link, with the
    size of a box for dimensions; the empty, scaled by 0.01, of a visual
    without geometry; or the objects imported from the mesh file, scaled; each
    of them placed as the link is and given the armature for parent, with the
    parent type "ARMATURE".  Without a visual descriptor the step leaves the
    host as it is: no object is made for the base link.  In [build] the step
    comes when pass 1, which cannot fail, has given every joint of the roots
    its bone, and before the host leaves the edit mode for pass 2. *)
Theorem base_link_visual (self : URDF) (w : World) :
  (l_visual (base_link self) = None -> build_base_link self w = (Ok tt, w)) /\
  (forall visual,
      l_visual (base_link self) = Some visual ->
      build_base_link self w =
      (Ok tt,
       scene_with w (base_link self)
         (fun o => to_armature (a_name (w_armature w))
                     (place w (base_link self) (shaped (base_link self) o))))) /\
  (exists roots1 w2,
      let w0 := (add_armature (u_name self) w).2 in
      let w1 := set_armature (set_edit_bones (fun bs => bs ++ bones_of_list roots1)) w0 in
      for_roots build_editmode (roots self) w0 = (Ok roots1, w1) /\
      a_name (w_armature w1) = u_name self /\
      build_base_link self w1 = (Ok tt, w2) /\
      build self w =
        (roots2 ← for_roots build_objectmode roots1;
         mret (mkURDF (u_name self) (urdf_file self) (urdf self) (base_link self) roots2))
          (mode_set_OBJECT w2).2).
Proof.
  split; [|split].
  - intros Hnone. unfold build_base_link. now rewrite Hnone.
  - intros visual. apply build_base_link_exact.
  - destruct (for_roots_editmode_ok (roots self) (add_armature (u_name self) w).2)
      as (roots1 & Hpass1 & _).
    exists roots1.
    assert (Hbase : exists w2,
               build_base_link self
                 (set_armature (set_edit_bones (fun bs => bs ++ bones_of_list roots1))
                               (add_armature (u_name self) w).2) = (Ok tt, w2)).
    { destruct (l_visual (base_link self)) as [visual|] eqn:Hvisual.
      - eexists. now apply (build_base_link_exact self _ visual).
      - eexists. unfold build_base_link. now rewrite Hvisual. }
    destruct Hbase as [w2 Hbase]. exists w2. cbv zeta.
    split; [exact Hpass1|]. split; [reflexivity|]. split; [exact Hbase|].
    unfold build. erewrite bind_Ok by reflexivity. erewrite bind_Ok by reflexivity.
    erewrite bind_Ok by exact Hpass1. erewrite bind_Ok by exact Hbase.
    erewrite bind_Ok by reflexivity. reflexivity.
Qed.

Lemma base_link_visual_witness :
  build_base_link boxed_base robot_world =
  (Ok tt,
   set_objects
     (fun os =>
        os ++ [to_armature "robot"
                 (place robot_world (base_link boxed_base)
                    (set_dimensions (mkVector 2 1 1)
                       (set_o_name "base" (new_object "Cube" (mkVector 2 2 2) (Some [])))))])
     (set_active (Some 1) robot_world)).
Proof.
  apply (proj1 (proj2 (base_link_visual boxed_base robot_world))
               (mkVisual None (Some (Box (mkVector 2 1 1))) None)).
  reflexivity.
Defined.

(** ** Pass 2: fixed leaves *)

Lemma add_link_frame_unfold (self : URDFJoint) (joint : option URDFJoint)
    (xyz : option Vector) (rot : option Quaternion) :
  add_link_frame self joint xyz rot =
  match l_visual (j_link self) with
  | None => mret tt
  | Some visual =>
    let joint := match joint with Some j => j | None => self end in
    visuals ← create_objects_by_link (j_link self);
    for_each visuals (add_link_frame_body self joint xyz rot visual)
  end.
Proof. reflexivity. Qed.

Lemma rescale_object_keeps (geometry : option Geometry) (v : nat) (w : World) :
  exists w', rescale_object geometry v w = (Ok tt, w') /\ keeps_placement v w w'.
Proof.
  assert (Hid : keeps_placement v w w).
  { split; [reflexivity|]. exists (fun o => o). split; [|now split].
    now rewrite list_alter_id. }
  unfold rescale_object.
  destruct geometry as [[filename [scale|]|size|radius len|radius]|];
    try (exists w; now split);
    (eexists; split; [reflexivity|]; split; [reflexivity|]; eexists;
     split; [reflexivity|]; now split).
Qed.

Lemma add_material_keeps_placement (self : URDFJoint) (v : nat) (w : World) :
  keeps_placement v w (URDFJoint_add_material self v w).2.
Proof.
  assert (Hid : forall w', w_armature w' = w_armature w ->
                           w_objects w' = w_objects w -> keeps_placement v w w').
  { intros w' Harm Hobjs. split; [exact Harm|]. exists (fun o => o). split; [|now split].
    now rewrite Hobjs, list_alter_id. }
  assert (Hset : forall w' ms, w_armature w' = w_armature w ->
                   w_objects w' = alter (set_o_materials ms) v (w_objects w) ->
                   keeps_placement v w w').
  { intros w' ms Harm Hobjs. split; [exact Harm|]. eexists. split; [exact Hobjs|].
    now split. }
  unfold URDFJoint_add_material.
  destruct (l_visual (j_link self) ≫= v_material) as [material|]; [|now apply Hid].
  destruct (String.eqb (m_name material) EmptyString); [now apply Hid|].
  unfold resolve_material, get_material, materials_new.
  destruct (m_color material) as [[[[r g] b] a]|], (m_texture material) as [t|];
    step; fields;
    try (destruct (MATERIALS w !! m_name material) as [[[[[[r g] b] a]|] et]|];
         step; fields; [| |now apply Hid]);
    (destruct (find_material (m_name material) 0 (w_materials w)) as [mat|];
     step; fields;
     destruct (w_objects w !! v ≫= o_materials); step; fields; step; fields;
     first [now apply Hid | now eapply Hset]).
Qed.

Lemma keeps_placement_lookup (v : nat) (w w' : World) :
  keeps_placement v w w' ->
  length (w_objects w') = length (w_objects w) /\
  (forall u, u <> v -> w_objects w' !! u = w_objects w !! u) /\
  (forall o, w_objects w !! v = Some o ->
             exists o', w_objects w' !! v = Some o' /\
                        location o' = location o /\
                        rotation_quaternion o' = rotation_quaternion o).
Proof.
  intros (_ & g & Hobjs & Hg). rewrite Hobjs. split; [apply length_alter|]. split.
  - intros u Hu. now rewrite list_lookup_alter_ne by congruence.
  - intros o Ho. rewrite list_lookup_alter_eq, Ho. eexists. split; [reflexivity|].
    apply Hg.
Qed.

Lemma add_link_frame_body_effect (self joint : URDFJoint) (xyz : Vector)
    (rot : Quaternion) (visual : Visual) (v : nat) (w w' : World) (r : result unit) :
  add_link_frame_body self joint (Some xyz) (Some rot) visual v w = (r, w') ->
  (a_name (w_armature w') = a_name (w_armature w) /\
   pose_bones (w_armature w') = pose_bones (w_armature w) /\
   matrix_local <$> bones (w_armature w') !! j_name joint =
     matrix_local <$> bones (w_armature w) !! j_name joint /\
   length (w_objects w') = length (w_objects w)) /\
  (forall u, u <> v -> w_objects w' !! u = w_objects w !! u) /\
  (r = Ok tt -> v < length (w_objects w) ->
   exists o bone,
     bones (w_armature w) !! j_name joint = Some bone /\
     w_objects w' !! v = Some o /\
     attached (a_name (w_armature w)) (j_name joint) (matrix_local bone)
              (rotate rot xyz) (l_rot (j_link self)) o).
Proof.
  unfold add_link_frame_body. intros Hrun.
  apply bind_inv in Hrun as [(bone1 & w0 & Hbone & Hrun)|(e & Hbone & ->)];
    unfold get_bone in Hbone;
    destruct (bones (w_armature w) !! j_name joint) as [bone|] eqn:Hlookup;
    try discriminate; injection Hbone as <- <-;
    [|rewrite ?Hlookup; split; [now repeat split|]; split; [reflexivity|discriminate]].
  apply bind_inv in Hrun as [([] & w1 & [= <-] & Hrun)|(e & [=] & _)].
  apply bind_inv in Hrun as [([] & w2 & [= <-] & Hrun)|(e & [=] & _)].
  apply bind_inv in Hrun as [([] & w3 & [= <-] & Hrun)|(e & [=] & _)].
  match type of Hrun with
  | (_ ≫= _) ?w = _ => set (w3 := w) in *
  end.
  destruct (rescale_object_keeps (v_geometry visual) v w3) as (w4 & Hrescale & Hkeep4).
  apply bind_inv in Hrun as [([] & w4' & Hrescale' & Hrun)|(e & Hrescale' & _)];
    rewrite Hrescale in Hrescale'; try discriminate. injection Hrescale' as <-.
  pose proof (add_material_keeps_placement self v w4) as Hkeep5.
  assert (Hlen3 : length (w_objects w3) = length (w_objects w)).
  { subst w3. fields. now rewrite !length_alter. }
  assert (Hothers3 : forall u, u <> v -> w_objects w3 !! u = w_objects w !! u).
  { intros u Hu. subst w3. fields. now rewrite !list_lookup_alter_ne by congruence. }
  assert (Hv3 : v < length (w_objects w) ->
                exists o, w_objects w3 !! v = Some o /\
                          location o = vadd (mat_loc (matrix_local bone)) (rotate rot xyz) /\
                          rotation_quaternion o = l_rot (j_link self)).
  { intros Hv. destruct (lookup_lt_is_Some_2 (w_objects w) v Hv) as [o Ho].
    subst w3. fields. rewrite !list_lookup_alter_eq, Ho. eexists.
    split; [reflexivity|]. now split. }
  assert (Harm3 : w_armature w3 = w_armature w) by reflexivity.
  destruct (keeps_placement_lookup _ _ _ Hkeep4) as (Hlen4 & Hothers4 & Hv4).
  destruct (keeps_placement_lookup _ _ _ Hkeep5) as (Hlen5 & Hothers5 & Hv5).
  destruct Hkeep4 as [Harm4 _]. destruct Hkeep5 as [Harm5 _].
  apply bind_inv in Hrun as [([] & w5 & Hmat & Hrun)|(e & Hmat & ->)];
    rewrite Hmat in *; cbn [snd] in *.
  2:{ split; [|split; [|discriminate]].
      - rewrite Harm5, Harm4, Harm3, Hlen5, Hlen4, Hlen3, Hlookup. now repeat split.
      - intros u Hu. now rewrite Hothers5, Hothers4, Hothers3. }
  assert (Hbone5 : bones (w_armature w5) !! j_name joint = Some bone).
  { now rewrite Harm5, Harm4, Harm3. }
  apply bind_inv in Hrun as [(bone' & w5' & Hbone' & Hrun)|(e & Hbone' & _)];
    unfold get_bone in Hbone'; rewrite Hbone5 in Hbone'; try discriminate.
  injection Hbone' as <- <-.
  apply bind_inv in Hrun as [([] & w6 & [= <-] & Hrun)|(e & [=] & _)].
  apply bind_inv in Hrun as [(w7 & w7' & [= <- <-] & Hrun)|(e & [=] & _)].
  apply bind_inv in Hrun as [([] & w8 & [= <-] & Hrun)|(e & [=] & _)].
  apply bind_inv in Hrun as [([] & w9 & [= <-] & Hrun)|(e & [=] & _)].
  injection Hrun as <- <-. fields.
  split; [|split].
  - rewrite Harm5, Harm4, Harm3, !length_alter, Hlen5, Hlen4, Hlen3.
    split; [reflexivity|]. split; [reflexivity|]. split; [|reflexivity].
    rewrite lookup_alter_eq, Hlookup. reflexivity.
  - intros u Hu. rewrite !list_lookup_alter_ne by congruence.
    now rewrite Hothers5, Hothers4, Hothers3.
  - intros _ Hv. destruct (Hv3 Hv) as (o3 & Ho3 & Hloc3 & Hrot3).
    destruct (Hv4 _ Ho3) as (o4 & Ho4 & Hloc4 & Hrot4).
    destruct (Hv5 _ Ho4) as (o5 & Ho5 & Hloc5 & Hrot5).
    eexists. exists bone. split; [reflexivity|].
    rewrite !list_lookup_alter_eq, Ho5. split; [reflexivity|].
    unfold attached. simpl. rewrite Harm5, Harm4, Harm3.
    repeat split; congruence.
Qed.

Lemma add_link_frame_effect (self parent : URDFJoint) (w w' : World) (r : result unit) :
  add_link_frame self (Some parent) (Some (j_xyz self)) (Some (j_rot self)) w = (r, w') ->
  pose_bones (w_armature w') = pose_bones (w_armature w) /\
  (r = Ok tt ->
   match l_visual (j_link self) with
   | None => w' = w
   | Some _ =>
     exists visuals w1,
       create_objects_by_link (j_link self) w = (Ok visuals, w1) /\
       forall v, v ∈ visuals ->
         exists o bone,
           bones (w_armature w) !! j_name parent = Some bone /\
           w_objects w' !! v = Some o /\
           attached (a_name (w_armature w)) (j_name parent) (matrix_local bone)
                    (rotate (j_rot self) (j_xyz self)) (l_rot (j_link self)) o
   end).
Proof.
  rewrite add_link_frame_unfold.
  destruct (l_visual (j_link self)) as [visual|]; [|now intros [= <- <-]].
  intros Hrun.
  destruct (create_objects_by_link_ok (j_link self) w)
    as (visuals & w1 & Hcreate & (Harm & _) & Hnodup & Hbound & _).
  cbv zeta in Hrun. erewrite bind_Ok in Hrun by exact Hcreate.
  destruct (for_each_objects (frame_kept w1 (j_name parent) (length (w_objects w1)))
              (fun _ o =>
                 exists bone,
                   bones (w_armature w1) !! j_name parent = Some bone /\
                   attached (a_name (w_armature w1)) (j_name parent) (matrix_local bone)
                            (rotate (j_rot self) (j_xyz self)) (l_rot (j_link self)) o)
              (add_link_frame_body self parent (Some (j_xyz self)) (Some (j_rot self))
                                   visual)
              visuals Hnodup) with (w := w1) (r := r) (w' := w')
    as ((_ & Hpose & _) & _ & Hposts).
  - intros v w2 r2 w2' Hv (Hname & Hpose & Hmat & Hlen) Hbody.
    destruct (add_link_frame_body_effect _ _ _ _ _ _ _ _ _ Hbody)
      as ((Hname' & Hpose' & Hmat' & Hlen') & Hothers & Hpost).
    split; [|split; [exact Hothers|]].
    + split; [congruence|]. split; [congruence|]. split; congruence.
    + intros Hr. destruct (Hpost Hr) as (o & bone & Hbone & Ho & Hatt).
      { rewrite Hlen. now apply Hbound. }
      rewrite Hbone in Hmat. simpl in Hmat.
      destruct (bones (w_armature w1) !! j_name parent) as [bone1|] eqn:Hbone1;
        [|discriminate].
      injection Hmat as Hmat.
      exists o. split; [exact Ho|]. exists bone1. split; [reflexivity|].
      now rewrite <- Hname, <- Hmat.
  - now repeat split.
  - exact Hrun.
  - split; [now rewrite Hpose, Harm|].
    intros Hr. exists visuals, w1. split; [exact Hcreate|].
    intros v Hv. destruct (Hposts Hr v Hv) as (o & Ho & bone & Hbone & Hatt).
    exists o, bone. rewrite <- Harm. auto.
Qed.

Lemma add_link_frame_body_ok (self joint : URDFJoint) (xyz : Vector)
    (rot : Quaternion) (visual : Visual) (v : nat) (w : World) :
  is_Some (bones (w_armature w) !! j_name joint) ->
  l_visual (j_link self) ≫= v_material = None ->
  exists w',
    add_link_frame_body self joint (Some xyz) (Some rot) visual v w = (Ok tt, w') /\
    is_Some (bones (w_armature w') !! j_name joint).
Proof.
  intros [bone Hbone] Hmat. unfold add_link_frame_body.
  assert (Hget : forall w0, w_armature w0 = w_armature w ->
                            get_bone (j_name joint) w0 = (Ok bone, w0)).
  { intros w0 Hw0. unfold get_bone. now rewrite Hw0, Hbone. }
  erewrite bind_Ok by (apply Hget; reflexivity).
  do 3 (erewrite bind_Ok by reflexivity).
  match goal with
  | |- context [(rescale_object ?g ?v ≫= _) ?w3] =>
    destruct (rescale_object_keeps g v w3) as (w4 & Hrescale & Harm4 & _)
  end.
  erewrite bind_Ok by exact Hrescale.
  assert (Hadd : URDFJoint_add_material self v w4 = (Ok tt, w4)).
  { unfold URDFJoint_add_material. now rewrite Hmat. }
  erewrite bind_Ok by exact Hadd.
  erewrite bind_Ok by (apply Hget; exact Harm4).
  eexists. split; [reflexivity|]. fields.
  rewrite lookup_alter_eq, Harm4. fields. rewrite Hbone. simpl. eauto.
Qed.

(** C7: for a leaf whose joint is fixed, pass 2 under a parent attaches the
    objects of the link's visual to the parent's bone: each has the armature
    for parent, the parent type "BONE", the parent's name for parent bone;
    its location is that of the bone's local transform plus the joint's
    orientation applied to its position.  The node is returned as it is: no
    pose bone is resolved for it and the pose bones stay as they were.
    Without a parent nothing happens. *)
Theorem fixed_leaf_attached (self parent : URDFJoint) (w : World) :
  children self = [] ->
  j_type self = FIXED ->
  build_objectmode self None w = (Ok self, w) /\
  (forall r w',
      build_objectmode self (Some parent) w = (r, w') ->
      pose_bones (w_armature w') = pose_bones (w_armature w) /\
      forall self',
        r = Ok self' ->
        self' = self /\
        match l_visual (j_link self) with
        | None => w' = w
        | Some _ =>
          exists visuals w1,
            create_objects_by_link (j_link self) w = (Ok visuals, w1) /\
            forall v, v ∈ visuals ->
              exists o bone,
                bones (w_armature w) !! j_name parent = Some bone /\
                w_objects w' !! v = Some o /\
                attached (a_name (w_armature w)) (j_name parent) (matrix_local bone)
                         (rotate (j_rot self) (j_xyz self)) (l_rot (j_link self)) o
        end) /\
  (is_Some (bones (w_armature w) !! j_name parent) ->
   l_visual (j_link self) ≫= v_material = None ->
   exists w', build_objectmode self (Some parent) w = (Ok self, w')).
Proof.
  intros Hleaf Hfixed.
  assert (Hkind : is_empty (children self) && String.eqb (j_type self) FIXED = true).
  { rewrite Hleaf, Hfixed. reflexivity. }
  split; [|split].
  - now rewrite build_objectmode_unfold, Hkind.
  - intros r w'. rewrite build_objectmode_unfold, Hkind. intros Hrun.
    apply bind_inv in Hrun as [([] & w1 & Hframe & [= <- <-])|(e & Hframe & ->)];
      destruct (add_link_frame_effect _ _ _ _ _ Hframe) as [Hpose Hattach];
      (split; [exact Hpose|]); [|discriminate].
    intros self' [= <-]. split; [reflexivity|]. now apply Hattach.
  - intros Hbone Hmat. rewrite build_objectmode_unfold, Hkind, add_link_frame_unfold.
    destruct (l_visual (j_link self)) as [visual|] eqn:Hvisual; [|now exists w].
    destruct (create_objects_by_link_ok (j_link self) w)
      as (visuals & w1 & Hcreate & (Harm & _) & _).
    destruct (for_each_Ok (fun w2 => is_Some (bones (w_armature w2) !! j_name parent))
                (add_link_frame_body self parent (Some (j_xyz self)) (Some (j_rot self))
                                     visual) visuals) with (w := w1)
      as (w' & Hloop & _).
    + intros v w2 _ Hw2. apply add_link_frame_body_ok; [exact Hw2|].
      now rewrite Hvisual.
    + now rewrite Harm.
    + exists w'. cbv zeta. erewrite bind_Ok; [reflexivity|].
      erewrite bind_Ok by exact Hcreate. exact Hloop.
Qed.

Lemma fixed_leaf_attached_witness :
  exists w' o,
    build_objectmode fixed_leaf (Some hinge) hinge_bone_world = (Ok fixed_leaf, w') /\
    pose_bones (w_armature w') = pose_bones (w_armature hinge_bone_world) /\
    w_objects w' !! 1 = Some o /\
    attached "robot" "hinge" (mkMatrix (mkVector 0 0 1) qidentity unit_scale)
             (rotate (j_rot fixed_leaf) (j_xyz fixed_leaf)) (l_rot (j_link fixed_leaf)) o.
Proof.
  destruct (fixed_leaf_attached fixed_leaf hinge hinge_bone_world eq_refl eq_refl)
    as (_ & Hrun & Htotal).
  destruct Htotal as [w' Hw']; [eexists; reflexivity | reflexivity |].
  destruct (Hrun _ _ Hw') as [Hpose Hpost].
  destruct (Hpost _ eq_refl) as [_ (visuals & w1 & Hcreate & Hall)].
  vm_compute in Hcreate. injection Hcreate as <- _.
  destruct (Hall 1) as (o & bone & Hbone & Ho & Hattached); [left|].
  vm_compute in Hbone. injection Hbone as <-.
  exists w', o. split; [exact Hw'|]. split; [exact Hpose|]. split; [exact Ho|].
  exact Hattached.
Defined.

(** * Further properties *)

(** ** The walk *)

Lemma lookup_children_elem (urdf : Robot) (js : list UJoint) :
  forall conns joint child_link,
    lookup_children urdf js = Ok conns ->
    joint ∈ js -> link_map urdf !! uj_child joint = Some child_link ->
    (joint, child_link) ∈ conns.
Proof.
  induction js as [|j js IH]; simpl; intros conns joint child_link H Hin Hchild.
  - now apply elem_of_nil in Hin.
  - destruct (link_map urdf !! uj_child j) as [l|] eqn:Hl; [|discriminate].
    run_result. destruct (lookup_children urdf js) as [conns'|]; [|discriminate].
    injection H as <-. apply elem_of_cons in Hin as [->|Hin].
    + rewrite Hl in Hchild. injection Hchild as <-. left.
    + right. now apply IH.
Qed.

Lemma lookup_children_missing (urdf : Robot) (js : list UJoint) :
  (exists joint, joint ∈ js /\ link_map urdf !! uj_child joint = None) ->
  exists key, lookup_children urdf js = Raise (KeyError key) /\
              link_map urdf !! key = None.
Proof.
  induction js as [|j js IH]; intros (joint & Hin & Hnone).
  - now apply elem_of_nil in Hin.
  - simpl. destruct (link_map urdf !! uj_child j) as [l|] eqn:Hl; [|eauto].
    apply elem_of_cons in Hin as [->|Hin]; [congruence|].
    destruct IH as (key & -> & Hkey); eauto.
Qed.

Lemma walk_loop_elem (depth : nat) (urdf : Robot) (conns : list (UJoint * ULink)) :
  forall bones joint child_link,
    walk_loop depth urdf conns = Ok bones ->
    (joint, child_link) ∈ conns ->
    exists kids, _walk_urdf depth urdf child_link = Ok kids.
Proof.
  intros bones joint child_link H Hin. apply walk_loop_subtrees in H.
  destruct (Forall2_elem_l _ _ _ _ H Hin) as (bone & _ & b0 & _ & Hkids & _). eauto.
Qed.

(** X1: The tree under a link: the walk returns, for the joints whose parent is
    the link, in document order, the node the constructor makes of the joint
    and of its child link as [link_map] has it, with, for children, what the
    walk returns for that child link. *)
Theorem walk_urdf_subtrees (depth : nat) (urdf : Robot) (link : ULink)
    (bones : list URDFJoint) :
  _walk_urdf (S depth) urdf link = Ok bones ->
  Forall2 (fun joint bone =>
             exists child_link b0,
               link_map urdf !! uj_child joint = Some child_link /\
               URDFJoint_init joint child_link = Ok b0 /\
               _walk_urdf depth urdf child_link = Ok (children bone) /\
               bone = set_children (children bone) b0)
          (filter (fun joint => uj_parent joint = ul_name link) (joints urdf)) bones.
Proof.
  intros Hwalk. apply walk_urdf_children in Hwalk.
  eapply Forall2_impl; [exact Hwalk|].
  intros joint bone (child_link & b0 & Hchild & Hb0 & Hkids & Hbone).
  exists child_link, b0. repeat split; assumption.
Qed.

Lemma walk_urdf_subtrees_witness :
  Forall2 (fun joint bone =>
             exists child_link b0,
               link_map two_joints !! uj_child joint = Some child_link /\
               URDFJoint_init joint child_link = Ok b0 /\
               _walk_urdf 2 two_joints child_link = Ok (children bone) /\
               bone = set_children (children bone) b0)
          (filter (fun joint => uj_parent joint = ul_name (bare_link "base"))
                  (joints two_joints))
          [shoulder_node].
Proof.
  apply (walk_urdf_subtrees 2 two_joints (bare_link "base") [shoulder_node]).
  vm_compute. reflexivity.
Defined.

(** X2: A cycle of joints: among links each of which a joint joins to another of
    them, the walk returns a tree for none, whatever the recursion depth; it
    fails, for want of depth, with the [TypeError] of a constructor or with
    the [KeyError] of an undeclared link. *)
Theorem walk_urdf_cycle_fails (urdf : Robot) (cycle : ULink -> Prop) :
  (forall l, cycle l -> exists l', joins urdf l l' /\ cycle l') ->
  forall depth l,
    cycle l ->
    exists e, _walk_urdf depth urdf l = Raise e /\
              (e = RecursionError \/ e = TypeError \/
               exists key, e = KeyError key /\ link_map urdf !! key = None).
Proof.
  intros Hcycle depth.
  assert (Hnot : forall l bones, cycle l -> _walk_urdf depth urdf l <> Ok bones).
  { induction depth as [|depth IH]; intros l bones Hl H; [discriminate|].
    rewrite _walk_urdf_unfold in H. run_result.
    destruct (_get_urdf_connections urdf l) as [conns|] eqn:Hconns; [|discriminate].
    destruct (Hcycle l Hl) as (l' & (joint & Hin & Hparent & Hchild) & Hl').
    assert (Hconn : (joint, l') ∈ conns).
    { eapply lookup_children_elem; [exact Hconns| |exact Hchild].
      apply list_elem_of_filter. now split. }
    destruct (walk_loop_elem _ _ _ _ _ _ H Hconn) as [kids Hkids].
    exact (IH l' kids Hl' Hkids). }
  intros l Hl. destruct (_walk_urdf depth urdf l) as [bones|e] eqn:Hwalk.
  - now destruct (Hnot l bones Hl).
  - exists e. split; [reflexivity|]. eapply walk_raises, Hwalk.
Qed.

Lemma walk_urdf_cycle_fails_witness :
  exists e, _walk_urdf 1000 looped (bare_link "a") = Raise e /\
            (e = RecursionError \/ e = TypeError \/
             exists key, e = KeyError key /\ link_map looped !! key = None).
Proof.
  apply (walk_urdf_cycle_fails looped (fun l => l = bare_link "a")); [|reflexivity].
  intros l ->. exists (bare_link "a"). split; [|reflexivity].
  eexists. split; [left|]. split; reflexivity.
Defined.

(** X3: A joint under the link whose child link [link_map] does not have: the
    walk raises the [KeyError] of such a link at once, before it builds any
    node, whatever the recursion depth it is given. *)
Theorem walk_urdf_undeclared_child (depth : nat) (urdf : Robot) (link : ULink) :
  (exists joint, joint ∈ joints urdf /\ uj_parent joint = ul_name link /\
                 link_map urdf !! uj_child joint = None) ->
  exists key, _walk_urdf (S depth) urdf link = Raise (KeyError key) /\
              link_map urdf !! key = None.
Proof.
  intros (joint & Hin & Hparent & Hnone).
  destruct (lookup_children_missing urdf
              (filter (fun joint => uj_parent joint = ul_name link) (joints urdf)))
    as (key & Hraise & Hkey).
  { exists joint. split; [|exact Hnone]. apply list_elem_of_filter. now split. }
  exists key. split; [|exact Hkey].
  rewrite _walk_urdf_unfold. unfold _get_urdf_connections. now rewrite Hraise.
Qed.

Lemma walk_urdf_undeclared_child_witness :
  exists key, _walk_urdf 1 dangling (bare_link "base") = Raise (KeyError key) /\
              link_map dangling !! key = None.
Proof.
  apply (walk_urdf_undeclared_child 0 dangling (bare_link "base")).
  eexists. split; [left|]. split; reflexivity.
Defined.

Lemma walk_loop_deeper (depth : nat) (urdf : Robot) :
  (forall link bones, _walk_urdf depth urdf link = Ok bones ->
                      _walk_urdf (S depth) urdf link = Ok bones) ->
  forall conns bones,
    walk_loop depth urdf conns = Ok bones -> walk_loop (S depth) urdf conns = Ok bones.
Proof.
  intros IH. induction conns as [|[j l] conns IHconns]; intros bones H; [exact H|].
  simpl in H. run_result.
  destruct (URDFJoint_init j l) as [b0|] eqn:Hb0; [|discriminate].
  destruct (_walk_urdf depth urdf l) as [kids|] eqn:Hkids; [|discriminate].
  destruct (walk_loop depth urdf conns) as [bones'|] eqn:Hrest; [|discriminate].
  change (walk_loop (S depth) urdf ((j, l) :: conns)) with
    (bone ← URDFJoint_init j l;
     kids ← _walk_urdf (S depth) urdf l;
     let bone := set_children kids bone in
     bones ← walk_loop (S depth) urdf conns; Ok (bone :: bones)).
  run_result. rewrite Hb0, (IH _ _ Hkids), (IHconns _ eq_refl). exact H.
Qed.

(** X4: The recursion depth does not shape the tree: the tree the walk returns
    within some depth is the one it returns within any greater depth. *)
Theorem walk_urdf_deeper (depth extra : nat) (urdf : Robot) (link : ULink)
    (bones : list URDFJoint) :
  _walk_urdf depth urdf link = Ok bones ->
  _walk_urdf (depth + extra) urdf link = Ok bones.
Proof.
  assert (Hstep : forall depth link bones,
             _walk_urdf depth urdf link = Ok bones ->
             _walk_urdf (S depth) urdf link = Ok bones).
  { clear. induction depth as [|depth IH]; intros link bones H; [discriminate|].
    rewrite _walk_urdf_unfold in *. run_result.
    destruct (_get_urdf_connections urdf link) as [conns|]; [|discriminate].
    now apply walk_loop_deeper. }
  intros H. induction extra as [|extra IH].
  - now rewrite Nat.add_0_r.
  - rewrite Nat.add_succ_r. now apply Hstep.
Qed.

Lemma walk_urdf_deeper_witness :
  _walk_urdf (3 + 997) two_joints (bare_link "base") = Ok [shoulder_node].
Proof.
  apply (walk_urdf_deeper 3 997 two_joints (bare_link "base") [shoulder_node]).
  vm_compute. reflexivity.
Defined.

(** ** Pass 1 over the roots *)

Lemma tree_names_unfold (n : URDFJoint) :
  tree_names n = j_name n :: forest_names (children n).
Proof. destruct n; reflexivity. Qed.

Lemma annotated_bone_names :
  forall parent n n',
    annotated bone_of_node parent n n' ->
    map eb_name (bones_of n') = tree_names n /\ tree_names n' = tree_names n.
Proof.
  fix IH 4.
  intros parent n n' [parent0 n0 n0' b Hb Hname Hxyz Hrot HP Hkids].
  rewrite bones_of_unfold, !tree_names_unfold, Hb, Hname.
  assert (Hforest : map eb_name (bones_of_list (children n0')) = forest_names (children n0) /\
                    forest_names (children n0') = forest_names (children n0)).
  { clear Hb. induction Hkids as [|c c' cs cs' Hc _ IHkids]; [now split|].
    destruct (IH _ _ _ Hc) as [Hc1 Hc2]. destruct IHkids as [Hcs1 Hcs2].
    simpl. rewrite map_app, Hc1, Hc2. fold bones_of_list. fold forest_names.
    now rewrite Hcs1, Hcs2. }
  destruct Hforest as [H1 H2]. simpl. rewrite H1, H2, HP. now split.
Qed.

(** X5: Pass 1 over the roots cannot fail.  It adds to the armature one bone for
    each joint of the trees, named after the joint, a node before its
    children and the trees in their order, and changes nothing else of the
    host: not the bones there were, nor the scene, the materials or the
    output. *)
Theorem pass1_one_bone_per_joint (rs : list URDFJoint) (w : World) :
  exists rs' added,
    for_roots build_editmode rs w =
      (Ok rs', set_armature (set_edit_bones (fun bs => bs ++ added)) w) /\
    map eb_name added = forest_names rs /\
    forest_names rs' = forest_names rs /\
    length added = length (forest_names rs).
Proof.
  destruct (for_roots_editmode_ok rs w) as (rs' & Hrun & Hanns).
  exists rs', (bones_of_list rs'). split; [exact Hrun|].
  assert (Hnames : map eb_name (bones_of_list rs') = forest_names rs /\
                   forest_names rs' = forest_names rs).
  { clear Hrun. induction Hanns as [|r r' rs rs' Hr _ IH]; [now split|].
    destruct (annotated_bone_names _ _ _ Hr) as [H1 H2]. destruct IH as [H3 H4].
    simpl. rewrite map_app, H1, H2. fold bones_of_list. fold forest_names.
    now rewrite H3, H4. }
  destruct Hnames as [H1 H2]. split; [exact H1|]. split; [exact H2|].
  now rewrite <- H1, length_map.
Qed.

(** ** What pass 2 keeps *)

Section Preserves.

Context (R : World -> World -> Prop) `{!Reflexive R} `{!Transitive R}.

Lemma preserves_ret {A} (a : A) : preserves R (mret a : M A).
Proof. intros w r w' [= <- <-]. reflexivity. Qed.

Lemma preserves_raise {A} (e : exn) : preserves R (raise e : M A).
Proof. intros w r w' [= <- <-]. reflexivity. Qed.

Lemma preserves_get : preserves R get.
Proof. intros w r w' [= <- <-]. reflexivity. Qed.

Lemma preserves_fun {A} (c : M A) : (forall w, R w (c w).2) -> preserves R c.
Proof. intros Hc w r w' Hrun. specialize (Hc w). now rewrite Hrun in Hc. Qed.

Lemma preserves_bind {A B} (c : M A) (k : A -> M B) :
  preserves R c -> (forall a, preserves R (k a)) -> preserves R (c ≫= k).
Proof.
  intros Hc Hk w r w' Hrun.
  apply bind_inv in Hrun as [(a & w1 & Hcw & Hkw)|(e & Hcw & _)].
  - transitivity w1; [eapply Hc, Hcw | eapply Hk, Hkw].
  - eapply Hc, Hcw.
Qed.

Lemma preserves_for_each {A} (body : A -> M unit) (xs : list A) :
  (forall x, preserves R (body x)) -> preserves R (for_each xs body).
Proof.
  intros Hbody. induction xs as [|x xs IH]; simpl.
  - apply (preserves_ret tt).
  - apply preserves_bind; [apply Hbody | intros _; exact IH].
Qed.

End Preserves.

#[local] Instance same_pose_refl : Reflexive same_pose.
Proof. intros w. reflexivity. Qed.

#[local] Instance same_pose_trans : Transitive same_pose.
Proof. intros w1 w2 w3 H12 H23. unfold same_pose in *. congruence. Qed.

Lemma locks_kept_refl (p : PoseBone) : locks_kept p p.
Proof. now repeat split. Qed.

#[local] Instance pose_grows_refl : Reflexive pose_grows.
Proof.
  intros w key. destruct (pose_bones (w_armature w) !! key) as [p|]; [|reflexivity].
  exists p. split; [reflexivity | apply locks_kept_refl].
Qed.

#[local] Instance pose_grows_trans : Transitive pose_grows.
Proof.
  intros w1 w2 w3 H12 H23 key. specialize (H12 key). specialize (H23 key).
  destruct (pose_bones (w_armature w1) !! key) as [p1|].
  - destruct H12 as (p2 & Hp2 & H12). rewrite Hp2 in H23.
    destruct H23 as (p3 & Hp3 & H23). exists p3. split; [exact Hp3|].
    destruct H12 as (A1 & A2 & A3), H23 as (B1 & B2 & B3). repeat split; auto.
  - now rewrite H12 in H23.
Qed.

Lemma same_pose_grows (w w' : World) : same_pose w w' -> pose_grows w w'.
Proof.
  intros Hsame key. unfold same_pose in Hsame. rewrite Hsame.
  destruct (pose_bones (w_armature w) !! key) as [p|]; [|reflexivity].
  exists p. split; [reflexivity | apply locks_kept_refl].
Qed.

Lemma preserves_weaken {A} (R R' : World -> World -> Prop) (c : M A) :
  (forall w w', R w w' -> R' w w') -> preserves R c -> preserves R' c.
Proof. intros HR Hc w r w' Hrun. eapply HR, Hc, Hrun. Qed.

Lemma update_obj_same_pose (v : nat) (f : Obj -> Obj) :
  preserves same_pose (update_obj v f).
Proof. now apply preserves_fun. Qed.

Lemma create_objects_by_link_same_pose (link : URDFLink) :
  preserves same_pose (create_objects_by_link link).
Proof.
  intros w r w' Hrun.
  destruct (create_objects_by_link_ok link w) as (vs & w1 & Hok & (Harm & _) & _).
  rewrite Hok in Hrun. injection Hrun as _ <-. unfold same_pose. now rewrite Harm.
Qed.

Lemma rescale_object_same_pose (geometry : option Geometry) (v : nat) :
  preserves same_pose (rescale_object geometry v).
Proof.
  intros w r w' Hrun.
  destruct (rescale_object_keeps geometry v w) as (w1 & Hok & Harm & _).
  rewrite Hok in Hrun. injection Hrun as _ <-. unfold same_pose. now rewrite Harm.
Qed.

Lemma add_material_same_pose (self : URDFJoint) (v : nat) :
  preserves same_pose (URDFJoint_add_material self v).
Proof.
  intros w r w' Hrun.
  destruct (add_material_keeps_placement self v w) as [Harm _].
  rewrite Hrun in Harm. simpl in Harm. unfold same_pose. now rewrite Harm.
Qed.

Lemma add_link_frame_same_pose (self : URDFJoint) (joint : option URDFJoint)
    (xyz : option Vector) (rot : option Quaternion) :
  preserves same_pose (add_link_frame self joint xyz rot).
Proof.
  unfold add_link_frame.
  destruct (l_visual (j_link self)) as [visual|]; [|apply (preserves_ret _ tt)].
  apply (preserves_bind _); [apply create_objects_by_link_same_pose|].
  intros visuals. apply (preserves_for_each _). intros v.
  apply (preserves_bind _); [now apply preserves_fun; intros w; unfold get_bone;
                             destruct (bones _ !! _)|].
  intros bone. apply (preserves_bind _); [apply update_obj_same_pose|]. intros _.
  apply (preserves_bind _).
  { destruct xyz as [x|], rot as [q|];
      first [apply update_obj_same_pose | apply (preserves_ret _ tt)]. }
  intros _. apply (preserves_bind _); [apply update_obj_same_pose|]. intros _.
  apply (preserves_bind _); [apply rescale_object_same_pose|]. intros _.
  apply (preserves_bind _); [apply add_material_same_pose|]. intros _.
  apply (preserves_bind _); [now apply preserves_fun; intros w; unfold get_bone;
                             destruct (bones _ !! _)|].
  intros _. apply (preserves_bind _); [now apply preserves_fun|]. intros _.
  apply (preserves_bind _); [apply (preserves_get _)|]. intros w0.
  apply (preserves_bind _); [apply update_obj_same_pose|]. intros _.
  apply (preserves_bind _); [apply update_obj_same_pose|]. intros _.
  apply update_obj_same_pose.
Qed.

Lemma build_objectmode_found (self : URDFJoint) (parent : option URDFJoint)
    (w : World) (p : PoseBone) :
  is_empty (children self) && String.eqb (j_type self) FIXED = false ->
  pose_bones (w_armature w) !! j_name self = Some p ->
  build_objectmode self parent w =
  (_ ← (if is_empty (children self) then mret tt
        else
          _ ← update_posebone (j_name self) (set_lock_location (true, true, true));
          _ ← update_posebone (j_name self) (set_lock_rotation (true, true, true));
          update_posebone (j_name self) (set_lock_scale (true, true, true)));
   build_objectmode_tail (set_posebone (Some (j_name self)) self) (j_name self)) w.
Proof.
  intros Hkind Hp. rewrite build_objectmode_unfold, Hkind.
  erewrite bind_Ok by reflexivity. rewrite Hp. destruct self; reflexivity.
Qed.

Lemma update_posebone_grows (key : string) (f : PoseBone -> PoseBone) :
  (forall p, locks_kept p (f p)) -> preserves pose_grows (update_posebone key f).
Proof.
  intros Hf. apply (preserves_fun _). intros w key'. simpl.
  rewrite lookup_alter. destruct (decide (key = key')) as [->|Hne].
  - destruct (pose_bones (w_armature w) !! key') as [p|]; [|reflexivity].
    exists (f p). split; [reflexivity | apply Hf].
  - destruct (pose_bones (w_armature w) !! key') as [p|]; [|reflexivity].
    exists p. split; [reflexivity | apply locks_kept_refl].
Qed.

Lemma print_grows (msg : string) : preserves pose_grows (print msg).
Proof. apply (preserves_fun _). intros w. apply same_pose_grows. reflexivity. Qed.

Ltac grows_updates :=
  repeat first
    [ apply (preserves_ret _ tt)
    | apply update_posebone_grows; intros ?; now repeat split
    | apply (preserves_bind _); [|intros _] ].

Lemma configure_joint_grows (self : URDFJoint) (posebone : string) :
  preserves pose_grows (configure_joint self posebone).
Proof.
  unfold configure_joint. destruct (j_axis self) as [axis|]; [|apply (preserves_ret _ tt)].
  apply (preserves_bind _); [apply print_grows|]. intros _.
  destruct (float_truth (vx axis)); [|destruct (float_truth (vy axis));
                                      [|destruct (float_truth (vz axis))]];
    destruct (j_limit self); grows_updates.
Qed.

Lemma build_objectmode_children_grows (self : URDFJoint) (cs : list URDFJoint) :
  Forall (fun c => forall parent, preserves pose_grows (build_objectmode c parent)) cs ->
  preserves pose_grows (build_objectmode_children self cs).
Proof.
  induction 1 as [|c cs Hc _ IH]; simpl.
  - apply (preserves_ret _ []).
  - apply (preserves_bind _); [apply Hc|]. intros c'.
    apply (preserves_bind _); [exact IH|]. intros cs'. apply (preserves_ret _ _).
Qed.

Lemma build_objectmode_tail_grows (self : URDFJoint) (posebone : string) :
  Forall (fun c => forall parent, preserves pose_grows (build_objectmode c parent))
         (children self) ->
  preserves pose_grows (build_objectmode_tail self posebone).
Proof.
  intros IH. unfold build_objectmode_tail.
  do 3 (apply (preserves_bind _);
        [apply update_posebone_grows; intros ?; now repeat split|]; intros _).
  apply (preserves_bind _); [apply configure_joint_grows|]. intros _.
  apply (preserves_bind _).
  { eapply preserves_weaken; [exact same_pose_grows | apply add_link_frame_same_pose]. }
  intros _. apply (preserves_bind _); [now apply build_objectmode_children_grows|].
  intros kids. apply (preserves_ret _ _).
Qed.

Lemma build_objectmode_grows (self : URDFJoint) :
  forall parent, preserves pose_grows (build_objectmode self parent).
Proof.
  induction self as [name type xyz rot link axis limit cs eb pb IH]
    using URDFJoint_tree_ind.
  intros parent. rewrite build_objectmode_unfold.
  set (self := mkURDFJoint name type xyz rot link axis limit cs eb pb) in *.
  destruct (is_empty (children self) && String.eqb (j_type self) FIXED).
  - destruct parent as [p|]; [|apply (preserves_ret _ _)].
    apply (preserves_bind _); [|intros _; apply (preserves_ret _ _)].
    eapply preserves_weaken; [exact same_pose_grows | apply add_link_frame_same_pose].
  - apply (preserves_bind _); [apply (preserves_get _)|]. intros w0.
    destruct (pose_bones (w_armature w0) !! j_name self).
    + cbv zeta. apply (preserves_bind _).
      { destruct (is_empty (children (set_posebone (Some (j_name self)) self)));
          grows_updates. }
      intros _. apply (build_objectmode_tail_grows _ (j_name self)). exact IH.
    + apply (preserves_bind _); [apply print_grows|]. intros _. apply (preserves_ret _ _).
Qed.

Lemma pose_grows_is_Some (w w' : World) (key : string) :
  pose_grows w w' ->
  is_Some (pose_bones (w_armature w) !! key) ->
  is_Some (pose_bones (w_armature w') !! key).
Proof.
  intros Hgrows [p Hp]. specialize (Hgrows key). rewrite Hp in Hgrows.
  destruct Hgrows as (p' & Hp' & _). eauto.
Qed.

(** X6: Pass 2 locks the node that has children and is not undone by what comes
    after: when pass 2 has gone through a node with children whose pose bone
    the armature has, and through all that is under it, the location, the
    rotation and the scale of that pose bone are locked on every axis. *)
Theorem internal_joint_locked (self : URDFJoint) (parent : option URDFJoint)
    (w w' : World) (self' : URDFJoint) :
  is_empty (children self) = false ->
  is_Some (pose_bones (w_armature w) !! j_name self) ->
  build_objectmode self parent w = (Ok self', w') ->
  exists p,
    pose_bones (w_armature w') !! j_name self = Some p /\
    lock_location p = (true, true, true) /\
    lock_rotation p = (true, true, true) /\
    lock_scale p = (true, true, true).
Proof.
  intros Hchildren [p Hp] Hrun.
  rewrite (build_objectmode_found self parent w p) in Hrun; [|now rewrite Hchildren|exact Hp].
  rewrite Hchildren in Hrun.
  apply bind_Ok_inv in Hrun as ([] & w1 & Hlocks & Htail).
  assert (Hp1 : exists p1, pose_bones (w_armature w1) !! j_name self = Some p1 /\
                           lock_location p1 = all_locked /\
                           lock_rotation p1 = all_locked /\
                           lock_scale p1 = all_locked).
  { revert Hlocks. step. intros [= <-]. fields.
    rewrite !lookup_alter_eq, Hp. eexists. split; [reflexivity|]. now repeat split. }
  destruct Hp1 as (p1 & Hp1 & Hloc & Hrot & Hscale).
  pose proof (build_objectmode_tail_grows _ _
                (proj2 (Forall_forall _ _) (fun c _ => build_objectmode_grows c))
                _ _ _ Htail (j_name self)) as Hgrows.
  rewrite Hp1 in Hgrows. destruct Hgrows as (p' & Hp' & H1 & H2 & H3).
  exists p'. split; [exact Hp'|]. auto.
Qed.

Lemma internal_joint_locked_witness :
  exists self' w' p,
    build_objectmode arm_node None hinge_bone_world = (Ok self', w') /\
    pose_bones (w_armature w') !! "hinge" = Some p /\
    lock_location p = (true, true, true) /\
    lock_rotation p = (true, true, true) /\
    lock_scale p = (true, true, true).
Proof.
  destruct (build_objectmode arm_node None hinge_bone_world) as [[self'|e] w'] eqn:Hrun.
  - destruct (internal_joint_locked arm_node None hinge_bone_world w' self' eq_refl)
      as (p & Hp); [eexists; reflexivity | exact Hrun |].
    exists self', w', p. split; [reflexivity | exact Hp].
  - vm_compute in Hrun. discriminate.
Defined.

(** ** Pass 2 finds the bones of pass 1 *)

Lemma tree_names_head (n : URDFJoint) : j_name n ∈ tree_names n.
Proof. rewrite tree_names_unfold. left. Qed.

Lemma build_objectmode_children_resolved (self : URDFJoint) (cs : list URDFJoint) :
  Forall (fun c => forall parent w c' w',
            (forall name, name ∈ tree_names c ->
                          is_Some (pose_bones (w_armature w) !! name)) ->
            build_objectmode c parent w = (Ok c', w') -> resolved c') cs ->
  forall w kids w',
    (forall name, name ∈ forest_names cs -> is_Some (pose_bones (w_armature w) !! name)) ->
    build_objectmode_children self cs w = (Ok kids, w') ->
    Forall resolved kids.
Proof.
  induction 1 as [|c cs Hc _ IH]; intros w kids w' Hnames Hrun.
  - injection Hrun as <- _. constructor.
  - simpl in Hrun.
    apply bind_Ok_inv in Hrun as (c' & w1 & Hc' & Hrun).
    apply bind_Ok_inv in Hrun as (cs' & w2 & Hcs' & Hrun).
    injection Hrun as <- _. constructor.
    + eapply Hc; [|exact Hc']. intros name Hname. apply Hnames.
      simpl. apply elem_of_app. now left.
    + eapply IH; [|exact Hcs']. intros name Hname.
      eapply pose_grows_is_Some; [eapply build_objectmode_grows, Hc'|].
      apply Hnames. simpl. apply elem_of_app. now right.
Qed.

Lemma lock_steps_grows (self : URDFJoint) :
  preserves pose_grows
    (if is_empty (children self) then mret tt
     else
       _ ← update_posebone (j_name self) (set_lock_location (true, true, true));
       _ ← update_posebone (j_name self) (set_lock_rotation (true, true, true));
       update_posebone (j_name self) (set_lock_scale (true, true, true))).
Proof. destruct (is_empty (children self)); grows_updates. Qed.

Lemma build_objectmode_resolved (self : URDFJoint) :
  forall parent w self' w',
    (forall name, name ∈ tree_names self -> is_Some (pose_bones (w_armature w) !! name)) ->
    build_objectmode self parent w = (Ok self', w') ->
    resolved self'.
Proof.
  induction self as [name type xyz rot link axis limit cs eb pb IH]
    using URDFJoint_tree_ind.
  intros parent w self' w' Hnames Hrun.
  set (self := mkURDFJoint name type xyz rot link axis limit cs eb pb) in *.
  destruct (is_empty (children self) && String.eqb (j_type self) FIXED) eqn:Hkind.
  - rewrite build_objectmode_unfold, Hkind in Hrun. destruct parent as [p|].
    + apply bind_Ok_inv in Hrun as ([] & w1 & _ & [= <- _]).
      now apply resolved_fixed_leaf.
    + injection Hrun as <- _. now apply resolved_fixed_leaf.
  - destruct (Hnames (j_name self) (tree_names_head self)) as [p Hp].
    rewrite (build_objectmode_found self parent w p Hkind Hp) in Hrun.
    apply bind_inv in Hrun as [([] & w1 & Hlocks & Htail)|(e & _ & [=])].
    assert (Hgrows1 : pose_grows w w1).
    { revert Hlocks. apply lock_steps_grows. }
    unfold build_objectmode_tail in Htail.
    apply bind_inv in Htail as [([] & w2 & Hs1 & Htail)|(e & _ & [=])].
    apply bind_inv in Htail as [([] & w2' & Hs2 & Htail)|(e & _ & [=])].
    apply bind_inv in Htail as [([] & w2'' & Hs3 & Htail)|(e & _ & [=])].
    apply bind_inv in Htail as [([] & w3 & Hconf & Htail)|(e & _ & [=])].
    apply bind_inv in Htail as [([] & w4 & Hframe & Htail)|(e & _ & [=])].
    apply bind_inv in Htail as [(kids & w5 & Hkids & Htail)|(e & _ & [=])].
    injection Htail as <- _.
    apply resolved_node; [reflexivity|]. simpl.
    eapply build_objectmode_children_resolved; [exact IH| |exact Hkids].
    intros name' Hname'.
    eapply pose_grows_is_Some;
      [eapply same_pose_grows, add_link_frame_same_pose, Hframe|].
    eapply pose_grows_is_Some; [eapply configure_joint_grows, Hconf|].
    eapply pose_grows_is_Some;
      [refine (update_posebone_grows _ _ _ _ _ _ Hs3); intros ?; now repeat split|].
    eapply pose_grows_is_Some;
      [refine (update_posebone_grows _ _ _ _ _ _ Hs2); intros ?; now repeat split|].
    eapply pose_grows_is_Some;
      [refine (update_posebone_grows _ _ _ _ _ _ Hs1); intros ?; now repeat split|].
    eapply pose_grows_is_Some; [exact Hgrows1|].
    apply Hnames. rewrite tree_names_unfold. now right.
Qed.

Lemma annotated_forest_names (parent : option EditBone) (rs rs' : list URDFJoint) :
  Forall2 (annotated bone_of_node parent) rs rs' ->
  map eb_name (bones_of_list rs') = forest_names rs' .
Proof.
  induction 1 as [|r r' rs rs' Hr _ IH]; [reflexivity|].
  destruct (annotated_bone_names _ _ _ Hr) as [H1 H2].
  simpl. rewrite map_app, H1, H2. fold bones_of_list. fold forest_names.
  now rewrite IH.
Qed.

Lemma list_to_map_names {A} (f : EditBone -> A) (bs : list EditBone) (name : string) :
  name ∈ map eb_name bs ->
  is_Some ((list_to_map (map (fun b => (eb_name b, f b)) bs) : gmap string A) !! name).
Proof.
  induction bs as [|b bs IH]; simpl; intros Hname.
  - now apply elem_of_nil in Hname.
  - rewrite lookup_insert. destruct (decide (eb_name b = name)); [eauto|].
    apply IH. apply elem_of_cons in Hname as [Heq|Hname]; [congruence|exact Hname].
Qed.

Lemma build_base_link_same_armature (self : URDF) (w w' : World) (r : result unit) :
  build_base_link self w = (r, w') -> w_armature w' = w_armature w.
Proof.
  destruct (l_visual (base_link self)) as [visual|] eqn:Hvisual.
  - destruct (build_base_link_parents self w visual Hvisual)
      as (vs & w1 & w2 & _ & Hrun & (Harm & _) & _).
    rewrite Hrun. now intros [= _ <-].
  - unfold build_base_link. rewrite Hvisual. now intros [= _ <-].
Qed.

Lemma for_roots_objectmode_resolved (rs : list URDFJoint) :
  forall w rs' w',
    (forall name, name ∈ forest_names rs -> is_Some (pose_bones (w_armature w) !! name)) ->
    for_roots build_objectmode rs w = (Ok rs', w') ->
    Forall resolved rs'.
Proof.
  induction rs as [|root rs IH]; intros w rs' w' Hnames Hrun.
  - injection Hrun as <- _. constructor.
  - simpl in Hrun.
    apply bind_Ok_inv in Hrun as (root' & w1 & Hroot & Hrun).
    apply bind_Ok_inv in Hrun as (rest' & w2 & Hrest & Hrun).
    injection Hrun as <- _. constructor.
    + eapply build_objectmode_resolved; [|exact Hroot]. intros name Hname.
      apply Hnames. simpl. apply elem_of_app. now left.
    + eapply IH; [|exact Hrest]. intros name Hname.
      eapply pose_grows_is_Some; [eapply build_objectmode_grows, Hroot|].
      apply Hnames. simpl. apply elem_of_app. now right.
Qed.

(** X7: Within [build], pass 2 finds every bone it looks up: the tree [build]
    returns has, at every node that is not a leaf with a fixed joint, the pose
    bone of the joint's name, and so down to the leaves; the branch for a
    bone that is not in the armature is not taken. *)
Theorem build_finds_every_bone (self : URDF) (w w' : World) (built : URDF) :
  build self w = (Ok built, w') ->
  Forall resolved (roots built).
Proof.
  intros Hbuild. unfold build in Hbuild.
  apply bind_Ok_inv in Hbuild as ([] & w0 & Harm & Hbuild).
  apply bind_Ok_inv in Hbuild as ([] & w0' & [= <-] & Hbuild).
  apply bind_Ok_inv in Hbuild as (roots1 & w1 & Hpass1 & Hbuild).
  apply bind_Ok_inv in Hbuild as ([] & w2 & Hbase & Hbuild).
  apply bind_Ok_inv in Hbuild as ([] & w3 & Hmode & Hbuild).
  apply bind_Ok_inv in Hbuild as (roots2 & w4 & Hpass2 & Hbuild).
  injection Hbuild as <- _. simpl.
  destruct (for_roots_editmode_ok (roots self) w0) as (rs' & Hrun & Hanns).
  rewrite Hpass1 in Hrun. injection Hrun as -> ->.
  apply build_base_link_same_armature in Hbase.
  eapply for_roots_objectmode_resolved; [|exact Hpass2].
  intros name Hname. unfold mode_set_OBJECT in Hmode. injection Hmode as <-.
  fields. apply list_to_map_names. rewrite Hbase. fields.
  unfold add_armature in Harm. injection Harm as <-. fields.
  rewrite <- (annotated_forest_names _ _ _ Hanns) in Hname.
  exact Hname.
Qed.

Lemma build_finds_every_bone_witness :
  exists built w',
    build two_joints_robot empty_world = (Ok built, w') /\
    Forall resolved (roots built).
Proof.
  destruct (build two_joints_robot empty_world) as [[built|e] w'] eqn:Hrun.
  - exists built, w'. split; [reflexivity|].
    exact (build_finds_every_bone two_joints_robot empty_world w' built Hrun).
  - vm_compute in Hrun. discriminate.
Defined.

(** ** The registry *)

Lemma lookup_add_material (m : UMaterial) (registry : gmap string MatEntry)
    (name : string) :
  add_material m registry !! name =
  if decide (m_name m = name) then
    match registry !! name with
    | Some e => Some e
    | None => Some (entry_of m)
    end
  else registry !! name.
Proof.
  unfold add_material, entry_of. destruct (decide (m_name m = name)) as [<-|Hne].
  - destruct (registry !! m_name m) as [e|] eqn:He; [exact He|].
    destruct (m_color m), (m_texture m) as [filename|];
      try destruct (String.eqb filename EmptyString);
      repeat rewrite lookup_alter_eq; rewrite lookup_insert_eq; reflexivity.
  - destruct (registry !! m_name m) as [e|]; [reflexivity|].
    destruct (m_color m), (m_texture m) as [filename|];
      try destruct (String.eqb filename EmptyString);
      repeat rewrite lookup_alter_ne by exact Hne;
      now rewrite lookup_insert_ne by exact Hne.
Qed.

(** X8: The registry after the materials of a document have been added, in their
    order: a name that had an entry keeps it; a name that had none has the
    entry of the first material of that name in the document, if there is
    one: its colour and its texture's file name, an empty file name counting
    for none. *)
Theorem registry_first_declaration (ms : list UMaterial)
    (registry : gmap string MatEntry) (name : string) :
  foldl (fun registry mat => add_material mat registry) registry ms !! name =
  match registry !! name with
  | Some e => Some e
  | None => entry_of <$> first_named name ms
  end.
Proof.
  revert registry. induction ms as [|m ms IH]; intros registry; simpl.
  - now destruct (registry !! name).
  - rewrite IH, lookup_add_material.
    destruct (decide (m_name m = name)) as [Heq|Hne].
    + apply String.eqb_eq in Heq. rewrite Heq. now destruct (registry !! name).
    + apply String.eqb_neq in Hne. rewrite Hne. reflexivity.
Qed.

(** X9: Adding a material twice is adding it once, and materials of different
    names can be added in either order. *)
Theorem add_material_order (m1 m2 : UMaterial) (registry : gmap string MatEntry) :
  add_material m1 (add_material m1 registry) = add_material m1 registry /\
  (m_name m1 <> m_name m2 ->
   add_material m1 (add_material m2 registry) =
   add_material m2 (add_material m1 registry)).
Proof.
  split.
  - apply map_eq. intros name. rewrite !lookup_add_material.
    destruct (decide (m_name m1 = name)); [|reflexivity].
    now destruct (registry !! name).
  - intros Hne. apply map_eq. intros name. rewrite !lookup_add_material.
    destruct (decide (m_name m1 = name)), (decide (m_name m2 = name));
      try reflexivity; congruence.
Qed.

Lemma add_material_order_witness :
  add_material red (add_material blue ∅) = add_material blue (add_material red ∅).
Proof. apply (proj2 (add_material_order red blue ∅)). discriminate. Defined.

(** ** Materials of the registry and objects without materials *)

(** X10: A material that is a reference by name to an entry of the registry with a
    colour: the object gets the host material of that name, found or made,
    and that material gets the colour of the entry, without the alpha; the
    registry and the output are as they were. *)
Theorem global_material_from_registry (self : URDFJoint) (obj : nat) (w : World)
    (material : UMaterial) (e : MatEntry) (r g b a : R) (ms : list nat) :
  l_visual (j_link self) ≫= v_material = Some material ->
  m_name material <> EmptyString ->
  m_color material = None -> m_texture material = None ->
  MATERIALS w !! m_name material = Some e ->
  e_color e = Some (r, g, b, a) ->
  w_objects w !! obj ≫= o_materials = Some ms ->
  exists mat w',
    URDFJoint_add_material self obj w = (Ok tt, w') /\
    w_materials w' !! mat = Some (mkMaterial (m_name material) (Some (r, g, b))) /\
    w_objects w' !! obj ≫= o_materials = Some (ms ++ [mat]) /\
    MATERIALS w' = MATERIALS w /\
    w_log w' = w_log w.
Proof.
  intros Hmat Hname Hcolor Htexture Hentry Hrgba Hobj. unfold URDFJoint_add_material.
  rewrite Hmat. apply String.eqb_neq in Hname. rewrite Hname.
  unfold resolve_material. rewrite Hcolor, Htexture.
  unfold get_material, materials_new. step. rewrite Hentry. step. rewrite Hrgba.
  assert (Hobj' : forall mat os,
             os = w_objects w ->
             alter (set_o_materials (Some (ms ++ [mat]))) obj os !! obj ≫= o_materials =
             Some (ms ++ [mat])).
  { intros mat os ->. rewrite list_lookup_alter_eq.
    destruct (w_objects w !! obj) as [o|]; [reflexivity|discriminate]. }
  destruct (find_material (m_name material) 0 (w_materials w)) as [mat|] eqn:Hfind.
  - step. rewrite Hobj. step. exists mat. eexists. split; [reflexivity|]. fields.
    split; [|split; [now apply Hobj'|now split]].
    apply find_material_Some in Hfind as (m & Hm & Hmname & _).
    rewrite Nat.sub_0_r in Hm. rewrite list_lookup_alter_eq, Hm.
    unfold set_diffuse_color. simpl. now rewrite Hmname.
  - step. fields. rewrite Hobj. step. exists (length (w_materials w)). eexists.
    split; [reflexivity|]. fields.
    split; [|split; [now apply Hobj'|now split]].
    rewrite list_lookup_alter_eq, lookup_app_r, Nat.sub_diag by lia. reflexivity.
Qed.

Lemma global_material_from_registry_witness :
  exists mat w',
    URDFJoint_add_material (boxed_joint (Some (by_name "red"))) 0 red_registry_world =
      (Ok tt, w') /\
    w_materials w' !! mat = Some (mkMaterial "red" (Some (1, 0, 0)%R)) /\
    w_objects w' !! 0 ≫= o_materials = Some ([] ++ [mat]) /\
    MATERIALS w' = MATERIALS red_registry_world /\
    w_log w' = w_log red_registry_world.
Proof.
  apply (global_material_from_registry (boxed_joint (Some (by_name "red"))) 0
           red_registry_world (by_name "red") (mkMatEntry (Some (1, 0, 0, 1)%R) None)
           1%R 0%R 0%R 1%R []); try reflexivity.
  discriminate.
Defined.

(** X11: An object that carries no materials (an empty, a camera, a light): for a
    material with a name that is resolved, local or of the registry, the call
    returns normally whatever the colour, even none; the object and the other
    objects are as they were, the host store has the material of the name,
    made if it was not there, and no colour is set. *)
Theorem material_on_object_without_materials (self : URDFJoint) (obj : nat)
    (w : World) (material : UMaterial) :
  l_visual (j_link self) ≫= v_material = Some material ->
  m_name material <> EmptyString ->
  m_color material <> None \/ m_texture material <> None \/
    is_Some (MATERIALS w !! m_name material) ->
  w_objects w !! obj ≫= o_materials = None ->
  exists w',
    URDFJoint_add_material self obj w = (Ok tt, w') /\
    w_objects w' = w_objects w /\
    w_materials w' =
      match find_material (m_name material) 0 (w_materials w) with
      | Some _ => w_materials w
      | None => w_materials w ++ [mkMaterial (m_name material) None]
      end /\
    w_log w' = w_log w.
Proof.
  intros Hmat Hname Hresolved Hobj. unfold URDFJoint_add_material.
  rewrite Hmat. apply String.eqb_neq in Hname. rewrite Hname.
  unfold resolve_material, get_material, materials_new.
  destruct (m_color material) as [[[[r g] b] a]|], (m_texture material) as [t|];
    step; fields;
    try (destruct (MATERIALS w !! m_name material) as [e|] eqn:He;
         [|destruct Hresolved as [H|[H|[? H]]]; congruence]; step; fields);
    (destruct (find_material (m_name material) 0 (w_materials w)) as [mat|];
     step; fields; rewrite Hobj; eexists; (split; [reflexivity|]); now fields).
Qed.

Lemma material_on_object_without_materials_witness :
  exists w',
    URDFJoint_add_material (boxed_joint (Some textured)) 0 empty_object_world =
      (Ok tt, w') /\
    w_objects w' = w_objects empty_object_world /\
    w_materials w' = [mkMaterial "wood" None] /\
    w_log w' = w_log empty_object_world.
Proof.
  apply (material_on_object_without_materials (boxed_joint (Some textured)) 0
           empty_object_world textured).
  - reflexivity.
  - discriminate.
  - right. left. discriminate.
  - reflexivity.
Defined.

(** ** The objects of a link *)

Lemma handles_lookup (flags : list bool) :
  forall i v, v ∈ handles i flags -> exists k, v = i + k /\ flags !! k = Some true.
Proof.
  induction flags as [|flag flags IH]; intros i v Hv; simpl in Hv.
  - now apply elem_of_nil in Hv.
  - destruct flag.
    + apply elem_of_cons in Hv as [->|Hv].
      * exists 0. split; [lia|reflexivity].
      * destruct (IH _ _ Hv) as (k & -> & Hk). exists (S k). split; [lia|exact Hk].
    + destruct (IH _ _ Hv) as (k & -> & Hk). exists (S k). split; [lia|exact Hk].
Qed.

Lemma create_objects_by_link_run (link : URDFLink) (w w' : World) (vs : list nat) :
  create_objects_by_link link w = (Ok vs, w') ->
  NoDup vs /\
  (forall u, u < length (w_objects w) -> w_objects w' !! u = w_objects w !! u) /\
  (forall v, v ∈ vs ->
     length (w_objects w) <= v /\
     exists o, w_objects w' !! v = Some o /\ placed w link o) /\
  (is_mesh (l_visual link ≫= v_geometry) = false ->
   vs = [length (w_objects w)] /\
   length (w_objects w') = S (length (w_objects w)) /\
   exists o, w_objects w' !! length (w_objects w) = Some o /\ o_name o = l_name link).
Proof.
  rewrite create_objects_by_link_exact. intros [= <- <-].
  destruct (produced_handles_bounds w link) as [Hnodup Hbounds].
  rewrite scene_with_objects.
  split; [exact Hnodup|]. split; [|split].
  - intros u Hu. now apply lookup_app_l.
  - intros v Hv. split; [now apply Hbounds|].
    apply handles_lookup in Hv as (k & -> & Hk).
    rewrite lookup_app_r, Nat.add_comm, Nat.add_sub by lia.
    rewrite list_lookup_fmap in Hk.
    destruct (added w link !! k) as [o|] eqn:Ho; [|discriminate].
    injection Hk as Hk. rewrite (list_lookup_fmap _ (added w link)), Ho. simpl.
    rewrite Hk. eexists. split; [reflexivity|]. now exists (shaped link o).
  - intros Hmesh. destruct (produced_handles_one w link Hmesh) as (-> & o & -> & Ho).
    split; [reflexivity|]. simpl. rewrite Ho.
    split; [rewrite length_app; simpl; lia|].
    rewrite lookup_app_r, Nat.sub_diag by lia. eexists. split; [reflexivity|].
    unfold shaped.
    destruct (l_visual link ≫= v_geometry) as [[filename scale|size|radius len|radius]|];
      [discriminate|..]; reflexivity.
Qed.

(** X12: [create_objects_by_link] cannot fail and leaves the objects that were in
    the scene as they were.  Every object it returns is a new one, in
    quaternion mode, with the link's orientation, its origin where the host
    recentres the object once set at the link's position.  For a geometry
    that is not a mesh file (a box, a cylinder, a sphere, or none) it returns
    one object, the only one added to the scene, named after the link. *)
Theorem create_objects_by_link_new (link : URDFLink) (w : World) :
  exists vs w',
    create_objects_by_link link w = (Ok vs, w') /\
    NoDup vs /\
    (forall u, u < length (w_objects w) -> w_objects w' !! u = w_objects w !! u) /\
    (forall v, v ∈ vs ->
       length (w_objects w) <= v /\
       exists o, w_objects w' !! v = Some o /\ placed w link o) /\
    (is_mesh (l_visual link ≫= v_geometry) = false ->
     vs = [length (w_objects w)] /\
     length (w_objects w') = S (length (w_objects w)) /\
     exists o, w_objects w' !! length (w_objects w) = Some o /\ o_name o = l_name link).
Proof.
  destruct (create_objects_by_link_ok link w) as (vs & w' & Hrun & _).
  exists vs, w'. split; [exact Hrun|]. now apply create_objects_by_link_run.
Qed.

Lemma create_objects_by_link_new_witness :
  exists w' o,
    create_objects_by_link box_link cube_world = (Ok [1], w') /\
    length (w_objects w') = 2 /\
    w_objects w' !! 1 = Some o /\ o_name o = "crate".
Proof.
  destruct (create_objects_by_link_new box_link cube_world)
    as (vs & w' & Hrun & _ & _ & _ & Hone).
  destruct (Hone eq_refl) as (-> & Hlen & o & Ho & Hname).
  exists w', o. auto.
Defined.

(** X13: A mesh file whose name has neither ".dae" nor ".stl" in it: nothing is
    imported and no object is returned, so that [add_link_frame] for a joint
    of such a link attaches nothing and does not even look for a bone: the
    host is as it was. *)
Theorem unsupported_mesh_makes_nothing (self : URDFJoint) (joint : option URDFJoint)
    (xyz : option Vector) (rot : option Quaternion) (w : World)
    (filename : string) (scale : option Vector) :
  l_visual (j_link self) ≫= v_geometry = Some (Mesh filename scale) ->
  contains ".dae" filename = false ->
  contains ".stl" filename = false ->
  create_objects_by_link (j_link self) w = (Ok [], w) /\
  add_link_frame self joint xyz rot w = (Ok tt, w).
Proof.
  intros Hgeometry Hdae Hstl.
  assert (Hcreate : create_objects_by_link (j_link self) w = (Ok [], w)).
  { unfold create_objects_by_link. rewrite Hgeometry, Hdae, Hstl.
    destruct scale; now destruct w. }
  split; [exact Hcreate|]. rewrite add_link_frame_unfold.
  destruct (l_visual (j_link self)) as [visual|]; [|discriminate].
  cbv zeta. now erewrite bind_Ok by exact Hcreate.
Qed.

Lemma unsupported_mesh_makes_nothing_witness :
  create_objects_by_link (j_link obj_mesh_joint) cube_world = (Ok [], cube_world) /\
  add_link_frame obj_mesh_joint None None None cube_world = (Ok tt, cube_world).
Proof.
  apply (unsupported_mesh_makes_nothing obj_mesh_joint None None None cube_world
           "package://robot/shell.obj" None); reflexivity.
Defined.

(** X14: For a link with a visual that is not a mesh file, [add_link_frame] makes
    the object first and looks for the bone after: where the armature has no
    bone of the name of the joint to attach to, the call raises the
    [KeyError] of that name, and the object it has made stays in the scene. *)
Theorem add_link_frame_missing_bone (self : URDFJoint) (joint : option URDFJoint)
    (xyz : option Vector) (rot : option Quaternion) (w : World) (visual : Visual) :
  l_visual (j_link self) = Some visual ->
  is_mesh (v_geometry visual) = false ->
  bones (w_armature w) !! j_name (default self joint) = None ->
  exists w1,
    create_objects_by_link (j_link self) w = (Ok [length (w_objects w)], w1) /\
    length (w_objects w1) = S (length (w_objects w)) /\
    add_link_frame self joint xyz rot w =
      (Raise (KeyError (j_name (default self joint))), w1).
Proof.
  intros Hvisual Hmesh Hbone.
  destruct (create_objects_by_link_ok (j_link self) w)
    as (vs & w1 & Hcreate & (Harm & _) & _).
  destruct (create_objects_by_link_run _ _ _ _ Hcreate) as (_ & _ & _ & Hone).
  destruct Hone as (-> & Hlen & _); [now rewrite Hvisual|].
  exists w1. split; [exact Hcreate|]. split; [exact Hlen|].
  rewrite add_link_frame_unfold, Hvisual. cbv zeta.
  erewrite bind_Ok by exact Hcreate. simpl.
  assert (Hget : get_bone (j_name (default self joint)) w1 =
                 (Raise (KeyError (j_name (default self joint))), w1)).
  { unfold get_bone. now rewrite Harm, Hbone. }
  destruct joint as [j|]; simpl in *;
    (erewrite bind_Raise; [reflexivity|]);
    unfold add_link_frame_body; now erewrite bind_Raise by exact Hget.
Qed.

Lemma add_link_frame_missing_bone_witness :
  exists w1,
    create_objects_by_link (j_link fixed_leaf) cube_world = (Ok [1], w1) /\
    length (w_objects w1) = 2 /\
    add_link_frame fixed_leaf (Some hinge) None None cube_world =
      (Raise (KeyError "hinge"), w1).
Proof.
  apply (add_link_frame_missing_bone fixed_leaf (Some hinge) None None cube_world
           (mkVisual None (Some (Box (mkVector 2 1 1))) None)); reflexivity.
Defined.

(** ** The shape of an attached object *)

Lemma add_material_objects (self : URDFJoint) (v : nat) (w : World) :
  let w' := (URDFJoint_add_material self v w).2 in
  w_armature w' = w_armature w /\
  (w_objects w' = w_objects w \/
   exists ms, w_objects w' = alter (set_o_materials ms) v (w_objects w)).
Proof.
  unfold URDFJoint_add_material.
  destruct (l_visual (j_link self) ≫= v_material) as [material|]; [|now split; [|left]].
  destruct (String.eqb (m_name material) EmptyString); [now split; [|left]|].
  unfold resolve_material, get_material, materials_new.
  destruct (m_color material) as [[[[r g] b] a]|], (m_texture material) as [t|];
    step; fields;
    try (destruct (MATERIALS w !! m_name material) as [[[[[[r g] b] a]|] et]|];
         step; fields; [| |now split; [|left]]);
    (destruct (find_material (m_name material) 0 (w_materials w)) as [mat|];
     step; fields;
     destruct (w_objects w !! v ≫= o_materials); step; fields; step; fields;
     (split; [reflexivity|]); first [now left | right; eexists; reflexivity]).
Qed.

Lemma rescale_object_run (geometry : option Geometry) (v : nat) (w : World) :
  exists h : Obj -> Obj,
    rescale_object geometry v w = (Ok tt, set_objects (alter h v) w) /\
    forall o, dimensions (h o) = shape_dimensions geometry (dimensions o) /\
              o_name (h o) = o_name o.
Proof.
  destruct geometry as [[filename [scale|]|size|radius len|radius]|]; simpl;
    try (eexists; split; [reflexivity|]; now split);
    (exists (fun o => o); split; [|now split]);
    unfold set_objects; destruct w; simpl; now rewrite list_alter_id.
Qed.

Lemma add_link_frame_body_shape (self joint : URDFJoint) (xyz : option Vector)
    (rot : option Quaternion) (visual : Visual) (v : nat) (w w' : World) (o0 : Obj) :
  add_link_frame_body self joint xyz rot visual v w = (Ok tt, w') ->
  w_objects w !! v = Some o0 ->
  (forall u, u <> v -> w_objects w' !! u = w_objects w !! u) /\
  exists o,
    w_objects w' !! v = Some o /\
    o_name o = o_name o0 /\
    dimensions o = shape_dimensions (v_geometry visual) (dimensions o0) /\
    parent_bone o = j_name joint /\
    parent_type o = "BONE".
Proof.
  unfold add_link_frame_body. intros Hrun Ho0.
  apply bind_Ok_inv in Hrun as (bone & w0 & Hbone & Hrun).
  assert (w0 = w) as ->.
  { unfold get_bone in Hbone. destruct (bones _ !! _); now injection Hbone. }
  apply bind_Ok_inv in Hrun as ([] & w1 & [= <-] & Hrun).
  apply bind_Ok_inv in Hrun as ([] & w2 & Hoffset & Hrun).
  assert (Hw2 : exists f : Obj -> Obj,
             w2 = set_objects (alter f v) w /\
             forall o, dimensions (f o) = dimensions o /\ o_name (f o) = o_name o).
  { destruct xyz as [x|]; [destruct rot as [q|]|];
      injection Hoffset as <-; unfold set_objects; simpl;
      rewrite ?list_alter_alter_eq; eexists; (split; [reflexivity|]); now split. }
  destruct Hw2 as (f & -> & Hf).
  apply bind_Ok_inv in Hrun as ([] & w3 & [= <-] & Hrun).
  destruct (rescale_object_run (v_geometry visual) v
              (set_objects (alter (set_rotation_quaternion (l_rot (j_link self))) v)
                           (set_objects (alter f v) w))) as (h & Hrescale & Hh).
  apply bind_Ok_inv in Hrun as ([] & w4 & Hrescale' & Hrun).
  rewrite Hrescale in Hrescale'. injection Hrescale' as <-.
  apply bind_Ok_inv in Hrun as ([] & w5 & Hmat & Hrun).
  match type of Hmat with
  | URDFJoint_add_material _ _ ?w4 = _ =>
    destruct (add_material_objects self v w4) as [_ Hobjs5]; set (w4' := w4) in *
  end.
  rewrite Hmat in Hobjs5. simpl in Hobjs5.
  apply bind_Ok_inv in Hrun as (bone' & w5' & Hbone' & Hrun).
  assert (w5' = w5) as ->.
  { unfold get_bone in Hbone'. destruct (bones _ !! _); now injection Hbone'. }
  apply bind_Ok_inv in Hrun as ([] & w6 & [= <-] & Hrun).
  apply bind_Ok_inv in Hrun as (w7 & w7' & [= <- <-] & Hrun).
  apply bind_Ok_inv in Hrun as ([] & w8 & [= <-] & Hrun).
  apply bind_Ok_inv in Hrun as ([] & w9 & [= <-] & Hrun).
  injection Hrun as <-. fields.
  assert (H4 : w_objects w4' =
               alter h v (alter (set_rotation_quaternion (l_rot (j_link self))) v
                                (alter f v (w_objects w)))) by reflexivity.
  assert (H5 : exists g : Obj -> Obj,
             w_objects w5 = alter g v (w_objects w4') /\
             forall o, dimensions (g o) = dimensions o /\ o_name (g o) = o_name o).
  { destruct Hobjs5 as [E|[ms E]]; rewrite E.
    - exists (fun o => o).
      split; [rewrite (list_alter_id (fun o => o)) by reflexivity; reflexivity|now split].
    - eexists. split; [reflexivity|]. now split. }
  destruct H5 as (g & -> & Hg). rewrite H4. split.
  - intros u Hu. now rewrite !list_lookup_alter_ne by congruence.
  - rewrite !list_lookup_alter_eq, Ho0. eexists. split; [reflexivity|]. simpl.
    destruct (Hg (h (set_rotation_quaternion (l_rot (j_link self)) (f o0)))) as [Hg1 Hg2].
    destruct (Hh (set_rotation_quaternion (l_rot (j_link self)) (f o0))) as [Hh1 Hh2].
    destruct (Hf o0) as [Hf1 Hf2].
    rewrite Hg1, Hg2, Hh1, Hh2. simpl. rewrite Hf1, Hf2. now repeat split.
Qed.

(** X15: The object [add_link_frame] attaches for a box, a cylinder or a sphere:
    it is the one new object of the scene, named after the link, its parent
    bone is the joint attached to, and its bounding dimensions are the size of
    the box, the diameter, diameter and length of the cylinder, or the
    diameter of the sphere on each axis; the objects that were there are as
    they were. *)
Theorem attached_object_shape (self : URDFJoint) (joint : option URDFJoint)
    (xyz : option Vector) (rot : option Quaternion) (w w' : World)
    (visual : Visual) (geometry : Geometry) :
  l_visual (j_link self) = Some visual ->
  v_geometry visual = Some geometry ->
  is_mesh (Some geometry) = false ->
  add_link_frame self joint xyz rot w = (Ok tt, w') ->
  (forall u, u < length (w_objects w) -> w_objects w' !! u = w_objects w !! u) /\
  exists o,
    w_objects w' !! length (w_objects w) = Some o /\
    o_name o = l_name (j_link self) /\
    (forall dims, dimensions o = shape_dimensions (Some geometry) dims) /\
    parent_bone o = j_name (default self joint) /\
    parent_type o = "BONE".
Proof.
  intros Hvisual Hgeometry Hmesh Hrun.
  destruct (create_objects_by_link_ok (j_link self) w) as (vs & w1 & Hcreate & _).
  destruct (create_objects_by_link_run _ _ _ _ Hcreate) as (_ & Hold & _ & Hone).
  destruct Hone as (-> & Hlen & o1 & Ho1 & Hname);
    [now rewrite Hvisual; simpl; rewrite Hgeometry|].
  rewrite add_link_frame_unfold, Hvisual in Hrun. cbv zeta in Hrun.
  erewrite bind_Ok in Hrun by exact Hcreate. simpl in Hrun.
  apply bind_Ok_inv in Hrun as ([] & w2 & Hbody & [= <-]).
  destruct (add_link_frame_body_shape _ _ _ _ _ _ _ _ _ Hbody Ho1)
    as (Hothers & o & Ho & Hname' & Hdims & Hbone & Htype).
  split.
  - intros u Hu. rewrite Hothers by lia. now apply Hold.
  - exists o. split; [exact Ho|]. split; [congruence|]. split; [|now destruct joint].
    intros dims. rewrite Hdims, Hgeometry.
    destruct geometry; try reflexivity; discriminate.
Qed.

Lemma attached_object_shape_witness :
  exists w' o,
    add_link_frame ball_joint (Some hinge) (Some (j_xyz ball_joint))
                   (Some (j_rot ball_joint)) hinge_bone_world = (Ok tt, w') /\
    w_objects w' !! 1 = Some o /\
    o_name o = "ball" /\
    dimensions o = mkVector 1 1 1 /\
    parent_bone o = "hinge".
Proof.
  destruct (add_link_frame ball_joint (Some hinge) (Some (j_xyz ball_joint))
                           (Some (j_rot ball_joint)) hinge_bone_world)
    as [[[]|e] w'] eqn:Hrun.
  - destruct (attached_object_shape ball_joint (Some hinge) _ _ _ _
                (mkVisual None (Some (Sphere (1 / 2))) None) (Sphere (1 / 2))
                eq_refl eq_refl eq_refl Hrun)
      as (_ & o & Ho & Hname & Hdims & Hbone & _).
    exists w', o. split; [reflexivity|]. split; [exact Ho|]. split; [exact Hname|].
    split; [|exact Hbone]. rewrite (Hdims vzero). simpl. f_equal; lra.
  - vm_compute in Hrun. discriminate.
Defined.

(** ** The registry during an import *)

#[local] Instance same_registry_refl : Reflexive same_registry.
Proof. intros w. reflexivity. Qed.

#[local] Instance same_registry_trans : Transitive same_registry.
Proof. intros w1 w2 w3 H12 H23. unfold same_registry in *. congruence. Qed.

Lemma add_material_same_registry (self : URDFJoint) (v : nat) :
  preserves same_registry (URDFJoint_add_material self v).
Proof.
  apply (preserves_fun _). intros w. unfold URDFJoint_add_material, same_registry.
  destruct (l_visual (j_link self) ≫= v_material) as [material|]; [|reflexivity].
  destruct (String.eqb (m_name material) EmptyString); [reflexivity|].
  unfold resolve_material, get_material, materials_new.
  destruct (m_color material) as [[[[r g] b] a]|], (m_texture material) as [t|];
    step; fields;
    try (destruct (MATERIALS w !! m_name material) as [[[[[[r g] b] a]|] et]|];
         step; fields; [| |reflexivity]);
    (destruct (find_material (m_name material) 0 (w_materials w)) as [mat|];
     step; fields;
     destruct (w_objects w !! v ≫= o_materials); step; fields; step; fields;
     reflexivity).
Qed.

Lemma create_objects_by_link_same_registry (link : URDFLink) :
  preserves same_registry (create_objects_by_link link).
Proof.
  intros w r w' Hrun.
  destruct (create_objects_by_link_ok link w) as (vs & w1 & Hok & (_ & _ & Hreg & _) & _).
  rewrite Hok in Hrun. now injection Hrun as _ <-.
Qed.

Lemma add_link_frame_same_registry (self : URDFJoint) (joint : option URDFJoint)
    (xyz : option Vector) (rot : option Quaternion) :
  preserves same_registry (add_link_frame self joint xyz rot).
Proof.
  unfold add_link_frame.
  destruct (l_visual (j_link self)) as [visual|]; [|apply (preserves_ret _ tt)].
  apply (preserves_bind _); [apply create_objects_by_link_same_registry|].
  intros visuals. apply (preserves_for_each _). intros v.
  apply (preserves_bind _); [now apply preserves_fun; intros w; unfold get_bone;
                             destruct (bones _ !! _)|].
  intros bone. apply (preserves_bind _); [now apply preserves_fun|]. intros _.
  apply (preserves_bind _).
  { destruct xyz as [x|], rot as [q|];
      first [now apply preserves_fun | apply (preserves_ret _ tt)]. }
  intros _. apply (preserves_bind _); [now apply preserves_fun|]. intros _.
  apply (preserves_bind _).
  { intros w r w' Hrun. destruct (rescale_object_run (v_geometry visual) v w)
      as (h & Hok & _). rewrite Hok in Hrun. now injection Hrun as _ <-. }
  intros _. apply (preserves_bind _); [apply add_material_same_registry|]. intros _.
  apply (preserves_bind _); [now apply preserves_fun; intros w; unfold get_bone;
                             destruct (bones _ !! _)|].
  intros _. apply (preserves_bind _); [now apply preserves_fun|]. intros _.
  apply (preserves_bind _); [apply (preserves_get _)|]. intros w0.
  do 2 (apply (preserves_bind _); [now apply preserves_fun|]; intros _).
  now apply preserves_fun.
Qed.

Ltac registry_updates :=
  repeat first
    [ apply (preserves_ret _ tt)
    | now apply preserves_fun
    | apply (preserves_bind _); [|intros _] ].

Lemma configure_joint_same_registry (self : URDFJoint) (posebone : string) :
  preserves same_registry (configure_joint self posebone).
Proof.
  unfold configure_joint. destruct (j_axis self) as [axis|]; [|apply (preserves_ret _ tt)].
  apply (preserves_bind _); [now apply preserves_fun|]. intros _.
  destruct (float_truth (vx axis)); [|destruct (float_truth (vy axis));
                                      [|destruct (float_truth (vz axis))]];
    destruct (j_limit self); registry_updates.
Qed.

Lemma build_objectmode_children_same_registry (self : URDFJoint) (cs : list URDFJoint) :
  Forall (fun c => forall parent, preserves same_registry (build_objectmode c parent)) cs ->
  preserves same_registry (build_objectmode_children self cs).
Proof.
  induction 1 as [|c cs Hc _ IH]; simpl.
  - apply (preserves_ret _ []).
  - apply (preserves_bind _); [apply Hc|]. intros c'.
    apply (preserves_bind _); [exact IH|]. intros cs'. apply (preserves_ret _ _).
Qed.

Lemma build_objectmode_same_registry (self : URDFJoint) :
  forall parent, preserves same_registry (build_objectmode self parent).
Proof.
  induction self as [name type xyz rot link axis limit cs eb pb IH]
    using URDFJoint_tree_ind.
  intros parent. rewrite build_objectmode_unfold.
  set (self := mkURDFJoint name type xyz rot link axis limit cs eb pb) in *.
  destruct (is_empty (children self) && String.eqb (j_type self) FIXED).
  - destruct parent as [p|]; [|apply (preserves_ret _ _)].
    apply (preserves_bind _); [|intros _; apply (preserves_ret _ _)].
    apply add_link_frame_same_registry.
  - apply (preserves_bind _); [apply (preserves_get _)|]. intros w0.
    destruct (pose_bones (w_armature w0) !! j_name self).
    + cbv zeta. apply (preserves_bind _).
      { destruct (is_empty (children (set_posebone (Some (j_name self)) self)));
          registry_updates. }
      intros _. do 3 (apply (preserves_bind _); [now apply preserves_fun|]; intros _).
      apply (preserves_bind _); [apply configure_joint_same_registry|]. intros _.
      apply (preserves_bind _); [apply add_link_frame_same_registry|]. intros _.
      apply (preserves_bind _); [|intros kids; apply (preserves_ret _ _)].
      apply (build_objectmode_children_same_registry _ cs IH).
    + apply (preserves_bind _); [now apply preserves_fun|]. intros _.
      apply (preserves_ret _ _).
Qed.

Lemma for_roots_same_registry (pass : URDFJoint -> option URDFJoint -> M URDFJoint)
    (rs : list URDFJoint) :
  (forall root, preserves same_registry (pass root None)) ->
  preserves same_registry (for_roots pass rs).
Proof.
  intros Hpass. induction rs as [|root rs IH]; simpl.
  - apply (preserves_ret _ []).
  - apply (preserves_bind _); [apply Hpass|]. intros root'.
    apply (preserves_bind _); [exact IH|]. intros rs'. apply (preserves_ret _ _).
Qed.

Lemma build_same_registry (self : URDF) : preserves same_registry (build self).
Proof.
  unfold build.
  apply (preserves_bind _); [now apply preserves_fun|]. intros _.
  apply (preserves_bind _); [now apply preserves_fun|]. intros _.
  apply (preserves_bind _).
  { apply for_roots_same_registry. intros root w r w' Hrun.
    destruct (build_editmode_ok root None w) as (root' & Hok & _); [easy|].
    rewrite Hok in Hrun. now injection Hrun as _ <-. }
  intros roots1. apply (preserves_bind _).
  { unfold build_base_link. destruct (l_visual (base_link self)); [|apply (preserves_ret _ tt)].
    apply (preserves_bind _); [apply create_objects_by_link_same_registry|].
    intros visuals. apply (preserves_for_each _). intros i.
    apply (preserves_bind _); [apply (preserves_get _)|]. intros w0. registry_updates. }
  intros _. apply (preserves_bind _); [now apply preserves_fun|]. intros _.
  apply (preserves_bind _).
  { apply for_roots_same_registry. intros root. apply build_objectmode_same_registry. }
  intros roots2. apply (preserves_ret _ _).
Qed.

(** X16: An import writes the registry at its start and not after: whatever comes
    of [URDF.__init__], a robot or an exception, the registry it leaves is the
    one the host's own first step left, with the materials of the document
    added in their order once the file is read; neither the walk, nor the
    passes, nor the resolution of materials write it. *)
Theorem import_registry (ComponentCreator_init : string -> string -> M unit)
    (depth : nat) (name urdf_file : string) (w : World) :
  MATERIALS (URDF_init ComponentCreator_init depth name urdf_file w).2 =
  match ComponentCreator_init name "robots" w with
  | (Ok _, w0) =>
    match w_urdf_files w0 urdf_file with
    | Ok urdf =>
      foldl (fun registry mat => add_material mat registry) (MATERIALS w0) (materials urdf)
    | Raise _ => MATERIALS w0
    end
  | (Raise _, w0) => MATERIALS w0
  end.
Proof.
  destruct (URDF_init ComponentCreator_init depth name urdf_file w) as [r w'] eqn:Hrun.
  simpl. unfold URDF_init in Hrun.
  apply bind_inv in Hrun as [([] & w0 & -> & Hrun)|(e & -> & ->)]; [|reflexivity].
  cbv zeta in Hrun. unfold from_xml_file in Hrun.
  apply bind_inv in Hrun as [(urdf & w1 & Hread & Hrun)|(e & Hread & ->)];
    injection Hread as Hread <-; rewrite Hread; [|reflexivity].
  apply bind_inv in Hrun as [([] & w2 & [= <-] & Hrun)|(e & [=] & _)].
  assert (Hrest : forall c : M URDF, preserves same_registry c ->
                                     c (set_MATERIALS
                                          (fun ms => foldl (fun ms mat => add_material mat ms)
                                                           ms (materials urdf)) w0) = (r, w') ->
                                     MATERIALS w' =
                                     foldl (fun registry mat => add_material mat registry)
                                           (MATERIALS w0) (materials urdf)).
  { intros c Hc Hcw. apply Hc in Hcw. exact Hcw. }
  eapply Hrest; [|exact Hrun].
  assert (Hlink : forall n, preserves same_registry (get_link urdf n)).
  { intros n. unfold get_link. destruct (link_map urdf !! n);
      [apply (preserves_ret _ _) | apply (preserves_raise _ _)]. }
  apply (preserves_bind _); [apply Hlink|]. intros root.
  apply (preserves_bind _); [now apply preserves_fun|]. intros base.
  apply (preserves_bind _); [apply Hlink|]. intros root'.
  apply (preserves_bind _); [now apply preserves_fun|]. intros roots.
  apply build_same_registry.
Qed.

(** ** Importing a mesh file *)

Lemma handles_all {A} (keep : A -> bool) (l : list A) :
  forall i, (forall x, x ∈ l -> keep x = true) ->
            handles i (map keep l) = seq i (length l).
Proof.
  induction l as [|x l IH]; intros i Hall; simpl; [reflexivity|].
  rewrite Hall by left. f_equal. apply IH. intros y Hy. apply Hall. now right.
Qed.

(** X17: A mesh file in a format that is imported, none of whose objects has the
    name of an object of the scene: [create_objects_by_link] returns the
    handles of all the objects of the file, in their order, and leaves each
    of them scaled by the scale of the mesh, then set at the link's position
    with its orientation and recentred by the host, after the objects the
    scene had, which are as they were. *)
Theorem mesh_import_objects (link : URDFLink) (filename : string)
    (scale : option Vector) (w : World) :
  l_visual link ≫= v_geometry = Some (Mesh filename scale) ->
  contains ".dae" filename || contains ".stl" filename = true ->
  (forall o, o ∈ w_files w (replace "package:/" (ROS_SHARE_ROOT w) filename) ->
             o_name o ∉ map o_name (w_objects w)) ->
  create_objects_by_link link w =
  (Ok (seq (length (w_objects w))
           (length (w_files w (replace "package:/" (ROS_SHARE_ROOT w) filename)))),
   set_objects
     (fun os => os ++ map (fun o => place w link (scaled scale o))
                          (w_files w (replace "package:/" (ROS_SHARE_ROOT w) filename)))
     w).
Proof.
  intros Hgeometry Hformat Hfresh.
  rewrite create_objects_by_link_exact.
  unfold produced_handles, scene_with, added, produced, shaped.
  rewrite Hgeometry, Hformat. cbn [is_mesh].
  set (imported := w_files w (replace "package:/" (ROS_SHARE_ROOT w) filename)) in *.
  assert (Hkeep : forall o, o ∈ imported ->
                            negb (bool_decide (o_name o ∈ map o_name (w_objects w))) = true).
  { intros o Ho. now rewrite bool_decide_false by now apply Hfresh. }
  rewrite handles_all by exact Hkeep. f_equal.
  destruct w. unfold set_objects. simpl in *. do 2 f_equal.
  apply map_ext_in. intros o Ho. rewrite Hkeep; [reflexivity|].
  now apply list_elem_of_In.
Qed.

Lemma mesh_import_objects_witness :
  create_objects_by_link dae_link dae_world =
  (Ok [1; 2],
   set_objects
     (fun os => os ++ map (fun o => place dae_world dae_link
                                      (scaled (Some (mkVector 2 2 2)) o))
                          [new_object "Arm" vzero None; new_object "Hand" vzero None])
     dae_world).
Proof.
  apply (mesh_import_objects dae_link "package://robot/arm.dae" (Some (mkVector 2 2 2))
                             dae_world).
  - reflexivity.
  - reflexivity.
  - intros o Ho Hname. vm_compute in Ho, Hname.
    apply list_elem_of_singleton in Hname.
    apply elem_of_cons in Ho as [->|Ho]; [discriminate|].
    apply list_elem_of_singleton in Ho as ->. discriminate.
Defined.

(** ** An import that fails in the walk *)

(** X18: The tree is walked to its end before anything is built: once the host's
    own first step is done, the file read and the record of the base link
    made, when the walk from the root link raises, a [KeyError] for a child
    link that is not declared, a [TypeError] of a constructor or a
    [RecursionError] for a cycle, [URDF.__init__] raises the same, and the
    host is as that first step left it, but for the materials of the document
    in the registry: the module has made no armature, no bone, no object. *)
Theorem import_fails_before_build (ComponentCreator_init : string -> string -> M unit)
    (depth : nat) (name urdf_file : string) (w w0 : World) (urdf : Robot)
    (root : ULink) (base : URDFLink) (e : exn) :
  ComponentCreator_init name "robots" w = (Ok tt, w0) ->
  w_urdf_files w0 urdf_file = Ok urdf ->
  link_map urdf !! get_root urdf = Some root ->
  URDFLink_init root = Ok base ->
  _walk_urdf depth urdf root = Raise e ->
  URDF_init ComponentCreator_init depth name urdf_file w =
  (Raise e,
   set_MATERIALS (fun ms => foldl (fun ms mat => add_material mat ms) ms (materials urdf))
                 w0).
Proof.
  intros Hcreator Hread Hroot Hbase Hwalk. unfold URDF_init, get_link, from_xml_file.
  erewrite bind_Ok by exact Hcreator. cbv zeta.
  erewrite bind_Ok by (rewrite Hread; reflexivity).
  erewrite bind_Ok by reflexivity. rewrite Hroot.
  erewrite bind_Ok by reflexivity.
  erewrite bind_Ok by (unfold lift; rewrite Hbase; reflexivity).
  erewrite bind_Ok by reflexivity.
  erewrite bind_Raise; [reflexivity|]. unfold lift. now rewrite Hwalk.
Qed.

Lemma import_fails_before_build_witness :
  URDF_init empty_component 5 "robot" "robot.urdf" dangling_world =
  (Raise (KeyError "ghost"),
   set_MATERIALS (fun ms => foldl (fun ms mat => add_material mat ms) ms
                                  (materials dangling))
                 (set_active (Some 0)
                    (set_objects (fun os => os ++ [new_object "robot" vzero None])
                                 dangling_world))).
Proof.
  apply (import_fails_before_build empty_component 5 "robot" "robot.urdf" dangling_world
           _ dangling (bare_link "base") (link_record (bare_link "base") vzero vzero));
    reflexivity.
Defined.

(** ** The record of a link *)

(** X19: The origin of a link record is that of the inertial element when it has
    one, else that of the collision element, else that of the visual element,
    else the zero vector and the identity quaternion.  The constructor
    returns the record when the origin chosen, if any, has both its position
    and its angles; when either is missing it raises [TypeError]. *)
Theorem link_origin_precedence (urdf_link : ULink) :
  URDFLink_init urdf_link =
    match origin_by_precedence (ul_inertial urdf_link) (ul_collision urdf_link)
                               (ul_visual urdf_link) with
    | None => Ok (link_record urdf_link vzero vzero)
    | Some o =>
      match p_xyz o, p_rpy o with
      | Some xyz, Some rpy => Ok (link_record urdf_link xyz rpy)
      | _, _ => Raise TypeError
      end
    end /\
  l_xyz (link_record urdf_link vzero vzero) = vzero /\
  l_rot (link_record urdf_link vzero vzero) = qidentity.
Proof.
  split; [|split; [reflexivity|apply to_quaternion_zero]].
  destruct urdf_link as [name i v c].
  unfold URDFLink_init, _get_origin, origin_by_precedence, link_record; simpl.
  destruct (i ≫= i_origin) as [[[x|] [r|]]|]; try reflexivity.
  destruct (c ≫= c_origin) as [[[x|] [r|]]|]; try reflexivity.
  destruct (v ≫= v_origin) as [[[x|] [r|]]|]; reflexivity.
Qed.
